(** * Clickstream generator (generate_clickstream.py): model and properties

    A shallow embedding of the batch script that turns the Olist order,
    order-item, product and customer tables into a synthetic clickstream:
    purchase-funnel sessions for delivered orders, browsing-only sessions,
    and a final sort by event timestamp.

    Modelling conventions
    - A table is the list of its rows; a cell is a [pyval] ([PyNaN] is the
      missing value pandas reads from an empty CSV field, [PyNone] is
      Python's [None]).
    - A timestamp is a whole number of seconds since 1970-01-01 00:00:00
      (the input data has second precision and every timedelta of the script
      is a whole number of seconds); [None] is pandas' [NaT].  The bounds of
      the library's 64-bit representation are not modelled.
    - The three sources of randomness of the script are kept apart, as they
      are in Python: the [random] module (seeded with 42), numpy's generator
      behind [DataFrame.sample] (a fresh generator seeded with 42 for the
      cap on delivered orders, the unseeded global one elsewhere) and the
      operating system entropy behind [uuid.uuid4].
    - Two steps of pandas are modelled as the library runs them, because
      the script's behaviour depends on more than their contract: the check
      of [DataFrame.merge] on the types of the key columns (a column that is
      entirely missing is a float64 column) and the sort of [sort_values]
      (numpy's indirect quicksort on a column of strings).
    - [log] only prints to the console; console output is not modelled. *)

From Stdlib Require Import ZArith String Ascii Bool Lia List.
From Stdlib Require Import Permutation Sorted DecimalString DecimalNat.
Import ListNotations.

Open Scope string_scope.
Open Scope list_scope.
Open Scope Z_scope.

(** ** Timestamps and their ISO-8601 rendering *)

Module Clock.

(** Seconds since the epoch; [None] is [NaT]. *)
Definition Timestamp := option Z.

(** [ts - timedelta(days=d, minutes=m, seconds=s)]; [NaT] stays [NaT]. *)
Definition timedelta (days minutes seconds : Z) : Z :=
  86400 * days + 60 * minutes + seconds.

Definition ts_sub (ts : Timestamp) (delta : Z) : Timestamp :=
  match ts with
  | Some t => Some (t - delta)
  | None => None
  end.

Definition ts_add (ts : Timestamp) (delta : Z) : Timestamp :=
  match ts with
  | Some t => Some (t + delta)
  | None => None
  end.

(** Proleptic Gregorian date of a day number (days since 1970-01-01).
    Years are counted from 1 March inside 400-year eras, so that the leap
    day is the last day of a year. *)

(** Year of the era and day of that year, for a day of the era. *)
Definition year_of_era (doe : Z) : Z * Z :=
  let c := Z.min 3 (doe / 36524) in
  let doc := doe - 36524 * c in
  let q := doc / 1461 in
  let doq := doc mod 1461 in
  let yoq := Z.min 3 (doq / 365) in
  (100 * c + 4 * q + yoq, doq - 365 * yoq).

(** Month (1 to 12) and day of the month, for a day of a year that starts
    on 1 March. *)
Definition month_day (doy : Z) : Z * Z :=
  let mp := (5 * doy + 2) / 153 in
  (if mp <? 10 then mp + 3 else mp - 9, doy - (153 * mp + 2) / 5 + 1).

Definition civil_from_days (z : Z) : Z * Z * Z :=
  let z := z + 719468 in
  let era := z / 146097 in
  let (yoe, doy) := year_of_era (z mod 146097) in
  let (m, d) := month_day doy in
  (400 * era + yoe + (if m <=? 2 then 1 else 0), m, d).

Definition digit (n : Z) : ascii := ascii_of_nat (48 + Z.to_nat n).

Definition pad2 (n : Z) : string :=
  String (digit (n / 10)) (String (digit (n mod 10)) EmptyString).

Definition pad4 (n : Z) : string :=
  String (digit (n / 1000)) (String (digit (n / 100 mod 10)) (pad2 (n mod 100))).

(** [Timestamp.isoformat(sep=" ")] of a naive timestamp with no fractional
    second: [YYYY-MM-DD HH:MM:SS]; [NaT] renders as ["NaT"]. *)
Definition isoformat_secs (t : Z) : string :=
  let '(y, m, d) := civil_from_days (t / 86400) in
  let s := t mod 86400 in
  (pad4 y ++ "-" ++ pad2 m ++ "-" ++ pad2 d ++ " " ++
   pad2 (s / 3600) ++ ":" ++ pad2 (s / 60 mod 60) ++ ":" ++ pad2 (s mod 60))%string.

Definition isoformat (ts : Timestamp) : string :=
  match ts with
  | Some t => isoformat_secs t
  | None => "NaT"
  end.

(** The numeric key [YYYYMMDDHHMMSS] of a timestamp. *)
Definition date_key (z : Z) : Z :=
  let '(y, m, d) := civil_from_days z in 10000 * y + 100 * m + d.

Definition ts_key (t : Z) : Z :=
  let s := t mod 86400 in
  1000000 * date_key (t / 86400)
  + 10000 * (s / 3600) + 100 * (s / 60 mod 60) + s mod 60.

(** First and last second of the years 0001 to 9999, the years that
    [isoformat] renders with four digits. *)
Definition ts_first : Z := -62135596800.
Definition ts_last : Z := 253402300799.

Definition in_range (t : Z) : Prop := ts_first <= t <= ts_last.

(** Rank of a day inside a year that starts on 1 March: January and
    February belong to the next civil year. *)
Definition rank (doy : Z) : Z :=
  let (m, d) := month_day doy in
  (if m <=? 2 then 10000 else 0) + 100 * m + d.

(** The six fields that [isoformat] prints. *)
Definition fields (t : Z) : Z * Z * Z * Z * Z * Z :=
  let '(y, m, d) := civil_from_days (t / 86400) in
  let s := t mod 86400 in
  (y, m, d, s / 3600, s / 60 mod 60, s mod 60).

Definition fields_ok (f : Z * Z * Z * Z * Z * Z) : Prop :=
  let '(y, m, d, hh, mm, ss) := f in
  0 <= y <= 9999 /\ 1 <= m <= 12 /\ 1 <= d <= 31 /\
  0 <= hh <= 23 /\ 0 <= mm <= 59 /\ 0 <= ss <= 59.

Definition fields_key (f : Z * Z * Z * Z * Z * Z) : Z :=
  let '(y, m, d, hh, mm, ss) := f in
  1000000 * (10000 * y + 100 * m + d) + 10000 * hh + 100 * mm + ss.

Definition render (f : Z * Z * Z * Z * Z * Z) : string :=
  let '(y, m, d, hh, mm, ss) := f in
  (pad4 y ++ "-" ++ pad2 m ++ "-" ++ pad2 d ++ " " ++
   pad2 hh ++ ":" ++ pad2 mm ++ ":" ++ pad2 ss)%string.

End Clock.

(** ** Python values, exceptions and the input tables *)

(** A dynamically typed cell: Python's [None], the float [NaN] that pandas
    uses for a missing value, or a string. *)
Inductive pyval : Type :=
  | PyNone
  | PyNaN
  | PyStr (s : string).

(** Element-wise [column == value]: a missing value equals nothing, not
    even itself. *)
Definition cell_eq (a b : pyval) : bool :=
  match a, b with
  | PyStr x, PyStr y => String.eqb x y
  | _, _ => false
  end.

(** Key match of [DataFrame.merge]: missing keys match each other. *)
Definition key_eq (a b : pyval) : bool :=
  match a, b with
  | PyStr x, PyStr y => String.eqb x y
  | PyNaN, PyNaN => true
  | PyNone, PyNone => true
  | _, _ => false
  end.

Inductive exn : Type :=
  | RuntimeError (msg : string)
  | IndexError
  | ValueError
  | KeyError (key : string).

Inductive Result (A : Type) : Type :=
  | Ok (a : A)
  | Raise (e : exn).

Arguments Ok {A} a.
Arguments Raise {A} e.

(** The four input tables, after the projection on the essential columns
    (lines 34-48). *)
Module Orders.
Record row : Type := mk {
  order_id : pyval;
  customer_id : pyval;
  order_status : pyval;
  order_purchase_timestamp : pyval
}.
End Orders.

Module OrderItems.
Record row : Type := mk {
  order_id : pyval;
  product_id : pyval
}.
End OrderItems.

Module Products.
Record row : Type := mk {
  product_id : pyval;
  product_category_name : pyval
}.
End Products.

Module Customers.
Record row : Type := mk {
  customer_id : pyval;
  customer_unique_id : pyval;
  customer_city : pyval;
  customer_state : pyval
}.
End Customers.

(** [order_items.merge(products, on="product_id", how="left")]. *)
Module ItemsJoined.
Record row : Type := mk {
  order_id : pyval;
  product_id : pyval;
  product_category_name : pyval
}.
End ItemsJoined.

(** [orders.merge(customers, on="customer_id", how="left")]; the type [T] of
    the purchase timestamp is [pyval] as read, and [Clock.Timestamp] after
    [pd.to_datetime]. *)
Module OrdersJoined.
Record row (T : Type) : Type := mk {
  order_id : pyval;
  customer_id : pyval;
  order_status : pyval;
  order_purchase_timestamp : T;
  customer_unique_id : pyval;
  customer_city : pyval;
  customer_state : pyval
}.
Arguments mk {T}.
Arguments order_id {T}.
Arguments customer_id {T}.
Arguments order_status {T}.
Arguments order_purchase_timestamp {T}.
Arguments customer_unique_id {T}.
Arguments customer_city {T}.
Arguments customer_state {T}.
End OrdersJoined.

Record Tables : Type := mkTables {
  orders : list Orders.row;
  order_items : list OrderItems.row;
  products : list Products.row;
  customers : list Customers.row
}.

(** One row of the output table. *)
Record event : Type := mkEvent {
  event_id : string;
  session_id : string;
  customer_id : pyval;
  event_type : string;
  event_ts : string;
  product_id : pyval;
  order_id : pyval;
  device_type : string;
  traffic_source : string;
  is_authenticated : Z;
  customer_city : pyval;
  customer_state : pyval
}.

(** ** Library interfaces *)

(** Python's [random] module.  [randbelow n] is the primitive behind
    [randint] and [choice]; [random] returns the numerator [k] of the float
    [k / 2^53] that [random.random()] produces. *)
Class PyRandom (G : Type) : Type := {
  seed : Z -> G;
  randbelow : Z -> G -> Z * G;
  random : G -> Z * G;
  randbelow_range : forall n g, 0 < n -> 0 <= fst (randbelow n g) < n;
  random_range : forall g, 0 <= fst (random g) < 2 ^ 53
}.

(** numpy's generator as [DataFrame.sample] uses it:
    [choice(len, size=n, replace=False)] returns [n] distinct row positions. *)
Class NumpyRandom (R : Type) : Type := {
  RandomState : Z -> R;
  choice_no_replace : nat -> nat -> R -> list nat * R;
  choice_length : forall len n r, (n <= len)%nat ->
    length (fst (choice_no_replace len n r)) = n;
  choice_bound : forall len n r, (n <= len)%nat ->
    Forall (fun i => (i < len)%nat) (fst (choice_no_replace len n r));
  choice_NoDup : forall len n r, (n <= len)%nat ->
    NoDup (fst (choice_no_replace len n r))
}.

(** [pd.to_datetime(column, errors="coerce")]: one timestamp per cell,
    [NaT] where the cell does not parse. *)
Class ToDatetime : Type := {
  to_datetime : list pyval -> list Clock.Timestamp;
  to_datetime_length : forall col, length (to_datetime col) = length col
}.

(** Order of Python strings (by code point). *)
Definition str_le (a b : string) : Prop := String.leb a b = true.

(** The indirect sort behind [sort_values]: the positions of the keys in
    ascending order.  The statements about a run that do not depend on the
    order of equal keys are made for any sort that returns a sorted
    permutation; [Npysort.npy_aquicksort] below is the sort that the default
    [kind] (quicksort) runs on a column of strings. *)
Class ArgSort : Type := {
  argsort : list string -> list nat;
  argsort_perm : forall keys, Permutation (argsort keys) (seq 0 (length keys));
  argsort_sorted : forall keys,
    Sorted str_le (map (fun i => nth i keys EmptyString) (argsort keys))
}.

(** ** The sort behind [sort_values] (numpy, npysort)

    For a column of Python strings [sort_values] with the default [kind]
    sorts indirectly with [npy_aquicksort]: an array [tosort] of positions
    is rearranged, and the keys are only compared.  Quicksort with a
    median of three as pivot on segments of more than 17 cells, insertion
    sort on the shorter ones, and heapsort on a segment that is taken from
    the stack after the depth limit is used up.  The segments that are
    sorted are pairwise disjoint, so that each of them is described here as
    an array of its own, with [pl] at index 0 and [pr] at the last index. *)

Module Npysort.

Section NumpySort.

Variable keys : list string.

(** [cmp(v + a*elsize, v + b*elsize, arr) < 0] on two entries of [tosort]. *)
Definition less (a b : nat) : bool :=
  String.ltb (nth a keys EmptyString) (nth b keys EmptyString).

(** The key at position [a] is not after the key at position [b]. *)
Definition key_le (a b : nat) : Prop := less b a = false.

Definition get (t : list nat) (i : nat) : nat := nth i t O.

Fixpoint put (t : list nat) (i x : nat) : list nat :=
  match t, i with
  | [], _ => []
  | _ :: t', O => x :: t'
  | y :: t', S i' => y :: put t' i' x
  end.

(** [INTP_SWAP(t[i], t[j])] *)
Definition swap (t : list nat) (i j : nat) : list nat :=
  put (put t i (get t j)) j (get t i).

Definition SMALL_QUICKSORT : nat := 16.

(** [npy_get_msb]: the position of the highest bit that is set. *)
Definition npy_get_msb (n : nat) : Z := Z.log2 (Z.of_nat n).

(** *** Insertion sort (the last loop of [npy_aquicksort])

    The cells before [pi] are sorted; [vi = *pi] moves down past every
    cell that is greater.  [done] holds the cells before [pi], the last one
    first. *)
Fixpoint shift_in (vi : nat) (done : list nat) : list nat :=
  match done with
  | pk :: rest => if less vi pk then pk :: shift_in vi rest
                  else vi :: pk :: rest
  | [] => [vi]
  end.

Definition insertion_sort (t : list nat) : list nat :=
  rev (fold_left (fun done vi => shift_in vi done) t []).

(** *** Heapsort ([npy_aheapsort])

    The array is used from index 1: [a[i]] is [t[i - 1]]. *)
Definition get1 (t : list nat) (i : nat) : nat := get t (i - 1).
Definition put1 (t : list nat) (i x : nat) : list nat := put t (i - 1) x.

(** The cell [i] is not before its two children, as far as they lie within
    the first [n] cells. *)
Definition heap_at (t : list nat) (n i : nat) : Prop :=
  ((2 * i <= n)%nat -> key_le (get1 t (2 * i)) (get1 t i)) /\
  ((2 * i + 1 <= n)%nat -> key_le (get1 t (2 * i + 1)) (get1 t i)).

(** The inner loop [for (i = ..., j = ...; j <= n;)] and the [a[i] = tmp]
    that follows it. *)
Fixpoint sift (fuel : nat) (t : list nat) (tmp n i j : nat) : list nat :=
  match fuel with
  | O => put1 t i tmp
  | S fuel' =>
      if (j <=? n)%nat then
        let j := if (j <? n)%nat && less (get1 t j) (get1 t (j + 1))
                 then (j + 1)%nat else j in
        if less tmp (get1 t j)
        then sift fuel' (put1 t i (get1 t j)) tmp n j (j + j)
        else put1 t i tmp
      else put1 t i tmp
  end.

(** [for (l = n >> 1; l > 0; --l)] *)
Fixpoint build_heap (l : nat) (t : list nat) (n : nat) : list nat :=
  match l with
  | O => t
  | S l' => build_heap l' (sift n t (get1 t l) n l (l + l)) n
  end.

(** [for (; n > 1;)] *)
Fixpoint drain_heap (n : nat) (t : list nat) : list nat :=
  match n with
  | S (S _ as n') =>
      let tmp := get1 t n in
      let t := put1 t n (get1 t 1) in
      drain_heap n' (sift n' t tmp n' 1 2)
  | _ => t
  end.

Definition npy_aheapsort (t : list nat) : list nat :=
  let n := length t in
  drain_heap n (build_heap (Nat.div2 n) t n).

(** *** The partition *)

(** [do ++pi; while (less(t[pi], vp) && pi < pj)] *)
Fixpoint scan_up (fuel : nat) (t : list nat) (vp pj pi : nat) : nat :=
  let pi := S pi in
  match fuel with
  | O => pi
  | S fuel' =>
      if less (get t pi) vp && (pi <? pj)%nat
      then scan_up fuel' t vp pj pi else pi
  end.

(** [do --pj; while (less(vp, t[pj]) && pi < pj)] *)
Fixpoint scan_down (t : list nat) (vp pi pj : nat) : nat :=
  match pj with
  | O => O
  | S pj' =>
      if less vp (get t pj') && (pi <? pj')%nat
      then scan_down t vp pi pj' else pj'
  end.

(** The loop [for (;;)] of the partition: the array and [pi] when it is
    left. *)
Fixpoint hoare_loop (fuel : nat) (t : list nat) (vp pi pj : nat)
  : list nat * nat :=
  match fuel with
  | O => (t, pi)
  | S fuel' =>
      let pi := scan_up pj t vp pj pi in
      let pj := scan_down t vp pi pj in
      if (pj <=? pi)%nat then (t, pi)
      else hoare_loop fuel' (swap t pi pj) vp pi pj
  end.

(** [if (less(t[i], t[j])) INTP_SWAP(t[i], t[j])] *)
Definition swap_if_less (t : list nat) (i j : nat) : list nat :=
  if less (get t i) (get t j) then swap t i j else t.

(** One round of the loop [while ((pr - pl) > SMALL_QUICKSORT)], up to the
    swap that puts the pivot at [pi]. *)
Definition partition (t : list nat) : list nat * nat :=
  let pr := (length t - 1)%nat in
  let pm := Nat.div2 pr in
  let t := swap_if_less t pm 0 in
  let t := swap_if_less t pr pm in
  let t := swap_if_less t pm 0 in
  let vp := get t pm in
  let pj := (pr - 1)%nat in
  let t := swap t pm pj in
  let '(t, pi) := hoare_loop (length t) t vp 0 pj in
  (swap t pi (pr - 1), pi).

(** *** Quicksort ([npy_aquicksort])

    [popped] tells whether the segment has just been taken from the stack
    (or is the whole array): only then is the depth looked at.  Of the two
    parts of a partition the longer one goes on the stack and the other one
    is partitioned next; both with the depth decreased by one. *)
Fixpoint quicksort_segment (fuel : nat) (popped : bool) (cdepth : Z)
    (t : list nat) : list nat :=
  match fuel with
  | O => t
  | S fuel' =>
      if popped && (cdepth <? 0) then npy_aheapsort t
      else if (SMALL_QUICKSORT <? length t - 1)%nat then
        let '(t', pi) := partition t in
        let left := firstn pi t' in
        let right := skipn (S pi) t' in
        let left_is_next := (pi <? (length t - 1) - pi)%nat in
        quicksort_segment fuel' (negb left_is_next) (cdepth - 1) left
          ++ [get t' pi]
          ++ quicksort_segment fuel' left_is_next (cdepth - 1) right
      else insertion_sort t
  end.

Definition npy_aquicksort : list nat :=
  let num := length keys in
  quicksort_segment (S num) true (npy_get_msb num * 2) (seq 0 num).

End NumpySort.

End Npysort.

(** ** Configuration (lines 8-11) *)

Definition MAX_PURCHASE_SESSIONS : nat := Z.to_nat 10000.

Definition device_types : list string := ["desktop"; "mobile"; "tablet"].
Definition traffic_sources : list string :=
  ["direct"; "seo"; "ads"; "email"; "social"].

(** ** The interpreter state and its monad *)

Section Program.

Context {G R : Type} `{PyRandom G} `{NumpyRandom R} `{ToDatetime} `{ArgSort}.

(** What the script reads and mutates while it generates: the state of the
    [random] module, the state of numpy's global generator, the identifiers
    that [uuid.uuid4] will return (the [n]-th call returns [uuid_pool n]) and
    the global list [events]. *)
Record World : Type := mkWorld {
  py : G;
  np : R;
  uuid_pool : nat -> string;
  uuid_count : nat;
  events : list event
}.

Definition M (A : Type) : Type := World -> Result (A * World).

Definition ret {A : Type} (a : A) : M A := fun w => Ok (a, w).

Definition bind {A B : Type} (m : M A) (k : A -> M B) : M B :=
  fun w =>
    match m w with
    | Ok (a, w') => k a w'
    | Raise e => Raise e
    end.

Definition raise {A : Type} (e : exn) : M A := fun _ => Raise e.

Notation "x <- m ;; k" := (bind m (fun x => k))
  (at level 61, m at next level, right associativity).
Notation "m ;;; k" := (bind m (fun _ => k))
  (at level 61, right associativity).

(** [str(uuid.uuid4())] *)
Definition uuid4 : M string :=
  fun w =>
    Ok (uuid_pool w (uuid_count w),
        mkWorld (py w) (np w) (uuid_pool w) (S (uuid_count w)) (events w)).

(** The [random] module on its own state: [randint(a, b)] for [a <= b],
    [choice(seq)] for a non-empty [seq] whose first element is [d]. *)
Definition py_randint (a b : Z) (g : G) : Z * G :=
  let (k, g') := randbelow (b - a + 1) g in (a + k, g').

Definition py_choice {A : Type} (d : A) (seq : list A) (g : G) : A * G :=
  let (k, g') := randbelow (Z.of_nat (length seq)) g in
  (nth (Z.to_nat k) seq d, g').

Definition lift_py {A : Type} (f : G -> A * G) : M A :=
  fun w =>
    let (a, g) := f (py w) in
    Ok (a, mkWorld g (np w) (uuid_pool w) (uuid_count w) (events w)).

(** [random.randint(a, b)] *)
Definition randint (a b : Z) : M Z :=
  if b <? a then raise ValueError else lift_py (py_randint a b).

(** [random.choice(seq)] *)
Definition choice {A : Type} (seq : list A) : M A :=
  match seq with
  | [] => raise IndexError
  | d :: _ => lift_py (py_choice d seq)
  end.

(** [random.random()]: the numerator [k] of the float [k / 2^53]. *)
Definition random_float : M Z := lift_py random.

(** The doubles [0.4] and [0.75] as multiples of [2^-53], so that
    [r < 0.4] is [k <? p_0_4] for [r = k / 2^53]. *)
Definition p_0_4 : Z := 3602879701896397.
Definition p_0_75 : Z := 6755399441055744.

(** [df.take(positions)]: a position outside the frame raises. *)
Fixpoint take_rows {A : Type} (rows : list A) (idx : list nat) : Result (list A) :=
  match idx with
  | [] => Ok []
  | i :: idx' =>
      match nth_error rows i, take_rows rows idx' with
      | Some r, Ok rs => Ok (r :: rs)
      | _, _ => Raise IndexError
      end
  end.

(** [df.sample(n, random_state=...)] on a given generator state. *)
Definition sample_with {A : Type} (n : nat) (rows : list A) (r : R)
  : Result (list A * R) :=
  if (length rows <? n)%nat then Raise ValueError
  else
    let (idx, r') := choice_no_replace (length rows) n r in
    match take_rows rows idx with
    | Ok rs => Ok (rs, r')
    | Raise e => Raise e
    end.

(** [df.sample(n, random_state=None)]: numpy's global generator. *)
Definition sample {A : Type} (n : nat) (rows : list A) : M (list A) :=
  fun w =>
    match sample_with n rows (np w) with
    | Ok (rs, r') =>
        Ok (rs, mkWorld (py w) r' (uuid_pool w) (uuid_count w) (events w))
    | Raise e => Raise e
    end.

(** [df.iloc[0]] *)
Definition iloc0 {A : Type} (rows : list A) : M A :=
  match rows with
  | r :: _ => ret r
  | [] => raise IndexError
  end.

(** [events.append(e)] *)
Definition append_event (e : event) : M unit :=
  fun w =>
    Ok (tt, mkWorld (py w) (np w) (uuid_pool w) (uuid_count w) (events w ++ [e])).

(** ** make_event (lines 85-109) *)

(** [x if x is not None else ""] *)
Definition if_not_none (x : pyval) : pyval :=
  match x with
  | PyNone => PyStr ""
  | _ => x
  end.

(** [x or ""] on a cell: [None] and the empty string are falsy, [NaN] is
    truthy. *)
Definition or_empty (x : pyval) : pyval :=
  match x with
  | PyNone => PyStr ""
  | _ => x
  end.

(** [s or ""] on a string. *)
Definition str_or_empty (s : string) : string :=
  if String.eqb s "" then "" else s.

(** The dictionary that [make_event] returns, given its [event_id]. *)
Definition event_of (event_id event_type session_id : string)
    (ts : Clock.Timestamp) (customer_id product_id order_id city state : pyval)
    (is_auth : bool) (traffic_source device_type : string) : event :=
  mkEvent
    event_id
    session_id
    (if_not_none customer_id)
    event_type
    (Clock.isoformat ts)
    (if_not_none product_id)
    (if_not_none order_id)
    (str_or_empty device_type)
    (str_or_empty traffic_source)
    (if is_auth then 1 else 0)
    (or_empty city)
    (or_empty state).

Definition make_event (event_type session_id : string) (ts : Clock.Timestamp)
    (customer_id product_id order_id city state : pyval) (is_auth : bool)
    (traffic_source device_type : string) : M event :=
  event_id <- uuid4 ;;
  ret (event_of event_id event_type session_id ts customer_id product_id
         order_id city state is_auth traffic_source device_type).

(** ** Loading, joining and filtering (lines 50-77) *)

(** The dtype of a key column as [read_csv] leaves it: [float64] when the
    column has rows and every cell is missing, [object] otherwise. *)
Definition is_missing (c : pyval) : bool :=
  match c with
  | PyNaN => true
  | _ => false
  end.

Definition float64_column (col : list pyval) : bool :=
  match col with
  | [] => false
  | _ :: _ => forallb is_missing col
  end.

(** [DataFrame.merge] checks the key columns before it joins: when both
    frames have rows and one key column is [object] (strings) while the other
    is [float64] (entirely missing), it raises [ValueError]. *)
Definition key_dtypes_clash (lk rk : list pyval) : bool :=
  negb (Nat.eqb (length lk) 0) && negb (Nat.eqb (length rk) 0)
  && xorb (float64_column lk) (float64_column rk).

(** The rows of [order_items.merge(products, on="product_id", how="left")]:
    every left row, once per matching product, or once with a missing
    category. *)
Definition join_items (items : list OrderItems.row) (prods : list Products.row)
  : list ItemsJoined.row :=
  flat_map
    (fun it =>
       match filter (fun p => key_eq (Products.product_id p)
                                     (OrderItems.product_id it)) prods with
       | [] => [ItemsJoined.mk (OrderItems.order_id it)
                               (OrderItems.product_id it) PyNaN]
       | ps => map (fun p => ItemsJoined.mk (OrderItems.order_id it)
                                            (OrderItems.product_id it)
                                            (Products.product_category_name p)) ps
       end)
    items.

(** [order_items.merge(products, on="product_id", how="left")] (line 51). *)
Definition merge_items (items : list OrderItems.row) (prods : list Products.row)
  : Result (list ItemsJoined.row) :=
  if key_dtypes_clash (map OrderItems.product_id items)
                      (map Products.product_id prods)
  then Raise ValueError
  else Ok (join_items items prods).

(** The rows of [orders.merge(customers, on="customer_id", how="left")]. *)
Definition join_orders (os : list Orders.row) (cs : list Customers.row)
  : list (OrdersJoined.row pyval) :=
  flat_map
    (fun o =>
       let mk := OrdersJoined.mk (Orders.order_id o) (Orders.customer_id o)
                   (Orders.order_status o) (Orders.order_purchase_timestamp o) in
       match filter (fun c => key_eq (Customers.customer_id c)
                                     (Orders.customer_id o)) cs with
       | [] => [mk PyNaN PyNaN PyNaN]
       | ms => map (fun c => mk (Customers.customer_unique_id c)
                                (Customers.customer_city c)
                                (Customers.customer_state c)) ms
       end)
    os.

(** [orders.merge(customers, on="customer_id", how="left")] (line 52). *)
Definition merge_orders (os : list Orders.row) (cs : list Customers.row)
  : Result (list (OrdersJoined.row pyval)) :=
  if key_dtypes_clash (map Orders.customer_id os)
                      (map Customers.customer_id cs)
  then Raise ValueError
  else Ok (join_orders os cs).

(** [orders["order_purchase_timestamp"] = pd.to_datetime(..., errors="coerce")] *)
Definition convert_timestamps (os : list (OrdersJoined.row pyval))
  : list (OrdersJoined.row Clock.Timestamp) :=
  map
    (fun '(o, ts) =>
       OrdersJoined.mk (OrdersJoined.order_id o) (OrdersJoined.customer_id o)
         (OrdersJoined.order_status o) ts (OrdersJoined.customer_unique_id o)
         (OrdersJoined.customer_city o) (OrdersJoined.customer_state o))
    (combine os (to_datetime (map OrdersJoined.order_purchase_timestamp os))).

Definition is_delivered (o : OrdersJoined.row Clock.Timestamp) : bool :=
  cell_eq (OrdersJoined.order_status o) (PyStr "delivered").

Definition has_timestamp (o : OrdersJoined.row Clock.Timestamp) : bool :=
  match OrdersJoined.order_purchase_timestamp o with
  | Some _ => true
  | None => false
  end.

(** [column.dropna().unique().tolist()] *)
Fixpoint dropna (col : list pyval) : list string :=
  match col with
  | [] => []
  | PyStr x :: col' => x :: dropna col'
  | _ :: col' => dropna col'
  end.

Fixpoint unique (l : list string) : list string :=
  match l with
  | [] => []
  | x :: l' => x :: filter (fun y => negb (String.eqb y x)) (unique l')
  end.

(** The module-level data that both generators read. *)
Record Loaded : Type := mkLoaded {
  order_items_sample : list ItemsJoined.row;
  orders_joined : list (OrdersJoined.row Clock.Timestamp);
  delivered_orders : list (OrdersJoined.row Clock.Timestamp);
  customers_table : list Customers.row;
  product_ids : list string;
  customers_list : list string
}.

Definition no_delivered_msg : string :=
  "No delivered orders found. Check your CSV content.".

(** The joined orders with their timestamps converted (lines 52-59), and
    the delivered ones among them whose timestamp is not [NaT] (line 60):
    what the script holds in [orders] and [delivered_orders] when the merge
    of line 52 has not raised. *)
Definition joined_orders (T : Tables) : list (OrdersJoined.row Clock.Timestamp) :=
  convert_timestamps (join_orders (orders T) (customers T)).

Definition qualifying_orders (T : Tables)
  : list (OrdersJoined.row Clock.Timestamp) :=
  filter has_timestamp (filter is_delivered (joined_orders T)).

Definition load (max_purchase_sessions : nat) (T : Tables) : Result Loaded :=
  match merge_items (order_items T) (products T) with
  | Raise e => Raise e
  | Ok order_items_sample =>
      match merge_orders (orders T) (customers T) with
      | Raise e => Raise e
      | Ok merged =>
          let orders := convert_timestamps merged in
          let delivered_orders :=
            filter has_timestamp (filter is_delivered orders) in
          match delivered_orders with
          | [] => Raise (RuntimeError no_delivered_msg)
          | _ :: _ =>
              let capped :=
                if (max_purchase_sessions <? length delivered_orders)%nat
                then
                  match sample_with max_purchase_sessions delivered_orders
                          (RandomState 42) with
                  | Ok (rows, _) => Ok rows
                  | Raise e => Raise e
                  end
                else Ok delivered_orders in
              match capped with
              | Raise e => Raise e
              | Ok delivered_orders =>
                  Ok (mkLoaded order_items_sample orders delivered_orders
                        (customers T)
                        (unique (dropna (map Products.product_id (products T))))
                        (unique (dropna (map Customers.customer_id
                                           (customers T)))))
              end
          end
      end
  end.

(** ** Sessions ending in real purchases (lines 115-197) *)

Section Generators.

Variable L : Loaded.

(** The [view_product] loop (lines 151-161); returns the clock after it. *)
Fixpoint view_products (sess_id : string) (customer_id city state : pyval)
    (source device : string) (oi_sample : list ItemsJoined.row)
    (cur_time : Clock.Timestamp) : M Clock.Timestamp :=
  match oi_sample with
  | [] => ret cur_time
  | oi_row :: rest =>
      e <- make_event "view_product" sess_id cur_time customer_id
             (ItemsJoined.product_id oi_row) PyNone city state true
             source device ;;
      append_event e ;;;
      s <- randint 5 40 ;;
      view_products sess_id customer_id city state source device rest
        (Clock.ts_add cur_time (Clock.timedelta 0 0 s))
  end.

(** The items of an order: [order_items_sample[... == order_id]]. *)
Definition items_of (order_id : pyval) : list ItemsJoined.row :=
  filter (fun r => cell_eq (ItemsJoined.order_id r) order_id)
         (order_items_sample L).

(** One iteration of the purchase-funnel loop. *)
Definition funnel_session (row : OrdersJoined.row Clock.Timestamp) : M unit :=
  let order_id := OrdersJoined.order_id row in
  let customer_id := OrdersJoined.customer_id row in
  let purchase_time := OrdersJoined.order_purchase_timestamp row in
  let city := OrdersJoined.customer_city row in
  let state := OrdersJoined.customer_state row in
  let oi := items_of order_id in
  match oi with
  | [] => ret tt
  | _ :: _ =>
      sess_id <- uuid4 ;;
      device <- choice device_types ;;
      source <- choice traffic_sources ;;
      let is_auth := true in
      oi_sample <- sample (Nat.min 3 (length oi)) oi ;;
      m <- randint 5 40 ;;
      let base_time := Clock.ts_sub purchase_time (Clock.timedelta 0 m 0) in
      e <- make_event "page_view" sess_id base_time customer_id PyNone PyNone
             city state is_auth source device ;;
      append_event e ;;;
      s <- randint 5 40 ;;
      let cur_time := Clock.ts_add base_time (Clock.timedelta 0 0 s) in
      cur_time <- view_products sess_id customer_id city state source device
                    oi_sample cur_time ;;
      first <- iloc0 oi_sample ;;
      e <- make_event "add_to_cart" sess_id cur_time customer_id
             (ItemsJoined.product_id first) PyNone city state is_auth
             source device ;;
      append_event e ;;;
      s <- randint 5 40 ;;
      let cur_time := Clock.ts_add cur_time (Clock.timedelta 0 0 s) in
      e <- make_event "checkout" sess_id cur_time customer_id PyNone PyNone
             city state is_auth source device ;;
      append_event e ;;;
      e <- make_event "purchase" sess_id purchase_time customer_id PyNone
             order_id city state is_auth source device ;;
      append_event e
  end.

(** [for ... in delivered_orders.iterrows()] *)
Fixpoint funnel_loop (rows : list (OrdersJoined.row Clock.Timestamp)) : M unit :=
  match rows with
  | [] => ret tt
  | row :: rest => funnel_session row ;;; funnel_loop rest
  end.

(** ** Non-conversion browsing sessions (lines 204-264) *)

Definition base_orders_source : list (OrdersJoined.row Clock.Timestamp) :=
  match delivered_orders L with
  | [] => orders_joined L
  | _ :: _ => delivered_orders L
  end.

(** The step loop (lines 237-261). *)
Fixpoint browse_steps (steps : nat) (sess_id : string)
    (customer_id city state : pyval) (is_auth : bool) (source device : string)
    (cur_time : Clock.Timestamp) : M unit :=
  match steps with
  | O => ret tt
  | S steps' =>
      r <- random_float ;;
      step <- (if r <? p_0_4 then ret ("page_view", PyNone)
               else if r <? p_0_75
               then pid <- choice (product_ids L) ;;
                    ret ("view_product", PyStr pid)
               else pid <- choice (product_ids L) ;;
                    ret ("add_to_cart", PyStr pid)) ;;
      let '(etype, pid) := step in
      e <- make_event etype sess_id cur_time customer_id pid PyNone
             city state is_auth source device ;;
      append_event e ;;;
      s <- randint 5 60 ;;
      browse_steps steps' sess_id customer_id city state is_auth source device
        (Clock.ts_add cur_time (Clock.timedelta 0 0 s))
  end.

(** One iteration of the browsing loop, on the frame [src] it samples its
    reference order from. *)
Definition browsing_session (src : list (OrdersJoined.row Clock.Timestamp))
  : M unit :=
  smp <- sample 1 src ;;
  base_order <- iloc0 smp ;;
  d <- randint 1 60 ;;
  m <- randint 0 1440 ;;
  let base_time :=
    Clock.ts_sub (OrdersJoined.order_purchase_timestamp base_order)
                 (Clock.timedelta d m 0) in
  sess_id <- uuid4 ;;
  device <- choice device_types ;;
  source <- choice traffic_sources ;;
  r <- random_float ;;
  let is_auth := r <? p_0_4 in
  who <- (if is_auth && negb (Nat.eqb (length (customers_list L)) 0)
          then
            customer_id <- choice (customers_list L) ;;
            match filter (fun c => cell_eq (Customers.customer_id c)
                                           (PyStr customer_id))
                         (customers_table L) with
            | cust_row :: _ =>
                ret (PyStr customer_id, Customers.customer_city cust_row,
                     Customers.customer_state cust_row)
            | [] => ret (PyStr customer_id, PyNone, PyNone)
            end
          else ret (PyNone, PyNone, PyNone)) ;;
  let '(customer_id, city, state) := who in
  steps <- randint 2 6 ;;
  browse_steps (Z.to_nat steps) sess_id customer_id city state is_auth
    source device base_time.

(** [for i in range(1, n + 1)] *)
Fixpoint browsing_loop (n : nat) (src : list (OrdersJoined.row Clock.Timestamp))
  : M unit :=
  match n with
  | O => ret tt
  | S n' => browsing_session src ;;; browsing_loop n' src
  end.

End Generators.

(** ** Finalize and write (lines 272-276) *)

(** [events_df.sort_values("event_ts")]: the rows in the order of the
    indirect sort of the [event_ts] column. *)
Definition sort_values (evs : list event) : list event :=
  flat_map (fun i => match nth_error evs i with
                     | Some e => [e]
                     | None => []
                     end)
           (argsort (map event_ts evs)).

(** A frame built from an empty list has no [event_ts] column. *)
Definition finalize : M (list event) :=
  fun w =>
    match events w with
    | [] => Raise (KeyError "event_ts")
    | _ :: _ => Ok (sort_values (events w), w)
    end.

(** Both generators, one after the other, on the global [events] list. *)
Definition generate (num_non_conv_sessions : nat) (L : Loaded) : M unit :=
  funnel_loop L (delivered_orders L) ;;;
  browsing_loop L num_non_conv_sessions (base_orders_source L).

(** The script, for a given configuration: the rows written to the output
    file, or the exception that ends the run.  [np0] is the state of numpy's
    global generator when the script starts and [pool] the identifiers that
    [uuid4] will hand out. *)
Definition pipeline (max_purchase_sessions num_non_conv_sessions : nat)
    (T : Tables) (np0 : R) (pool : nat -> string) : Result (list event) :=
  match load max_purchase_sessions T with
  | Raise e => Raise e
  | Ok L =>
      match (generate num_non_conv_sessions L ;;; finalize)
              (mkWorld (seed 42) np0 pool 0 []) with
      | Ok (table, _) => Ok table
      | Raise e => Raise e
      end
  end.


End Program.

(** ** How a run ends

    The script has no [try] statement and never calls [sys.exit]: an
    exception raised by one of its statements leaves the module.  The
    interpreter then writes the stack trace on stderr, that is the header
    line below, the stack frames, and the exception as [Type: message], and
    exits with status 1; the output file is not written. *)

Inductive Ending : Type :=
  | Written (table : list event)
  | Traceback (e : exn).

Definition ending (r : Result (list event)) : Ending :=
  match r with
  | Ok table => Written table
  | Raise e => Traceback e
  end.

Definition traceback_header : string := "Traceback (most recent call last):".

Definition exn_name (e : exn) : string :=
  match e with
  | RuntimeError _ => "RuntimeError"
  | IndexError => "IndexError"
  | ValueError => "ValueError"
  | KeyError _ => "KeyError"
  end.

(** The first line on stderr, and the last one when the text of the
    exception is the script's own (the text of an exception raised inside a
    library is the library's). *)
Definition stderr_first (r : Ending) : option string :=
  match r with
  | Written _ => None
  | Traceback _ => Some traceback_header
  end.

Definition stderr_last (r : Ending) : option string :=
  match r with
  | Traceback (RuntimeError msg) =>
      Some (exn_name (RuntimeError msg) ++ ": " ++ msg)%string
  | _ => None
  end.

Definition exit_status (r : Ending) : Z :=
  match r with
  | Written _ => 0
  | Traceback _ => 1
  end.

(** ** Traces of a funnel session

    The events that one iteration of the purchase-funnel loop appends,
    written as a function of the values it draws. *)

Section Traces.

Context {G R : Type} `{PyRandom G} `{NumpyRandom R}.

Local Abbreviation World := (@World G R).
Local Abbreviation M := (@M G R).

(** [n] successive [randint(a, b)]. *)
Fixpoint draw_list (n : nat) (a b : Z) (g : G) : list Z * G :=
  match n with
  | O => ([], g)
  | S n' =>
      let (x, g1) := py_randint a b g in
      let (xs, g2) := draw_list n' a b g1 in
      (x :: xs, g2)
  end.

(** What a funnel session draws from the [random] module, in order: device,
    source, minutes before the purchase, seconds after [page_view], seconds
    after each [view_product], seconds after [add_to_cart]. *)
Record FunnelDraws : Type := mkDraws {
  fd_device : string;
  fd_source : string;
  fd_minutes : Z;
  fd_first : Z;
  fd_views : list Z;
  fd_cart : Z
}.

Definition funnel_draws (k : nat) (g : G) : FunnelDraws * G :=
  let (device, g1) := py_choice "desktop" device_types g in
  let (source, g2) := py_choice "direct" traffic_sources g1 in
  let (m, g3) := py_randint 5 40 g2 in
  let (s0, g4) := py_randint 5 40 g3 in
  let (incs, g5) := draw_list k 5 40 g4 in
  let (s1, g6) := py_randint 5 40 g5 in
  (mkDraws device source m s0 incs s1, g6).

(** The clock after the increments [incs]. *)
Definition advance (t : Clock.Timestamp) (incs : list Z) : Clock.Timestamp :=
  fold_left (fun t s => Clock.ts_add t (Clock.timedelta 0 0 s)) incs t.

(** The [view_product] events, from identifier number [c] on. *)
Fixpoint view_block (mk : nat -> string -> Clock.Timestamp -> pyval -> pyval -> event)
    (c : nat) (smp : list ItemsJoined.row) (t : Clock.Timestamp)
    (incs : list Z) : list event :=
  match smp, incs with
  | r :: smp', s :: incs' =>
      mk c "view_product" t (ItemsJoined.product_id r) PyNone
      :: view_block mk (S c) smp' (Clock.ts_add t (Clock.timedelta 0 0 s)) incs'
  | _, _ => []
  end.

(** The session of [row] when [uuid4] has been called [c] times before, the
    sampled items are [first :: rest] and the draws are [d]. *)
Definition funnel_block (pool : nat -> string) (c : nat)
    (row : OrdersJoined.row Clock.Timestamp) (d : FunnelDraws)
    (first : ItemsJoined.row) (rest : list ItemsJoined.row) : list event :=
  let mk := fun i etype ts pid oid =>
    event_of (pool i) etype (pool c) ts (OrdersJoined.customer_id row) pid oid
      (OrdersJoined.customer_city row) (OrdersJoined.customer_state row) true
      (fd_source d) (fd_device d) in
  let p := OrdersJoined.order_purchase_timestamp row in
  let k := length (first :: rest) in
  let base := Clock.ts_sub p (Clock.timedelta 0 (fd_minutes d) 0) in
  let t1 := Clock.ts_add base (Clock.timedelta 0 0 (fd_first d)) in
  let t2 := advance t1 (fd_views d) in
  let t3 := Clock.ts_add t2 (Clock.timedelta 0 0 (fd_cart d)) in
  mk (c + 1)%nat "page_view" base PyNone PyNone
  :: view_block mk (c + 2)%nat (first :: rest) t1 (fd_views d)
  ++ [mk (c + 2 + k)%nat "add_to_cart" t2 (ItemsJoined.product_id first) PyNone;
      mk (c + 3 + k)%nat "checkout" t3 PyNone PyNone;
      mk (c + 4 + k)%nat "purchase" p PyNone (OrdersJoined.order_id row)].

(** The events that each iteration of the funnel loop appends, one block
    per row, observed on the run itself. *)
Fixpoint session_blocks (L : Loaded)
    (rows : list (OrdersJoined.row Clock.Timestamp)) (w : World)
  : list (list event) :=
  match rows with
  | [] => []
  | row :: rest =>
      match funnel_session L row w with
      | Ok (_, w') =>
          skipn (length (events w)) (events w') :: session_blocks L rest w'
      | Raise _ => []
      end
  end.

(** What two runs of the funnel phase can be compared on: every column of
    an event except the two random identifiers and the sampled product. *)
Definition skeleton (e : event)
  : string * string * pyval * pyval * string * string * Z * pyval * pyval :=
  (event_type e, event_ts e, customer_id e, order_id e, device_type e,
   traffic_source e, is_authenticated e, customer_city e, customer_state e).

End Traces.

(** ** Vocabulary of the statements *)

(** The clock of each of the events that are followed by the increments
    [incs], starting at [t]. *)
Fixpoint clocks_before (t : Z) (incs : list Z) : list Z :=
  match incs with
  | [] => []
  | s :: incs' => t :: clocks_before (t + s) incs'
  end.

Definition sum (l : list Z) : Z := fold_right Z.add 0 l.

(** Every clock of [ts] is the previous one plus an increment between [lo]
    and [hi]. *)
Fixpoint chain (lo hi : Z) (ts : list Z) : Prop :=
  match ts with
  | a :: (b :: _) as tl => lo <= b - a <= hi /\ chain lo hi tl
  | _ => True
  end.

(** The event types of a browsing session. *)
Definition browsing_types : list string :=
  ["page_view"; "view_product"; "add_to_cart"].

(** The columns that are constant in a session. *)
Definition attrs (e : event) : string * string * Z * pyval * pyval :=
  (device_type e, traffic_source e, is_authenticated e, customer_city e,
   customer_state e).

(** Every event of [new] belongs to the session opened by one of the calls
    number [lo] to [hi - 1] of [uuid4], and the attributes of an event are
    those of its session. *)
Definition tagged (pool : nat -> string) (lo hi : nat) (new : list event)
  : Prop :=
  exists attr_of : nat -> string * string * Z * pyval * pyval,
    Forall
      (fun e =>
         In (device_type e) device_types /\
         In (traffic_source e) traffic_sources /\
         exists c, (lo <= c < hi)%nat /\ session_id e = pool c /\
                   attrs e = attr_of c)
      new.

(** Events with equal timestamps come out in the order in which they were
    generated: what a stable sort would add to a sorted permutation. *)
Definition keeps_ties (generated table : list event) : Prop :=
  forall ts : string,
    filter (fun e => String.eqb (event_ts e) ts) table =
    filter (fun e => String.eqb (event_ts e) ts) generated.

Section Vocabulary.

Context {G R : Type} `{PyRandom G} `{NumpyRandom R}.

Local Abbreviation World := (@World G R).

(** The session that the funnel loop emits for [row]: one session
    identifier; [page_view], one [view_product] per sampled item,
    [add_to_cart] on the first sampled item, [checkout], and [purchase] with
    the identifier of the order. *)
Definition funnel_shape (L : Loaded) (row : OrdersJoined.row Clock.Timestamp)
    (block : list event) : Prop :=
  let oi := items_of L (OrdersJoined.order_id row) in
  let k := Nat.min 3 (length oi) in
  exists (sid : string) (first : ItemsJoined.row) (rest : list ItemsJoined.row),
    length (first :: rest) = k /\
    incl (first :: rest) oi /\
    map event_type block =
      "page_view" :: repeat "view_product" k
        ++ ["add_to_cart"; "checkout"; "purchase"] /\
    map product_id block =
      PyStr "" :: map (fun r => if_not_none (ItemsJoined.product_id r))
                    (first :: rest)
        ++ [if_not_none (ItemsJoined.product_id first); PyStr ""; PyStr ""] /\
    map order_id block =
      repeat (PyStr "") (3 + k) ++ [OrdersJoined.order_id row] /\
    Forall (fun e => session_id e = sid) block.

(** A funnel session, between the years 0001 and 9999, whose [purchase]
    event sorts before its [checkout] event. *)
Definition purchase_before_checkout (L : Loaded)
    (row : OrdersJoined.row Clock.Timestamp) (w : World) : Prop :=
  exists (w' : World) (p : Z) (co pu : event),
    OrdersJoined.order_purchase_timestamp row = Some p /\
    Clock.in_range (p - 2400) /\ Clock.in_range p /\
    funnel_session L row w = Ok (tt, w') /\
    In co (skipn (length (events w)) (events w')) /\
    In pu (skipn (length (events w)) (events w')) /\
    event_type co = "checkout" /\
    event_type pu = "purchase" /\
    String.ltb (event_ts pu) (event_ts co) = true.

(** What one iteration does to the world, in one statement. *)
Definition session_effect (L : Loaded)
    (row : OrdersJoined.row Clock.Timestamp)
    (w : World) (block : list event) (w' : World) : Prop :=
  let oi := items_of L (OrdersJoined.order_id row) in
  let k := Nat.min 3 (length oi) in
  (oi = [] /\ block = [] /\ w' = w) \/
  (oi <> [] /\
   exists first rest r',
     length (first :: rest) = k /\
     incl (first :: rest) oi /\
     block = funnel_block (uuid_pool w) (uuid_count w) row
               (fst (funnel_draws k (py w))) first rest /\
     w' = mkWorld (snd (funnel_draws k (py w))) r' (uuid_pool w)
            (uuid_count w + 5 + k) (events w ++ block)).

(** A step that only advances the [random] module. *)
Definition only_py (w w1 : World) : Prop :=
  np w1 = np w /\ uuid_pool w1 = uuid_pool w /\
  uuid_count w1 = uuid_count w /\ events w1 = events w.

(** What the events of one browsing session have in common. *)
Definition browsing_event (sid : string) (cust city state : pyval)
    (is_auth : bool) (source device : string) (e : event) : Prop :=
  session_id e = sid /\
  In (event_type e) browsing_types /\
  customer_id e = if_not_none cust /\
  device_type e = str_or_empty device /\
  traffic_source e = str_or_empty source /\
  is_authenticated e = (if is_auth then 1 else 0) /\
  customer_city e = or_empty city /\
  customer_state e = or_empty state.

End Vocabulary.
(** ** Vocabulary of the further statements *)

(** Consecutive timestamps: each one is the previous one plus [lo] to [hi]
    seconds ([NaT] stays [NaT]). *)
Fixpoint ts_chain (lo hi : Z) (l : list Clock.Timestamp) : Prop :=
  match l with
  | a :: (b :: _) as tl =>
      (exists s, lo <= s <= hi /\ b = Clock.ts_add a s) /\ ts_chain lo hi tl
  | _ => True
  end.

(** The product and order columns of a browsing event: a [page_view] has no
    product, the other two types have a product of [product_ids], and no
    browsing event has an order. *)
Definition browsing_columns (L : Loaded) (e : event) : Prop :=
  order_id e = PyStr "" /\
  ((event_type e = "page_view" /\ product_id e = PyStr "") \/
   ((event_type e = "view_product" \/ event_type e = "add_to_cart") /\
    exists pid, In pid (product_ids L) /\ product_id e = PyStr pid)).

(** An event that says nothing about a customer. *)
Definition anonymous (e : event) : Prop :=
  customer_id e = PyStr "" /\
  customer_city e = PyStr "" /\
  customer_state e = PyStr "".

(** Who browses, as lines 219-232 decide it: nobody, or a known customer
    with the city and state of the first customer row that has its id. *)
Definition visitor (L : Loaded) (cust city state : pyval) (auth : bool)
  : Prop :=
  ((auth = false \/ customers_list L = []) /\
   cust = PyNone /\ city = PyNone /\ state = PyNone) \/
  (auth = true /\
   exists cid, In cid (customers_list L) /\ cust = PyStr cid /\
     match filter (fun c => cell_eq (Customers.customer_id c) (PyStr cid))
                  (customers_table L) with
     | c :: _ => city = Customers.customer_city c /\
                 state = Customers.customer_state c
     | [] => city = PyNone /\ state = PyNone
     end).

(** What an event of the funnel session of [row] carries: the customer of
    the order, always authenticated; the order id and the purchase time on
    the [purchase] event only; a product of one of the items of the order on
    the [view_product] and [add_to_cart] events only. *)
Definition funnel_event (L : Loaded) (row : OrdersJoined.row Clock.Timestamp)
    (e : event) : Prop :=
  is_authenticated e = 1 /\
  customer_id e = if_not_none (OrdersJoined.customer_id row) /\
  customer_city e = or_empty (OrdersJoined.customer_city row) /\
  customer_state e = or_empty (OrdersJoined.customer_state row) /\
  ((event_type e = "purchase" /\
    order_id e = OrdersJoined.order_id row /\
    product_id e = PyStr "" /\
    event_ts e = Clock.isoformat (OrdersJoined.order_purchase_timestamp row)) \/
   ((event_type e = "page_view" \/ event_type e = "checkout") /\
    order_id e = PyStr "" /\ product_id e = PyStr "") \/
   ((event_type e = "view_product" \/ event_type e = "add_to_cart") /\
    order_id e = PyStr "" /\
    exists r, In r (items_of L (OrdersJoined.order_id row)) /\
              product_id e = if_not_none (ItemsJoined.product_id r))).

(** The identifiers of [new] come from the calls number [lo] to [hi - 1] of
    [uuid4]: each event id from a call of its own, and no event id from a
    call that gave a session id. *)
Definition numbered (pool : nat -> string) (lo hi : nat) (new : list event)
  : Prop :=
  exists ids sids : list nat,
    map event_id new = map pool ids /\
    map session_id new = map pool sids /\
    NoDup ids /\
    Forall (fun i => (lo <= i < hi)%nat) ids /\
    Forall (fun i => (lo <= i < hi)%nat) sids /\
    (forall i, In i ids -> ~ In i sids).

(** Two blocks of events that have no session id in common, and a block
    whose events all have the same one. *)
Definition share_no_session (b1 b2 : list event) : Prop :=
  forall e1 e2, In e1 b1 -> In e2 b2 -> session_id e1 <> session_id e2.

Definition one_session (b : list event) : Prop :=
  forall e1 e2, In e1 b -> In e2 b -> session_id e1 = session_id e2.


(** The rows of the order items table that belong to an order of the
    orders table. *)
Definition items_of_order (T : Tables) (o : Orders.row) : list OrderItems.row :=
  filter (fun it => cell_eq (OrderItems.order_id it) (Orders.order_id o))
         (order_items T).

(** [sel] takes rows of [l], none of them more often than [l] has it. *)
Definition selection {A : Type} (l sel : list A) : Prop :=
  exists rest, Permutation (sel ++ rest) l.

(** The session that the funnel emits for an order of the input: one
    session identifier; [page_view], one [view_product] for each of
    [min 3 n] of the [n] items of the order, [add_to_cart] on the first of
    them, [checkout], and [purchase] with the identifier of the order. *)
Definition order_session (T : Tables) (o : Orders.row) (block : list event)
  : Prop :=
  let items := items_of_order T o in
  let k := Nat.min 3 (length items) in
  exists (sid : string) (first : OrderItems.row) (rest : list OrderItems.row),
    length (first :: rest) = k /\
    incl (first :: rest) items /\
    map event_type block =
      "page_view" :: repeat "view_product" k
        ++ ["add_to_cart"; "checkout"; "purchase"] /\
    map product_id block =
      PyStr "" :: map (fun it => if_not_none (OrderItems.product_id it))
                    (first :: rest)
        ++ [if_not_none (OrderItems.product_id first); PyStr ""; PyStr ""] /\
    map order_id block =
      repeat (PyStr "") (3 + k) ++ [Orders.order_id o] /\
    Forall (fun e => session_id e = sid) block.




(** One of the two merges meets an [object] key column and a [float64] one. *)
Definition keys_clash (T : Tables) : bool :=
  key_dtypes_clash (map OrderItems.product_id (order_items T))
                   (map Products.product_id (products T))
  || key_dtypes_clash (map Orders.customer_id (orders T))
                      (map Customers.customer_id (customers T)).


Section FurtherVocabulary.

Context {G R : Type} `{PyRandom G} `{NumpyRandom R}.

Local Abbreviation World := (@World G R).
Local Abbreviation M := (@M G R).

(** The events that each iteration of the browsing loop appends, one block
    per session, observed on the run itself. *)
Fixpoint browsing_blocks (L : Loaded) (n : nat)
    (src : list (OrdersJoined.row Clock.Timestamp)) (w : World)
  : list (list event) :=
  match n with
  | O => []
  | S n' =>
      match browsing_session L src w with
      | Ok (_, w') =>
          skipn (length (events w)) (events w')
          :: browsing_blocks L n' src w'
      | Raise _ => []
      end
  end.


End FurtherVocabulary.

(** ** Reference implementations of the library interfaces

    Small executable instances, used to run the model on concrete tables. *)

Module Demo.

(** A [random] module that replays a script of raw draws. *)
Definition script_randbelow (n : Z) (g : list Z) : Z * list Z :=
  match g with
  | [] => (0, [])
  | x :: g' => (x mod n, g')
  end.

Definition script_random (g : list Z) : Z * list Z :=
  match g with
  | [] => (0, [])
  | x :: g' => (x mod 2 ^ 53, g')
  end.

(** A numpy generator with two behaviours: the first [n] positions in
    order ([false]) or the last [n] positions, last first ([true]). *)
Definition flag_choice (len n : nat) (r : bool) : list nat * bool :=
  if r then (rev (seq (len - n) n), r) else (seq 0 n, r).

(** Day number of a proleptic Gregorian date. *)
Definition days_from_civil (y m d : Z) : Z :=
  let y := if m <=? 2 then y - 1 else y in
  let era := y / 400 in
  let yoe := y mod 400 in
  let mp := (m + 9) mod 12 in
  let doy := (153 * mp + 2) / 5 + d - 1 in
  let doe := yoe * 365 + yoe / 4 - yoe / 100 + doy in
  era * 146097 + doe - 719468.

Definition digit_val (c : ascii) : Z := Z.of_nat (nat_of_ascii c) - 48.

Fixpoint number (s : string) (acc : Z) : Z :=
  match s with
  | EmptyString => acc
  | String c s' => number s' (10 * acc + digit_val c)
  end.

(** Reads [YYYY-MM-DD HH:MM:SS]; any other text is [NaT]. *)
Definition parse_cell (c : pyval) : Clock.Timestamp :=
  match c with
  | PyStr s =>
      let f := fun i n : nat => number (substring i n s) 0 in
      let t := 86400 * days_from_civil (f 0%nat 4%nat) (f 5%nat 2%nat)
                         (f 8%nat 2%nat)
               + 3600 * f 11%nat 2%nat + 60 * f 14%nat 2%nat + f 17%nat 2%nat in
      if String.eqb (Clock.isoformat_secs t) s then Some t else None
  | _ => None
  end.

(** Insertion sort of positions by key; [before k1 k2] decides whether a
    position goes in front of another one. *)
Fixpoint insert_pos (before : string -> string -> bool) (keys : list string)
    (i : nat) (l : list nat) : list nat :=
  match l with
  | [] => [i]
  | j :: l' =>
      if before (nth i keys EmptyString) (nth j keys EmptyString)
      then i :: j :: l'
      else j :: insert_pos before keys i l'
  end.

Definition insertion_argsort (before : string -> string -> bool)
    (keys : list string) : list nat :=
  fold_right (insert_pos before keys) [] (seq 0 (length keys)).

(** Identifiers [id-0], [id-1], ... *)
Definition counter_pool (n : nat) : string :=
  ("id-" ++ NilEmpty.string_of_uint (Nat.to_uint n))%string.

Lemma script_randbelow_range n g :
  0 < n -> 0 <= fst (script_randbelow n g) < n.
Proof.
  intros Hn. destruct g as [|x g]; simpl.
  - lia.
  - apply Z.mod_pos_bound; exact Hn.
Qed.

Lemma script_random_range g : 0 <= fst (script_random g) < 2 ^ 53.
Proof.
  destruct g as [|x g]; simpl fst.
  - split; [lia | reflexivity].
  - apply Z.mod_pos_bound. reflexivity.
Qed.

Lemma flag_choice_length len n r :
  (n <= len)%nat -> length (fst (flag_choice len n r)) = n.
Proof.
  intros _. unfold flag_choice. destruct r; simpl.
  - now rewrite length_rev, length_seq.
  - apply length_seq.
Qed.

Lemma flag_choice_bound len n r :
  (n <= len)%nat -> Forall (fun i => (i < len)%nat) (fst (flag_choice len n r)).
Proof.
  intros Hn. unfold flag_choice. apply Forall_forall. intros i Hi.
  destruct r; simpl in Hi.
  - apply in_rev, in_seq in Hi. lia.
  - apply in_seq in Hi. lia.
Qed.

Lemma flag_choice_NoDup len n r :
  (n <= len)%nat -> NoDup (fst (flag_choice len n r)).
Proof.
  intros _. unfold flag_choice. destruct r; simpl.
  - apply NoDup_rev, seq_NoDup.
  - apply seq_NoDup.
Qed.

Lemma insert_pos_perm before keys i l :
  Permutation (insert_pos before keys i l) (i :: l).
Proof.
  induction l as [|j l IH]; simpl.
  - apply Permutation_refl.
  - destruct (before _ _).
    + apply Permutation_refl.
    + eapply perm_trans; [apply perm_skip, IH | apply perm_swap].
Qed.

Lemma insertion_argsort_perm before keys :
  Permutation (insertion_argsort before keys) (seq 0 (length keys)).
Proof.
  unfold insertion_argsort.
  induction (seq 0 (length keys)) as [|i l IH]; simpl.
  - apply Permutation_refl.
  - eapply perm_trans; [apply insert_pos_perm | apply perm_skip, IH].
Qed.

Section InsertionSorted.

Variable before : string -> string -> bool.
Hypothesis before_le : forall a b, before a b = true -> str_le a b.
Hypothesis not_before_ge : forall a b, before a b = false -> str_le b a.

Let key (keys : list string) (i : nat) : string := nth i keys EmptyString.

Lemma insert_pos_sorted keys i l :
  Sorted str_le (map (key keys) l) ->
  Sorted str_le (map (key keys) (insert_pos before keys i l)).
Proof.
  induction l as [|j l IH]; simpl; intros Hs.
  - repeat constructor.
  - destruct (before _ _) eqn:E; simpl.
    + constructor; [exact Hs | constructor; apply before_le, E].
    + inversion Hs as [|? ? Hs' Hhd]; subst.
      constructor; [apply IH, Hs' |].
      destruct l as [|k l]; simpl.
      * constructor. apply not_before_ge, E.
      * destruct (before (nth i keys EmptyString) (nth k keys EmptyString));
          simpl; constructor.
        -- apply not_before_ge, E.
        -- inversion Hhd; assumption.
Qed.

Lemma insertion_argsort_sorted keys :
  Sorted str_le
    (map (fun i => nth i keys EmptyString) (insertion_argsort before keys)).
Proof.
  unfold insertion_argsort.
  induction (seq 0 (length keys)) as [|i l IH]; simpl.
  - constructor.
  - apply insert_pos_sorted, IH.
Qed.

End InsertionSorted.

Lemma leb_before_le a b : String.leb a b = true -> str_le a b.
Proof. exact (fun E => E). Qed.

Lemma leb_not_before_ge a b : String.leb a b = false -> str_le b a.
Proof.
  intros E. destruct (String.leb_total a b) as [E' | E']; [congruence | exact E'].
Qed.

(** The [random] module replaying [script] after [random.seed]. *)
Definition script_rng (script : list Z) : PyRandom (list Z) :=
  {| seed := fun _ => script;
     randbelow := script_randbelow;
     random := script_random;
     randbelow_range := script_randbelow_range;
     random_range := script_random_range |}.

(** The two-behaviour numpy generator; a seeded one takes the first rows. *)
Definition flag_numpy : NumpyRandom bool :=
  {| RandomState := fun _ => false;
     choice_no_replace := flag_choice;
     choice_length := flag_choice_length;
     choice_bound := flag_choice_bound;
     choice_NoDup := flag_choice_NoDup |}.

Definition iso_parser : ToDatetime :=
  {| to_datetime := map parse_cell;
     to_datetime_length := fun col => length_map parse_cell col |}.

(** A sort that keeps ties in their original order. *)
Definition stable_argsort : ArgSort :=
  {| argsort := insertion_argsort String.leb;
     argsort_perm := insertion_argsort_perm String.leb;
     argsort_sorted :=
       insertion_argsort_sorted String.leb leb_before_le leb_not_before_ge |}.

(** One delivered order with two items, one cancelled order, one delivered
    order without items, one delivered order whose timestamp does not parse. *)
Definition tables : Tables :=
  {| orders :=
       [Orders.mk (PyStr "o1") (PyStr "c1") (PyStr "delivered")
                  (PyStr "2020-01-01 12:00:00");
        Orders.mk (PyStr "o2") (PyStr "c2") (PyStr "canceled")
                  (PyStr "2020-01-02 08:30:00");
        Orders.mk (PyStr "o3") (PyStr "c2") (PyStr "delivered")
                  (PyStr "2020-01-03 09:00:00");
        Orders.mk (PyStr "o4") (PyStr "c1") (PyStr "delivered")
                  (PyStr "yesterday")];
     order_items :=
       [OrderItems.mk (PyStr "o1") (PyStr "p1");
        OrderItems.mk (PyStr "o1") (PyStr "p2");
        OrderItems.mk (PyStr "o2") (PyStr "p1")];
     products :=
       [Products.mk (PyStr "p1") (PyStr "toys");
        Products.mk (PyStr "p2") PyNaN];
     customers :=
       [Customers.mk (PyStr "c1") (PyStr "u1") (PyStr "sao paulo") (PyStr "SP");
        Customers.mk (PyStr "c2") (PyStr "u2") (PyStr "rio de janeiro")
                     (PyStr "RJ")] |}.

(** The same tables with no delivered order left. *)
Definition tables_none : Tables :=
  {| orders :=
       [Orders.mk (PyStr "o2") (PyStr "c2") (PyStr "canceled")
                  (PyStr "2020-01-02 08:30:00");
        Orders.mk (PyStr "o4") (PyStr "c1") (PyStr "delivered")
                  (PyStr "yesterday")];
     order_items := order_items tables;
     products := products tables;
     customers := customers tables |}.

(** The tables [tables_none] when no customer row has a customer id: the
    key column of the customers is entirely missing, the one of the orders
    is not. *)
Definition tables_none_without_customer_id : Tables :=
  {| orders := orders tables_none;
     order_items := order_items tables_none;
     products := products tables_none;
     customers :=
       [Customers.mk PyNaN (PyStr "u1") (PyStr "sao paulo") (PyStr "SP")] |}.

(** The draws of the [random] module that the runs below replay. *)
Definition script : list Z :=
  [0; 1; 5; 10; 20; 30; 40; 3; 7; 1; 0; 1; 0; 3; 0; 5; 2 ^ 52; 1; 9;
   2 ^ 53 - 1; 0; 11; 2; 2; 7; 100; 4; 2 ^ 51; 1; 3; 12; 8; 2 ^ 50; 6].

Definition rng : PyRandom (list Z) := script_rng script.

Definition run (sorter : ArgSort) (max num : nat) (T : Tables) (np0 : bool)
  : Result (list event) :=
  @pipeline (list Z) bool rng flag_numpy iso_parser sorter max num T np0
    counter_pool.

(** The tables above, loaded. *)
Definition loaded : Loaded :=
  match @load bool flag_numpy iso_parser 10 tables with
  | Ok L => L
  | Raise _ => mkLoaded [] [] [] [] [] []
  end.

(** The world in which generation starts. *)
Definition world0 (np0 : bool) : @World (list Z) bool :=
  @mkWorld (list Z) bool (@seed (list Z) rng 42) np0 counter_pool 0 [].

(** The delivered order [o1], with two items, and the delivered order [o3],
    with none. *)
Definition row_o1 : OrdersJoined.row Clock.Timestamp :=
  OrdersJoined.mk (PyStr "o1") (PyStr "c1") (PyStr "delivered")
    (Some 1577880000) (PyStr "u1") (PyStr "sao paulo") (PyStr "SP").

Definition row_o3 : OrdersJoined.row Clock.Timestamp :=
  OrdersJoined.mk (PyStr "o3") (PyStr "c2") (PyStr "delivered")
    (Some 1578042000) (PyStr "u2") (PyStr "rio de janeiro") (PyStr "RJ").

(** The world after two browsing sessions. *)
Definition after_browsing : @World (list Z) bool :=
  match @browsing_loop (list Z) bool rng flag_numpy loaded 2
          (base_orders_source loaded) (world0 false) with
  | Ok (_, w) => w
  | Raise _ => world0 false
  end.

(** The table that a run with one browsing session writes. *)
Definition table : list event :=
  match run stable_argsort 10 1 tables false with
  | Ok t => t
  | Raise _ => []
  end.

(** Four delivered orders bought in the same second, one item each. *)
Definition tables_ties : Tables :=
  {| orders :=
       [Orders.mk (PyStr "o1") (PyStr "c1") (PyStr "delivered")
                  (PyStr "2020-01-01 12:00:00");
        Orders.mk (PyStr "o2") (PyStr "c2") (PyStr "delivered")
                  (PyStr "2020-01-01 12:00:00");
        Orders.mk (PyStr "o3") (PyStr "c1") (PyStr "delivered")
                  (PyStr "2020-01-01 12:00:00");
        Orders.mk (PyStr "o4") (PyStr "c2") (PyStr "delivered")
                  (PyStr "2020-01-01 12:00:00")];
     order_items :=
       [OrderItems.mk (PyStr "o1") (PyStr "p1");
        OrderItems.mk (PyStr "o2") (PyStr "p2");
        OrderItems.mk (PyStr "o3") (PyStr "p1");
        OrderItems.mk (PyStr "o4") (PyStr "p2")];
     products := products tables;
     customers := customers tables |}.

(** What the [random] module draws in the funnel loop of a run on
    [tables_ties]: the first twenty-four results of [_randbelow] after
    [random.seed(42)], for the bounds 3, 5, 36, 36, 36 and 36 of the six
    draws of each of the four sessions. *)
Definition seed_42_draws : list Z :=
  [2; 0; 1; 17; 15; 14;
   0; 0; 34; 5; 27; 2;
   0; 0; 13; 14; 32; 1;
   2; 1; 34; 26; 14; 28].

Definition seed_42_rng : PyRandom (list Z) := script_rng seed_42_draws.

(** The events that the two generators append for [tables_ties], with no
    browsing session, in generation order. *)
Definition ties_events : list event :=
  match @load bool flag_numpy iso_parser 10 tables_ties with
  | Ok L =>
      match @generate (list Z) bool seed_42_rng flag_numpy 0 L
              (@mkWorld (list Z) bool (@seed (list Z) seed_42_rng 42) false
                 counter_pool 0 []) with
      | Ok (_, w) => events w
      | Raise _ => []
      end
  | Raise _ => []
  end.




(** One delivered order with one item, when the product id of the item is
    the id of three product rows and the customer id of the order the id of
    two customer rows. *)
Definition tables_dup : Tables :=
  {| orders :=
       [Orders.mk (PyStr "o1") (PyStr "c1") (PyStr "delivered")
                  (PyStr "2020-01-01 12:00:00")];
     order_items := [OrderItems.mk (PyStr "o1") (PyStr "p1")];
     products :=
       [Products.mk (PyStr "p1") (PyStr "toys");
        Products.mk (PyStr "p1") (PyStr "games");
        Products.mk (PyStr "p1") PyNaN];
     customers :=
       [Customers.mk (PyStr "c1") (PyStr "u1") (PyStr "sao paulo") (PyStr "SP");
        Customers.mk (PyStr "c1") (PyStr "u2") (PyStr "rio de janeiro")
                     (PyStr "RJ")] |}.

(** The tables above, loaded, and the world after the funnel loop. *)
Definition loaded_dup : Loaded :=
  match @load bool flag_numpy iso_parser 10 tables_dup with
  | Ok L => L
  | Raise _ => mkLoaded [] [] [] [] [] []
  end.

Definition after_funnel_dup : @World (list Z) bool :=
  match @funnel_loop (list Z) bool rng flag_numpy loaded_dup
          (delivered_orders loaded_dup) (world0 false) with
  | Ok (_, w) => w
  | Raise _ => world0 false
  end.

End Demo.

(** * Properties *)

(** ** The rendering of timestamps preserves their order *)

Module ClockFacts.

Import Clock.

Ltac cases_min :=
  repeat match goal with
  | |- context [Z.min ?a ?b] =>
      let E := fresh in
      destruct (Z.min_spec a b) as [[? E]|[? E]]; rewrite E in *; clear E
  end.

Ltac cases_if :=
  repeat match goal with
  | |- context [if ?a <? ?b then _ else _] => destruct (Z.ltb_spec a b)
  | |- context [if ?a <=? ?b then _ else _] => destruct (Z.leb_spec a b)
  end.

Ltac euclid := Z.to_euclidean_division_equations; lia.

Lemma year_of_era_bounds doe :
  0 <= doe < 146097 ->
  0 <= fst (year_of_era doe) <= 399 /\ 0 <= snd (year_of_era doe) <= 365.
Proof.
  intros Hd. cbv beta delta [year_of_era fst snd] iota zeta.
  cases_min; euclid.
Qed.

Lemma year_of_era_mono d1 d2 :
  0 <= d1 -> d1 < d2 -> d2 < 146097 ->
  fst (year_of_era d1) < fst (year_of_era d2) \/
  (fst (year_of_era d1) = fst (year_of_era d2) /\
   snd (year_of_era d1) < snd (year_of_era d2)).
Proof.
  intros H0 H1 H2. cbv beta delta [year_of_era fst snd] iota zeta.
  cases_min; euclid.
Qed.

Lemma month_day_bounds doy :
  0 <= doy <= 365 ->
  1 <= fst (month_day doy) <= 12 /\ 1 <= snd (month_day doy) <= 31.
Proof.
  intros Hd. cbv beta delta [month_day fst snd] iota zeta.
  cases_if; euclid.
Qed.

Lemma rank_bounds doy : 0 <= doy <= 365 -> 301 <= rank doy <= 10229.
Proof.
  intros Hd. cbv beta delta [rank month_day] iota zeta.
  cases_if; euclid.
Qed.

Lemma rank_mono a b : 0 <= a -> a < b -> b <= 365 -> rank a < rank b.
Proof.
  intros H0 H1 H2. cbv beta delta [rank month_day] iota zeta.
  cases_if; euclid.
Qed.

Lemma date_key_eq z :
  date_key z =
  10000 * (400 * ((z + 719468) / 146097)
           + fst (year_of_era ((z + 719468) mod 146097)))
  + rank (snd (year_of_era ((z + 719468) mod 146097))).
Proof.
  unfold date_key, civil_from_days, rank.
  destruct (year_of_era ((z + 719468) mod 146097)) as [yoe doy].
  cbn [fst snd]. destruct (month_day doy) as [m d].
  destruct (m <=? 2); lia.
Qed.

Lemma date_key_mono z1 z2 : z1 < z2 -> date_key z1 < date_key z2.
Proof.
  intros Hlt. rewrite !date_key_eq.
  set (a1 := z1 + 719468). set (a2 := z2 + 719468).
  assert (Ha : a1 < a2) by (unfold a1, a2; lia).
  pose proof (Z.mod_pos_bound a1 146097 eq_refl) as Hb1.
  pose proof (Z.mod_pos_bound a2 146097 eq_refl) as Hb2.
  pose proof (year_of_era_bounds _ Hb1) as [Hy1 Hd1].
  pose proof (year_of_era_bounds _ Hb2) as [Hy2 Hd2].
  pose proof (rank_bounds _ Hd1) as Hr1.
  pose proof (rank_bounds _ Hd2) as Hr2.
  assert (Hera : a1 / 146097 < a2 / 146097 \/
                 (a1 / 146097 = a2 / 146097 /\ a1 mod 146097 < a2 mod 146097))
    by euclid.
  destruct Hera as [He | [He Hm]].
  - lia.
  - rewrite He.
    destruct (year_of_era_mono (a1 mod 146097) (a2 mod 146097))
      as [Hy | [Hy Hd]]; try lia.
    rewrite Hy.
    pose proof (rank_mono _ _ (proj1 Hd1) Hd (proj2 Hd2)). lia.
Qed.

Lemma date_key_mono_le z1 z2 : z1 <= z2 -> date_key z1 <= date_key z2.
Proof.
  intros Hle. destruct (Z.eq_dec z1 z2) as [-> | Hne]; [lia|].
  pose proof (date_key_mono z1 z2). lia.
Qed.

Lemma isoformat_secs_render t : isoformat_secs t = render (fields t).
Proof.
  unfold isoformat_secs, render, fields.
  now destruct (civil_from_days (t / 86400)) as [[y m] d].
Qed.

Lemma ts_key_fields t : ts_key t = fields_key (fields t).
Proof.
  unfold ts_key, fields_key, fields, date_key.
  now destruct (civil_from_days (t / 86400)) as [[y m] d].
Qed.

Lemma civil_month_day z :
  let '(y, m, d) := civil_from_days z in 1 <= m <= 12 /\ 1 <= d <= 31.
Proof.
  unfold civil_from_days.
  pose proof (Z.mod_pos_bound (z + 719468) 146097 eq_refl) as Hb.
  pose proof (year_of_era_bounds _ Hb) as [_ Hd].
  destruct (year_of_era ((z + 719468) mod 146097)) as [yoe doy].
  cbn [snd] in Hd. pose proof (month_day_bounds doy Hd) as Hmd.
  destruct (month_day doy) as [m d]. exact Hmd.
Qed.

Lemma fields_in_range t : in_range t -> fields_ok (fields t).
Proof.
  unfold in_range, ts_first, ts_last. intros Ht.
  assert (Hlo : date_key (-719162) <= date_key (t / 86400))
    by (apply date_key_mono_le; euclid).
  assert (Hhi : date_key (t / 86400) <= date_key 2932896)
    by (apply date_key_mono_le; euclid).
  change (date_key (-719162)) with 10101 in Hlo.
  change (date_key 2932896) with 99991231 in Hhi.
  unfold fields, fields_ok. unfold date_key in Hlo, Hhi.
  pose proof (civil_month_day (t / 86400)) as Hmd.
  destruct (civil_from_days (t / 86400)) as [[y m] d].
  repeat split; try lia; euclid.
Qed.

Lemma ts_key_mono t1 t2 : t1 < t2 -> ts_key t1 < ts_key t2.
Proof.
  intros Hlt. unfold ts_key.
  assert (Hd : t1 / 86400 < t2 / 86400 \/
               (t1 / 86400 = t2 / 86400 /\ t1 mod 86400 < t2 mod 86400))
    by euclid.
  pose proof (Z.mod_pos_bound t1 86400 eq_refl) as Hb1.
  pose proof (Z.mod_pos_bound t2 86400 eq_refl) as Hb2.
  set (s1 := t1 mod 86400) in *. set (s2 := t2 mod 86400) in *.
  destruct Hd as [Hd | [Hd Hs]].
  - pose proof (date_key_mono _ _ Hd). euclid.
  - rewrite Hd. euclid.
Qed.

Lemma digit_compare a b :
  0 <= a <= 9 -> 0 <= b <= 9 -> Ascii.compare (digit a) (digit b) = (a ?= b).
Proof.
  intros Ha Hb.
  assert (Ea : a = 0 \/ a = 1 \/ a = 2 \/ a = 3 \/ a = 4 \/ a = 5 \/ a = 6 \/
               a = 7 \/ a = 8 \/ a = 9) by lia.
  assert (Eb : b = 0 \/ b = 1 \/ b = 2 \/ b = 3 \/ b = 4 \/ b = 5 \/ b = 6 \/
               b = 7 \/ b = 8 \/ b = 9) by lia.
  repeat (destruct Ea as [-> | Ea]); try subst a;
    repeat (destruct Eb as [-> | Eb]); try subst b; reflexivity.
Qed.

Lemma lex_step (c : comparison) (a b r1 r2 base : Z) :
  0 <= r1 < base -> 0 <= r2 < base ->
  match a ?= b with Eq => r1 ?= r2 | Lt => Lt | Gt => Gt end =
  (base * a + r1 ?= base * b + r2).
Proof.
  intros H1 H2. symmetry.
  destruct (Z.compare_spec a b) as [-> | Hlt | Hgt].
  - apply Z.add_compare_mono_l.
  - apply Z.compare_lt_iff. nia.
  - apply Z.compare_gt_iff. nia.
Qed.

Lemma pad2_compare a b :
  0 <= a <= 99 -> 0 <= b <= 99 ->
  String.compare (pad2 a) (pad2 b) = (a ?= b).
Proof.
  intros Ha Hb. unfold pad2. cbn [String.compare].
  rewrite !digit_compare by euclid.
  replace (match a mod 10 ?= b mod 10 with Eq => Eq | Lt => Lt | Gt => Gt end)
    with (a mod 10 ?= b mod 10) by now destruct (a mod 10 ?= b mod 10).
  rewrite (lex_step Eq (a / 10) (b / 10) (a mod 10) (b mod 10) 10) by euclid.
  f_equal; euclid.
Qed.

Lemma pad4_compare a b :
  0 <= a <= 9999 -> 0 <= b <= 9999 ->
  String.compare (pad4 a) (pad4 b) = (a ?= b).
Proof.
  intros Ha Hb. unfold pad4.
  change (String.compare (String ?x (String ?y ?s)) (String ?x' (String ?y' ?s')))
    with (match Ascii.compare x x' with
          | Eq => match Ascii.compare y y' with
                  | Eq => String.compare s s'
                  | Lt => Lt
                  | Gt => Gt
                  end
          | Lt => Lt
          | Gt => Gt
          end).
  rewrite !digit_compare by euclid.
  rewrite pad2_compare by euclid.
  rewrite (lex_step Eq (a / 100 mod 10) (b / 100 mod 10) (a mod 100) (b mod 100)
             100) by euclid.
  rewrite (lex_step Eq (a / 1000) (b / 1000) _ _ 1000) by euclid.
  f_equal; euclid.
Qed.

Lemma compare_app (a1 a2 b1 b2 : string) :
  String.length a1 = String.length a2 ->
  String.compare (a1 ++ b1) (a2 ++ b2) =
  match String.compare a1 a2 with
  | Eq => String.compare b1 b2
  | Lt => Lt
  | Gt => Gt
  end.
Proof.
  revert a2. induction a1 as [|x a1 IH]; intros [|y a2] Hlen;
    try discriminate; cbn [String.append String.compare].
  - now destruct (String.compare b1 b2).
  - destruct (Ascii.compare x y); try reflexivity.
    apply IH. now injection Hlen.
Qed.

Lemma compare_refl s : String.compare s s = Eq.
Proof.
  induction s as [|x s IH]; cbn [String.compare]; [reflexivity|].
  unfold Ascii.compare. now rewrite N.compare_refl.
Qed.

Lemma pad2_length a : String.length (pad2 a) = 2%nat.
Proof. reflexivity. Qed.

Lemma pad4_length a : String.length (pad4 a) = 4%nat.
Proof. reflexivity. Qed.

Lemma render_compare f1 f2 :
  fields_ok f1 -> fields_ok f2 ->
  String.compare (render f1) (render f2) = (fields_key f1 ?= fields_key f2).
Proof.
  destruct f1 as [[[[[y1 m1] d1] hh1] mm1] ss1].
  destruct f2 as [[[[[y2 m2] d2] hh2] mm2] ss2].
  unfold fields_ok, render, fields_key.
  intros (Hy1 & Hm1 & Hd1 & Hh1 & Hn1 & Hs1) (Hy2 & Hm2 & Hd2 & Hh2 & Hn2 & Hs2).
  repeat (rewrite compare_app by reflexivity).
  rewrite !compare_refl.
  rewrite pad4_compare, !pad2_compare by lia.
  replace (String.compare (pad2 ss1 ++ "") (pad2 ss2 ++ ""))
    with (ss1 ?= ss2) by (symmetry; apply pad2_compare; lia).
  symmetry.
  destruct (Z.compare_spec y1 y2) as [-> | ? | ?];
    [| apply Z.compare_lt_iff; lia | apply Z.compare_gt_iff; lia].
  destruct (Z.compare_spec m1 m2) as [-> | ? | ?];
    [| apply Z.compare_lt_iff; lia | apply Z.compare_gt_iff; lia].
  destruct (Z.compare_spec d1 d2) as [-> | ? | ?];
    [| apply Z.compare_lt_iff; lia | apply Z.compare_gt_iff; lia].
  destruct (Z.compare_spec hh1 hh2) as [-> | ? | ?];
    [| apply Z.compare_lt_iff; lia | apply Z.compare_gt_iff; lia].
  destruct (Z.compare_spec mm1 mm2) as [-> | ? | ?];
    [| apply Z.compare_lt_iff; lia | apply Z.compare_gt_iff; lia].
  destruct (Z.compare_spec ss1 ss2) as [-> | ? | ?];
    [| apply Z.compare_lt_iff; lia | apply Z.compare_gt_iff; lia].
  apply Z.compare_refl.
Qed.

(** Between the years 0001 and 9999, comparing two rendered timestamps as
    strings is comparing the timestamps. *)
Lemma isoformat_compare t1 t2 :
  in_range t1 -> in_range t2 ->
  String.compare (isoformat_secs t1) (isoformat_secs t2) = (t1 ?= t2).
Proof.
  intros H1 H2. rewrite !isoformat_secs_render.
  rewrite render_compare by now apply fields_in_range.
  rewrite <- !ts_key_fields.
  destruct (Z.compare_spec t1 t2) as [-> | Hlt | Hgt].
  - apply Z.compare_refl.
  - apply Z.compare_lt_iff, ts_key_mono, Hlt.
  - apply Z.compare_gt_iff, ts_key_mono, Hgt.
Qed.

Lemma isoformat_le t1 t2 :
  in_range t1 -> in_range t2 ->
  (str_le (isoformat_secs t1) (isoformat_secs t2) <-> t1 <= t2).
Proof.
  intros H1 H2. unfold str_le, String.leb.
  rewrite isoformat_compare by assumption.
  destruct (Z.compare_spec t1 t2); split; intros; try lia; congruence.
Qed.

Lemma isoformat_lt t1 t2 :
  in_range t1 -> in_range t2 ->
  (String.ltb (isoformat_secs t1) (isoformat_secs t2) = true <-> t1 < t2).
Proof.
  intros H1 H2. unfold String.ltb.
  rewrite isoformat_compare by assumption.
  destruct (Z.compare_spec t1 t2); split; intros; try lia; congruence.
Qed.

End ClockFacts.
(** ** Running the monad *)

Section Running.

Context {G R : Type} `{PyRandom G} `{NumpyRandom R}.

Local Abbreviation World := (@World G R).
Local Abbreviation M := (@M G R).

Lemma bind_ok {A B : Type} (m : M A) (k : A -> M B) (w w1 : World) (a : A) :
  m w = Ok (a, w1) -> bind m k w = k a w1.
Proof. intros E. unfold bind. now rewrite E. Qed.

Lemma bind_raise {A B : Type} (m : M A) (k : A -> M B) (w : World) (e : exn) :
  m w = Raise e -> bind m k w = Raise e.
Proof. intros E. unfold bind. now rewrite E. Qed.

Lemma bind_inv {A B : Type} (m : M A) (k : A -> M B) (w w' : World) (b : B) :
  bind m k w = Ok (b, w') ->
  exists a w1, m w = Ok (a, w1) /\ k a w1 = Ok (b, w').
Proof.
  unfold bind. destruct (m w) as [[a w1]|e]; [|discriminate].
  intros E. now exists a, w1.
Qed.

Lemma lift_py_run {A : Type} (f : G -> A * G) (w : World) :
  lift_py f w =
  Ok (fst (f (py w)),
      mkWorld (snd (f (py w))) (np w) (uuid_pool w) (uuid_count w) (events w)).
Proof. unfold lift_py. now destruct (f (py w)). Qed.

Lemma randint_run (a b : Z) (w : World) :
  a <= b ->
  randint a b w =
  Ok (fst (py_randint a b (py w)),
      mkWorld (snd (py_randint a b (py w))) (np w) (uuid_pool w) (uuid_count w)
        (events w)).
Proof.
  intros Hab. unfold randint.
  destruct (b <? a) eqn:E; [apply Z.ltb_lt in E; lia | apply lift_py_run].
Qed.

Lemma py_randint_range (a b : Z) (g : G) :
  a <= b -> a <= fst (py_randint a b g) <= b.
Proof.
  intros Hab. unfold py_randint.
  pose proof (randbelow_range (b - a + 1) g) as Hr.
  destruct (randbelow (b - a + 1) g) as [k g']. simpl in *. lia.
Qed.

Lemma py_choice_In {A : Type} (d : A) (seq : list A) (g : G) :
  seq <> [] -> In (fst (py_choice d seq g)) seq.
Proof.
  intros Hne. unfold py_choice.
  pose proof (randbelow_range (Z.of_nat (length seq)) g) as Hr.
  destruct (randbelow (Z.of_nat (length seq)) g) as [k g']. simpl in *.
  apply nth_In. destruct seq; [congruence | simpl length in *; lia].
Qed.

Lemma make_event_run etype sid ts cust pid oid city state auth src dev (w : World) :
  make_event etype sid ts cust pid oid city state auth src dev w =
  Ok (event_of (uuid_pool w (uuid_count w)) etype sid ts cust pid oid city
        state auth src dev,
      mkWorld (py w) (np w) (uuid_pool w) (S (uuid_count w)) (events w)).
Proof. reflexivity. Qed.

Lemma take_rows_spec {A : Type} (rows : list A) (idx : list nat) :
  Forall (fun i => (i < length rows)%nat) idx ->
  exists rs, take_rows rows idx = Ok rs /\ length rs = length idx /\
             incl rs rows.
Proof.
  induction 1 as [|i idx Hi _ IH].
  - exists []. repeat split. intros x [].
  - destruct IH as (rs & E & Hlen & Hincl).
    destruct (nth_error rows i) as [r|] eqn:En.
    + exists (r :: rs). simpl. rewrite En, E. repeat split.
      * simpl. now rewrite Hlen.
      * intros x [<- | Hx]; [eapply nth_error_In, En | now apply Hincl].
    + apply nth_error_None in En. lia.
Qed.

Lemma sample_with_spec {A : Type} (n : nat) (rows : list A) (r : R) :
  (n <= length rows)%nat ->
  exists rs r', sample_with n rows r = Ok (rs, r') /\ length rs = n /\
                incl rs rows.
Proof.
  intros Hn. unfold sample_with.
  destruct (Nat.ltb_spec (length rows) n) as [Hlt|_]; [lia|].
  pose proof (choice_length (length rows) n r Hn) as Hlen.
  pose proof (choice_bound (length rows) n r Hn) as Hb.
  destruct (choice_no_replace (length rows) n r) as [idx r']. simpl in *.
  destruct (take_rows_spec rows idx Hb) as (rs & E & Hl & Hincl).
  exists rs, r'. rewrite E. repeat split; [congruence | exact Hincl].
Qed.

End Running.

(** ** The funnel session as a function of its draws *)

Section FunnelTrace.

Context {G R : Type} `{PyRandom G} `{NumpyRandom R}.

Local Abbreviation World := (@World G R).
Local Abbreviation M := (@M G R).

Variable L : Loaded.

Ltac step tac :=
  erewrite bind_ok by tac; cbn [py np uuid_pool uuid_count events].

Lemma draw_list_length n a b (g : G) : length (fst (draw_list n a b g)) = n.
Proof.
  revert g. induction n as [|n IH]; intros g; simpl; [reflexivity|].
  destruct (py_randint a b g) as [x g1]. specialize (IH g1).
  destruct (draw_list n a b g1) as [xs g2]. simpl in *. now rewrite IH.
Qed.

Lemma draw_list_range n a b (g : G) :
  a <= b -> Forall (fun x => a <= x <= b) (fst (draw_list n a b g)).
Proof.
  intros Hab. revert g. induction n as [|n IH]; intros g; simpl.
  - constructor.
  - pose proof (py_randint_range a b g Hab) as Hx.
    destruct (py_randint a b g) as [x g1]. specialize (IH g1).
    destruct (draw_list n a b g1) as [xs g2]. simpl in *. now constructor.
Qed.

Lemma view_products_run sid cust city state src dev smp t (w : World) :
  view_products sid cust city state src dev smp t w =
  Ok (advance t (fst (draw_list (length smp) 5 40 (py w))),
      mkWorld (snd (draw_list (length smp) 5 40 (py w))) (np w) (uuid_pool w)
        (uuid_count w + length smp)
        (events w ++
         view_block
           (fun i etype ts pid oid =>
              event_of (uuid_pool w i) etype sid ts cust pid oid city state
                true src dev)
           (uuid_count w) smp t (fst (draw_list (length smp) 5 40 (py w))))).
Proof.
  revert t w. induction smp as [|r smp IH]; intros t w.
  - simpl. unfold ret. rewrite app_nil_r, Nat.add_0_r. now destruct w.
  - cbn [view_products].
    erewrite bind_ok by apply make_event_run.
    erewrite bind_ok by reflexivity.
    erewrite bind_ok by (apply randint_run; lia).
    rewrite IH. cbn [py np uuid_pool uuid_count events length draw_list].
    destruct (py_randint 5 40 (py w)) as [x g1]. cbn [fst snd].
    destruct (draw_list (length smp) 5 40 g1) as [xs g2]. cbn [fst snd].
    cbn [view_block advance fold_left].
    rewrite <- app_assoc. cbn [app].
    now rewrite Nat.add_succ_r.
Qed.

Lemma funnel_session_skip row (w : World) :
  items_of L (OrdersJoined.order_id row) = [] ->
  funnel_session L row w = Ok (tt, w).
Proof. intros E. unfold funnel_session. now rewrite E. Qed.

Lemma funnel_session_run row (w : World) :
  let oi := items_of L (OrdersJoined.order_id row) in
  let k := Nat.min 3 (length oi) in
  oi <> [] ->
  exists first rest r',
    sample_with k oi (np w) = Ok (first :: rest, r') /\
    length (first :: rest) = k /\
    incl (first :: rest) oi /\
    funnel_session L row w =
    Ok (tt,
        mkWorld (snd (funnel_draws k (py w))) r' (uuid_pool w)
          (uuid_count w + 5 + k)
          (events w ++
           funnel_block (uuid_pool w) (uuid_count w) row
             (fst (funnel_draws k (py w))) first rest)).
Proof.
  intros oi k Hne.
  assert (Ek : k = Nat.min 3 (length oi)) by reflexivity.
  assert (Eoi : items_of L (OrdersJoined.order_id row) = oi) by reflexivity.
  clearbody k oi.
  assert (Hk : (k <= length oi)%nat) by lia.
  destruct (sample_with_spec k oi (np w) Hk) as (smp & r' & Es & Hlen & Hincl).
  assert (Hk1 : (1 <= k)%nat).
  { subst k. destruct oi; [congruence | simpl length; lia]. }
  destruct smp as [|first rest]; [simpl in Hlen; lia|].
  exists first, rest, r'. repeat split; try assumption.
  unfold funnel_session. cbv zeta. rewrite Eoi, <- Ek.
  destruct oi as [|i0 oi']; [congruence|].
  step reflexivity.
  step ltac:(unfold choice, device_types; apply lift_py_run).
  step ltac:(unfold choice, traffic_sources; apply lift_py_run).
  step ltac:(unfold sample; cbn [np]; rewrite Es; reflexivity).
  step ltac:(apply randint_run; lia).
  step ltac:(apply make_event_run).
  step reflexivity.
  step ltac:(apply randint_run; lia).
  step ltac:(apply view_products_run).
  step reflexivity.
  step ltac:(apply make_event_run).
  step reflexivity.
  step ltac:(apply randint_run; lia).
  step ltac:(apply make_event_run).
  step reflexivity.
  step ltac:(apply make_event_run).
  unfold append_event. cbn [py np uuid_pool uuid_count events].
  unfold funnel_draws.
  fold device_types traffic_sources.
  destruct (py_choice "desktop" device_types (py w)) as [device g1].
  cbn [fst snd].
  destruct (py_choice "direct" traffic_sources g1) as [source g2].
  cbn [fst snd].
  destruct (py_randint 5 40 g2) as [m g3]. cbn [fst snd].
  destruct (py_randint 5 40 g3) as [s0 g4]. cbn [fst snd].
  rewrite Hlen.
  destruct (draw_list k 5 40 g4) as [incs g5].
  cbn [fst snd].
  destruct (py_randint 5 40 g5) as [s1 g6]. cbn [fst snd].
  unfold funnel_block.
  cbn [fd_device fd_source fd_minutes fd_first fd_views fd_cart].
  repeat rewrite <- app_assoc. cbn [app].
  rewrite Hlen.
  replace (S (S (S (S (S (uuid_count w)) + k)))) with (uuid_count w + 5 + k)%nat
    by lia.
  replace (S (S (S (S (uuid_count w)) + k))) with (uuid_count w + 4 + k)%nat
    by lia.
  replace (S (S (S (uuid_count w)) + k)) with (uuid_count w + 3 + k)%nat by lia.
  replace (S (S (uuid_count w)) + k)%nat with (uuid_count w + 2 + k)%nat by lia.
  replace (S (S (uuid_count w))) with (uuid_count w + 2)%nat by lia.
  replace (S (uuid_count w)) with (uuid_count w + 1)%nat by lia.
  reflexivity.
Qed.

End FunnelTrace.

(** ** Facts about the blocks of a funnel session *)

Section Blocks.

Variable mk : nat -> string -> Clock.Timestamp -> pyval -> pyval -> event.


Lemma view_block_Forall (P : event -> Prop) c smp t incs :
  (forall i t pid, P (mk i "view_product" t pid PyNone)) ->
  Forall P (view_block mk c smp t incs).
Proof.
  intros HP. revert c t incs.
  induction smp as [|r smp IH]; intros c t [|s incs]; simpl; auto.
Qed.

Lemma view_block_map {B : Type} (f : event -> B) (g : pyval -> B) c smp t incs :
  (forall i t pid, f (mk i "view_product" t pid PyNone) = g pid) ->
  length smp = length incs ->
  map f (view_block mk c smp t incs) =
  map (fun r => g (ItemsJoined.product_id r)) smp.
Proof.
  intros Hf. revert c t incs.
  induction smp as [|r smp IH]; intros c t [|s incs] Hl; try discriminate;
    simpl; [reflexivity|].
  rewrite Hf. f_equal. apply IH. now injection Hl.
Qed.

Lemma view_block_ts c smp t incs :
  (forall i ty t pid oid, event_ts (mk i ty t pid oid) = Clock.isoformat t) ->
  length smp = length incs ->
  map event_ts (view_block mk c smp (Some t) incs) =
  map Clock.isoformat_secs (clocks_before t incs).
Proof.
  intros Hts. revert c t incs.
  induction smp as [|r smp IH]; intros c t [|s incs] Hl; try discriminate;
    simpl; [reflexivity|].
  rewrite Hts. simpl. f_equal.
  unfold Clock.timedelta. replace (86400 * 0 + 60 * 0 + s) with s by lia.
  apply IH. now injection Hl.
Qed.

End Blocks.

Lemma advance_some t incs : advance (Some t) incs = Some (t + sum incs).
Proof.
  unfold advance. revert t. induction incs as [|s incs IH]; intros t; simpl.
  - f_equal. lia.
  - unfold Clock.timedelta. rewrite IH. f_equal. unfold sum. simpl. lia.
Qed.

Lemma chain_clocks lo hi incs a s s1 :
  lo <= s <= hi -> Forall (fun x => lo <= x <= hi) incs -> lo <= s1 <= hi ->
  chain lo hi
    (a :: clocks_before (a + s) incs
       ++ [a + s + sum incs; a + s + sum incs + s1]).
Proof.
  intros Hs Hincs Hs1. revert a s Hs.
  induction Hincs as [|i incs Hi _ IH]; intros a s Hs.
  - simpl. unfold sum. simpl. repeat split; lia.
  - cbn [clocks_before app chain]. split; [lia|].
    specialize (IH (a + s) i Hi).
    replace (a + s + sum (i :: incs)) with (a + s + i + sum incs)
      by (unfold sum; simpl; lia).
    exact IH.
Qed.

Lemma chain_sorted lo hi ts : 0 <= lo -> chain lo hi ts -> Sorted Z.le ts.
Proof.
  intros Hlo. induction ts as [|a [|b ts] IH]; intros Hc.
  - constructor.
  - repeat constructor.
  - destruct Hc as [Hab Hc]. constructor; [apply IH, Hc|].
    constructor. lia.
Qed.

Lemma sum_bounds lo hi l :
  Forall (fun x => lo <= x <= hi) l ->
  lo * Z.of_nat (length l) <= sum l <= hi * Z.of_nat (length l).
Proof.
  induction 1 as [|x l Hx _ IH]; unfold sum in *; simpl fold_right;
    simpl length; lia.
Qed.

Lemma clocks_before_bounds lo t incs x :
  0 <= lo -> Forall (fun x => lo <= x) incs ->
  In x (clocks_before t incs) -> t <= x <= t + sum incs.
Proof.
  intros Hlo Hincs. revert t.
  induction Hincs as [|i incs Hi Hf IH]; intros t; simpl; [tauto|].
  assert (Hs : 0 <= sum incs).
  { clear IH. induction Hf; unfold sum in *; simpl; lia. }
  unfold sum in *. simpl fold_right.
  intros [<- | Hin]; [lia|]. apply IH in Hin. lia.
Qed.

Section FunnelFacts.

Context {G R : Type} `{PyRandom G} `{NumpyRandom R}.

Local Abbreviation World := (@World G R).

Variable L : Loaded.

Lemma funnel_draws_spec k (g : G) :
  let d := fst (funnel_draws k g) in
  In (fd_device d) device_types /\ In (fd_source d) traffic_sources /\
  5 <= fd_minutes d <= 40 /\ 5 <= fd_first d <= 40 /\
  length (fd_views d) = k /\ Forall (fun x => 5 <= x <= 40) (fd_views d) /\
  5 <= fd_cart d <= 40.
Proof.
  unfold funnel_draws.
  pose proof (py_choice_In "desktop" device_types g) as Hdev.
  destruct (py_choice "desktop" device_types g) as [device g1].
  pose proof (py_choice_In "direct" traffic_sources g1) as Hsrc.
  destruct (py_choice "direct" traffic_sources g1) as [source g2].
  pose proof (py_randint_range 5 40 g2) as Hm.
  destruct (py_randint 5 40 g2) as [m g3].
  pose proof (py_randint_range 5 40 g3) as Hs0.
  destruct (py_randint 5 40 g3) as [s0 g4].
  pose proof (draw_list_length k 5 40 g4) as Hlen.
  pose proof (draw_list_range k 5 40 g4) as Hincs.
  destruct (draw_list k 5 40 g4) as [incs g5].
  pose proof (py_randint_range 5 40 g5) as Hs1.
  destruct (py_randint 5 40 g5) as [s1 g6].
  cbn [fst snd fd_device fd_source fd_minutes fd_first fd_views fd_cart] in *.
  repeat split; try (apply Hm || apply Hs0 || apply Hs1); try lia; auto.
  - apply Hdev. discriminate.
  - apply Hsrc. discriminate.
  - apply Hincs. lia.
Qed.

Lemma funnel_session_effect row (w : World) :
  exists block w',
    funnel_session L row w = Ok (tt, w') /\
    events w' = events w ++ block /\
    session_effect L row w block w'.
Proof.
  destruct (items_of L (OrdersJoined.order_id row)) as [|i0 oi'] eqn:Eoi.
  - exists [], w. rewrite funnel_session_skip by exact Eoi.
    rewrite app_nil_r. repeat split. left. now rewrite Eoi.
  - assert (Hne : items_of L (OrdersJoined.order_id row) <> [])
      by (rewrite Eoi; discriminate).
    destruct (funnel_session_run L row w Hne)
      as (first & rest & r' & _ & Hlen & Hincl & Erun).
    eexists _, _. split; [exact Erun|]. split; [reflexivity|].
    right. split; [exact Hne|].
    exists first, rest, r'. repeat split; assumption.
Qed.

Lemma session_blocks_cons row rows (w w' : World) block :
  funnel_session L row w = Ok (tt, w') ->
  events w' = events w ++ block ->
  session_blocks L (row :: rows) w = block :: session_blocks L rows w'.
Proof.
  intros E Ev. cbn [session_blocks]. rewrite E, Ev. f_equal.
  rewrite skipn_app, skipn_all, Nat.sub_diag. reflexivity.
Qed.

Lemma funnel_loop_run rows (w : World) :
  exists w',
    funnel_loop L rows w = Ok (tt, w') /\
    events w' = events w ++ concat (session_blocks L rows w) /\
    uuid_pool w' = uuid_pool w /\
    (uuid_count w <= uuid_count w')%nat.
Proof.
  revert w. induction rows as [|row rows IH]; intros w.
  - exists w. simpl. rewrite app_nil_r. repeat split. lia.
  - destruct (funnel_session_effect row w) as (block & w1 & E & Ev & Heff).
    destruct (IH w1) as (w' & E' & Ev' & Hp & Hc).
    exists w'. cbn [funnel_loop]. rewrite (bind_ok _ _ _ _ _ E).
    rewrite (session_blocks_cons _ _ _ _ _ E Ev). cbn [concat].
    split; [exact E'|]. split; [rewrite Ev', Ev; now rewrite app_assoc|].
    destruct Heff as [(_ & _ & ->) | (_ & f & r & r' & _ & _ & _ & ->)];
      cbn [uuid_pool uuid_count] in *; split; try assumption; lia.
Qed.

Lemma items_of_order_id (row : OrdersJoined.row Clock.Timestamp) :
  items_of L (OrdersJoined.order_id row) <> [] ->
  if_not_none (OrdersJoined.order_id row) = OrdersJoined.order_id row.
Proof.
  unfold items_of. intros Hne.
  destruct (filter _ _) as [|r rs] eqn:E; [congruence|].
  assert (Hin : In r (r :: rs)) by now left.
  rewrite <- E in Hin. apply filter_In in Hin as [_ Hc].
  unfold cell_eq in Hc. destruct (ItemsJoined.order_id r); try discriminate.
  now destruct (OrdersJoined.order_id row).
Qed.

Lemma map_const_repeat {A B : Type} (x : B) (l : list A) :
  map (fun _ => x) l = repeat x (length l).
Proof. induction l; simpl; congruence. Qed.

(** The five parts of a block, column by column. *)
Lemma funnel_block_columns pool c (row : OrdersJoined.row Clock.Timestamp)
    d first rest :
  length (fd_views d) = length (first :: rest) ->
  let block := funnel_block pool c row d first rest in
  let k := length (first :: rest) in
  map event_type block =
    "page_view" :: repeat "view_product" k
      ++ ["add_to_cart"; "checkout"; "purchase"] /\
  map product_id block =
    PyStr "" :: map (fun r => if_not_none (ItemsJoined.product_id r))
                  (first :: rest)
      ++ [if_not_none (ItemsJoined.product_id first); PyStr ""; PyStr ""] /\
  map order_id block =
    repeat (PyStr "") (3 + k) ++ [if_not_none (OrdersJoined.order_id row)] /\
  Forall (fun e => session_id e = pool c) block.
Proof.
  intros Hlen block k. unfold block, funnel_block. fold k.
  remember (first :: rest) as smp eqn:Esmp.
  set (mk := fun i etype ts pid oid => event_of (pool i) etype (pool c) ts
               (OrdersJoined.customer_id row) pid oid
               (OrdersJoined.customer_city row)
               (OrdersJoined.customer_state row) true (fd_source d)
               (fd_device d)).
  repeat split.
  - cbn [map]. rewrite map_app. f_equal.
    rewrite (view_block_map mk event_type (fun _ => "view_product"))
      by (auto; symmetry; exact Hlen).
    cbn [map event_type event_of mk]. f_equal. apply map_const_repeat.
  - cbn [map]. rewrite map_app. f_equal.
    rewrite (view_block_map mk product_id if_not_none)
      by (auto; symmetry; exact Hlen).
    reflexivity.
  - cbn [map]. rewrite map_app.
    rewrite (view_block_map mk order_id (fun _ => PyStr ""))
      by (auto; symmetry; exact Hlen).
    cbn [map order_id event_of mk if_not_none].
    rewrite (map_const_repeat (PyStr "") smp). fold k.
    change (3 + k)%nat with (S (S (S k))).
    change (PyStr "" :: repeat (PyStr "") k ++ [PyStr ""; PyStr ""; ?x])
      with (repeat (PyStr "") (S k) ++ [PyStr ""; PyStr ""; x]).
    replace (S (S (S k))) with (S k + 2)%nat by lia.
    rewrite repeat_app, <- app_assoc. reflexivity.
  - constructor; [reflexivity|]. apply Forall_app. split.
    + apply view_block_Forall. reflexivity.
    + repeat constructor.
Qed.

(** The clocks of a block. *)
Lemma funnel_block_clock pool c (row : OrdersJoined.row Clock.Timestamp)
    d first rest p :
  OrdersJoined.order_purchase_timestamp row = Some p ->
  length (fd_views d) = length (first :: rest) ->
  let base := p - 60 * fd_minutes d in
  let t1 := base + fd_first d in
  let t2 := t1 + sum (fd_views d) in
  map event_ts (funnel_block pool c row d first rest) =
  map Clock.isoformat_secs
    ((base :: clocks_before t1 (fd_views d) ++ [t2; t2 + fd_cart d]) ++ [p]).
Proof.
  intros Hp Hlen base t1 t2. unfold funnel_block. rewrite Hp.
  cbn [Clock.ts_sub Clock.ts_add]. rewrite advance_some.
  cbn [Clock.ts_add]. unfold Clock.timedelta.
  replace (p - (86400 * 0 + 60 * fd_minutes d + 0)) with base
    by (unfold base; lia).
  replace (base + (86400 * 0 + 60 * 0 + fd_first d)) with t1
    by (unfold t1; lia).
  fold t2.
  replace (t2 + (86400 * 0 + 60 * 0 + fd_cart d)) with (t2 + fd_cart d) by lia.
  cbn [map app]. rewrite !map_app. cbn [map].
  rewrite view_block_ts by (auto; symmetry; exact Hlen).
  rewrite <- app_assoc. reflexivity.
Qed.

End FunnelFacts.

(** ** The purchase funnel *)

Section FunnelTheorems.

Context {G R : Type} `{PyRandom G} `{NumpyRandom R}.

Local Abbreviation World := (@World G R).

Variable L : Loaded.

Lemma session_effect_shape row (w w' : World) block :
  session_effect L row w block w' ->
  match items_of L (OrdersJoined.order_id row) with
  | [] => block = []
  | _ :: _ => funnel_shape L row block
  end.
Proof.
  intros [(E & -> & _) | (Hne & first & rest & r' & Hlen & Hincl & -> & _)].
  - now rewrite E.
  - pose proof (items_of_order_id L row Hne) as Hoid.
    destruct (items_of L (OrdersJoined.order_id row)) as [|i0 oi'] eqn:Eoi;
      [congruence|].
    unfold funnel_shape. rewrite Eoi.
    set (k := Nat.min 3 (length (i0 :: oi'))) in *.
    pose proof (funnel_draws_spec k (py w)) as (_ & _ & _ & _ & Hv & _ & _).
    rewrite <- Hlen in Hv at 2.
    destruct (funnel_block_columns (uuid_pool w) (uuid_count w) row
                (fst (funnel_draws k (py w))) first rest Hv)
      as (Ht & Hp & Ho & Hs).
    exists (uuid_pool w (uuid_count w)), first, rest.
    rewrite Hlen, Hoid in *. repeat split; assumption.
Qed.

(** The funnel loop on the rows of a frame: the loop never raises, and it
    appends one block of events per row, empty when the lookup of the row
    finds no item and of the shape [funnel_shape] otherwise. *)
Lemma funnel_loop_shapes (rows : list (OrdersJoined.row Clock.Timestamp))
    (w : World) :
  exists w' : World,
    funnel_loop L rows w = Ok (tt, w') /\
    events w' = events w ++ concat (session_blocks L rows w) /\
    Forall2
      (fun row block =>
         match items_of L (OrdersJoined.order_id row) with
         | [] => block = []
         | _ :: _ => funnel_shape L row block
         end)
      rows (session_blocks L rows w).
Proof.
  destruct (funnel_loop_run L rows w) as (w' & E & Ev & _).
  exists w'. split; [exact E|]. split; [exact Ev|].
  clear. revert w. induction rows as [|row rows IH]; intros w.
  - constructor.
  - destruct (funnel_session_effect L row w) as (block & w1 & E & Ev & Heff).
    rewrite (session_blocks_cons L _ _ _ _ _ E Ev).
    constructor; [eapply session_effect_shape, Heff | apply IH].
Qed.

Lemma Sorted_isoformat ts :
  Forall Clock.in_range ts -> Sorted Z.le ts ->
  Sorted str_le (map Clock.isoformat_secs ts).
Proof.
  intros Hr Hs. induction Hs as [|a ts Hs IH Hhd]; simpl; constructor.
  - apply IH. now inversion Hr.
  - inversion Hr as [|? ? Ha Hts]; subst.
    destruct Hhd as [|b ts Hab]; simpl; constructor.
    apply ClockFacts.isoformat_le; [exact Ha | now inversion Hts | exact Hab].
Qed.

(** The clocks of a session: where they lie with respect to the purchase. *)
Lemma funnel_clock_bounds (d : FunnelDraws) (k : nat) (p : Z) :
  (1 <= k <= 3)%nat ->
  5 <= fd_minutes d <= 40 -> 5 <= fd_first d <= 40 ->
  length (fd_views d) = k -> Forall (fun x => 5 <= x <= 40) (fd_views d) ->
  5 <= fd_cart d <= 40 ->
  let base := p - 60 * fd_minutes d in
  let t1 := base + fd_first d in
  let t2 := t1 + sum (fd_views d) in
  let ts := base :: clocks_before t1 (fd_views d) ++ [t2; t2 + fd_cart d] in
  chain 5 40 ts /\
  length ts = (3 + k)%nat /\
  Forall (fun x => p - 2400 <= x <= p - 100) ts /\
  p - 2385 <= t2 + fd_cart d <= p - 100.
Proof.
  intros Hk Hm Hs0 Hlen Hincs Hs1 base t1 t2 ts.
  pose proof (sum_bounds 5 40 _ Hincs) as Hsum. rewrite Hlen in Hsum.
  assert (Hend : p - 2385 <= t2 + fd_cart d <= p - 100)
    by (unfold t2, t1, base; lia).
  split; [apply chain_clocks; assumption|].
  split.
  { unfold ts. cbn [length]. rewrite length_app. cbn [length].
    assert (Hc : forall t l, length (clocks_before t l) = length l).
    { clear. intros t l. revert t. induction l; intros; simpl; congruence. }
    rewrite Hc, Hlen. lia. }
  split; [|exact Hend].
  assert (Hsorted : Sorted Z.le ts)
    by (eapply chain_sorted; [|apply chain_clocks; eassumption]; lia).
  apply Sorted_StronglySorted in Hsorted; [|intros x y z; apply Z.le_trans].
  unfold ts in *. inversion Hsorted as [|? ? _ Hall]; subst.
  constructor; [unfold base; lia|].
  apply Forall_forall. intros x Hx.
  rewrite Forall_forall in Hall. pose proof (Hall x Hx) as Hlo.
  apply in_app_or in Hx as [Hx | [<- | [<- | []]]].
  - apply (clocks_before_bounds 5) in Hx; [| lia |].
    + unfold t2, t1, base in *. lia.
    + eapply Forall_impl; [|exact Hincs]. simpl. intros; lia.
  - unfold t2, t1, base in *. lia.
  - unfold base in *. lia.
Qed.

Lemma funnel_session_clocks (row : OrdersJoined.row Clock.Timestamp)
    (w : World) (p : Z) :
  OrdersJoined.order_purchase_timestamp row = Some p ->
  items_of L (OrdersJoined.order_id row) <> [] ->
  exists (w' : World) (block : list event) (ts : list Z) (c : Z),
    funnel_session L row w = Ok (tt, w') /\
    events w' = events w ++ block /\
    map event_type block =
      "page_view"
      :: repeat "view_product"
           (Nat.min 3 (length (items_of L (OrdersJoined.order_id row))))
      ++ ["add_to_cart"; "checkout"; "purchase"] /\
    map event_ts block = map Clock.isoformat_secs ((ts ++ [c]) ++ [p]) /\
    length (ts ++ [c]) =
      (3 + Nat.min 3 (length (items_of L (OrdersJoined.order_id row))))%nat /\
    chain 5 40 (ts ++ [c]) /\
    Forall (fun x => p - 2400 <= x <= p - 100) (ts ++ [c]) /\
    p - 2385 <= c.
Proof.
  intros Hp Hne.
  destruct (funnel_session_effect L row w) as (block & w' & E & Ev & Heff).
  destruct Heff as [(Eoi & _) | (_ & first & rest & r' & Hlen & _ & Hb & _)];
    [congruence|].
  set (k := Nat.min 3 (length (items_of L (OrdersJoined.order_id row)))) in *.
  set (d := fst (funnel_draws k (py w))) in *.
  pose proof (funnel_draws_spec k (py w)) as (_ & _ & Hm & Hs0 & Hv & Hincs & Hs1).
  fold d in Hm, Hs0, Hv, Hincs, Hs1.
  assert (Hk : (1 <= k <= 3)%nat).
  { unfold k. destruct (items_of L (OrdersJoined.order_id row));
      [congruence | simpl length; lia]. }
  destruct (funnel_clock_bounds d k p Hk Hm Hs0 Hv Hincs Hs1)
    as (Hchain & Hlen' & Hall & Hend).
  assert (Hv' : length (fd_views d) = length (first :: rest)) by congruence.
  pose proof (funnel_block_clock (uuid_pool w) (uuid_count w) row d first rest
                p Hp Hv') as Hts.
  destruct (funnel_block_columns (uuid_pool w) (uuid_count w) row d first rest
              Hv') as (Hty & _).
  cbv zeta in Hts, Hchain, Hlen', Hall, Hend.
  set (base := p - 60 * fd_minutes d) in *.
  set (t1 := base + fd_first d) in *.
  set (t2 := t1 + sum (fd_views d)) in *.
  exists w', block,
    (base :: clocks_before t1 (fd_views d) ++ [t2]), (t2 + fd_cart d).
  assert (Eq : (base :: clocks_before t1 (fd_views d) ++ [t2]) ++ [t2 + fd_cart d]
               = base :: clocks_before t1 (fd_views d) ++ [t2; t2 + fd_cart d]).
  { cbn [app]. now rewrite <- app_assoc. }
  rewrite Eq, <- Hb in *. rewrite Hlen in Hty.
  repeat split; try assumption; apply Hend.
Qed.

(** C2. In the session of a delivered order bought at [p], the events from
    [page_view] to [checkout] carry the clocks [ts]: each clock is the
    previous one plus 5 to 40 seconds, so they never decrease, also as the
    strings that are written; the last event, [purchase], carries [p]
    itself. *)
Theorem funnel_timestamps (row : OrdersJoined.row Clock.Timestamp) (w : World)
    (p : Z) :
  OrdersJoined.order_purchase_timestamp row = Some p ->
  items_of L (OrdersJoined.order_id row) <> [] ->
  exists (w' : World) (block : list event) (ts : list Z),
    funnel_session L row w = Ok (tt, w') /\
    events w' = events w ++ block /\
    map event_type block =
      "page_view"
      :: repeat "view_product"
           (Nat.min 3 (length (items_of L (OrdersJoined.order_id row))))
      ++ ["add_to_cart"; "checkout"; "purchase"] /\
    map event_ts block =
      map Clock.isoformat_secs ts ++ [Clock.isoformat_secs p] /\
    length ts =
      (3 + Nat.min 3 (length (items_of L (OrdersJoined.order_id row))))%nat /\
    chain 5 40 ts /\
    Sorted Z.le ts /\
    (Clock.in_range (p - 2400) -> Clock.in_range p ->
     Sorted str_le (map Clock.isoformat_secs ts)).
Proof.
  intros Hp Hne.
  destruct (funnel_session_clocks row w p Hp Hne)
    as (w' & block & ts & c & E & Ev & Hty & Hts & Hlen & Hchain & Hall & _).
  exists w', block, (ts ++ [c]).
  assert (Hsorted : Sorted Z.le (ts ++ [c]))
    by (eapply chain_sorted; [|exact Hchain]; lia).
  rewrite map_app in Hts. cbn [map] in Hts.
  repeat split; try assumption.
  intros Hlo Hhi. apply Sorted_isoformat; [|exact Hsorted].
  eapply Forall_impl; [|exact Hall].
  unfold Clock.in_range in *. simpl. intros; lia.
Qed.

(** The last two events of a block. *)
Lemma funnel_block_tail pool c (row : OrdersJoined.row Clock.Timestamp) d
    first rest p :
  OrdersJoined.order_purchase_timestamp row = Some p ->
  exists (pre : list event) (co pu : event),
    funnel_block pool c row d first rest = pre ++ [co; pu] /\
    Forall (fun e => event_type e <> "checkout" /\ event_type e <> "purchase")
           pre /\
    event_type co = "checkout" /\
    event_type pu = "purchase" /\
    event_ts co =
      Clock.isoformat_secs
        (p - 60 * fd_minutes d + fd_first d + sum (fd_views d) + fd_cart d) /\
    event_ts pu = Clock.isoformat_secs p.
Proof.
  intros Hp. unfold funnel_block. rewrite Hp.
  cbn [Clock.ts_sub Clock.ts_add]. rewrite advance_some. cbn [Clock.ts_add].
  match goal with
  | |- exists pre co pu, ?pv :: ?views ++ [?atc; ?co0; ?pu0] = _ /\ _ =>
      exists (pv :: views ++ [atc]), co0, pu0
  end.
  split; [cbn [app]; now rewrite <- app_assoc|].
  split.
  { constructor; [split; discriminate|]. apply Forall_app. split.
    - apply view_block_Forall. intros; split; discriminate.
    - repeat constructor; discriminate. }
  repeat split. cbn [event_ts event_of Clock.isoformat]. f_equal.
  unfold Clock.timedelta. lia.
Qed.

(** C3, as the code has it. In every funnel session the [purchase] event
    is later than the [checkout] event, by 100 to 2385 seconds: the session
    starts 5 to 40 minutes before the purchase and the clock advances by at
    most 5 times 40 seconds before [checkout]. *)
Theorem purchase_after_checkout (row : OrdersJoined.row Clock.Timestamp)
    (w : World) (p : Z) :
  OrdersJoined.order_purchase_timestamp row = Some p ->
  items_of L (OrdersJoined.order_id row) <> [] ->
  exists (w' : World) (pre : list event) (co pu : event) (c : Z),
    funnel_session L row w = Ok (tt, w') /\
    events w' = events w ++ pre ++ [co; pu] /\
    event_type co = "checkout" /\
    event_type pu = "purchase" /\
    event_ts co = Clock.isoformat_secs c /\
    event_ts pu = Clock.isoformat_secs p /\
    c + 100 <= p <= c + 2385 /\
    (Clock.in_range (p - 2400) -> Clock.in_range p ->
     String.ltb (event_ts co) (event_ts pu) = true).
Proof.
  intros Hp Hne.
  destruct (funnel_session_effect L row w) as (block & w' & E & Ev & Heff).
  destruct Heff as [(Eoi & _) | (_ & first & rest & r' & Hlen & _ & Hb & _)];
    [congruence|].
  set (k := Nat.min 3 (length (items_of L (OrdersJoined.order_id row)))) in *.
  set (d := fst (funnel_draws k (py w))) in *.
  pose proof (funnel_draws_spec k (py w)) as (_ & _ & Hm & Hs0 & Hv & Hincs & Hs1).
  fold d in Hm, Hs0, Hv, Hincs, Hs1.
  assert (Hk : (1 <= k <= 3)%nat).
  { unfold k. destruct (items_of L (OrdersJoined.order_id row));
      [congruence | simpl length; lia]. }
  destruct (funnel_clock_bounds d k p Hk Hm Hs0 Hv Hincs Hs1)
    as (_ & _ & _ & Hend).
  destruct (funnel_block_tail (uuid_pool w) (uuid_count w) row d first rest p Hp)
    as (pre & co & pu & Eb & _ & Hco & Hpu & Htco & Htpu).
  cbv zeta in Hend.
  set (c := p - 60 * fd_minutes d + fd_first d + sum (fd_views d) + fd_cart d)
    in *.
  exists w', pre, co, pu, c.
  rewrite Ev, Hb, Eb. repeat split; try assumption; try lia.
  intros Hlo Hhi. rewrite Htco, Htpu.
  apply ClockFacts.isoformat_lt; unfold Clock.in_range in *; lia.
Qed.

(** C8. A delivered order without any row in the joined order items
    leaves the world as it was: no session, no event, no draw; the loop goes
    on with the next order. *)
Theorem funnel_skips_order_without_items
    (row : OrdersJoined.row Clock.Timestamp)
    (rest : list (OrdersJoined.row Clock.Timestamp)) (w : World) :
  items_of L (OrdersJoined.order_id row) = [] ->
  funnel_session L row w = Ok (tt, w) /\
  funnel_loop L (row :: rest) w = funnel_loop L rest w.
Proof.
  intros Hno. pose proof (funnel_session_skip L row w Hno) as E.
  split; [exact E|]. cbn [funnel_loop]. now rewrite (bind_ok _ _ _ _ _ E).
Qed.

End FunnelTheorems.

(** C3, as the claim has it: no funnel session has its [purchase] event
    before its [checkout] event, whatever the tables and the draws. *)
Theorem no_purchase_before_checkout :
  ~ exists (G R : Type) (PR : PyRandom G) (NR : NumpyRandom R) (L : Loaded)
           (row : OrdersJoined.row Clock.Timestamp) (w : @World G R),
      purchase_before_checkout L row w.
Proof.
  intros (G & R & PR & NR & L & row & w & w' & p & co & pu & Hp & Hlo & Hhi
          & E & Hco & Hpu & Tco & Tpu & Hlt).
  destruct (funnel_session_effect L row w) as (block & w1 & E1 & Ev & Heff).
  rewrite E in E1. injection E1 as <-.
  rewrite Ev, skipn_app, skipn_all, Nat.sub_diag in Hco, Hpu.
  cbn [app skipn] in Hco, Hpu.
  destruct Heff as [(_ & -> & _) | (Hne & first & rest & r' & Hlen & _ & Hb & _)];
    [destruct Hco|].
  set (k := Nat.min 3 (length (items_of L (OrdersJoined.order_id row)))) in *.
  set (d := fst (funnel_draws k (py w))) in *.
  pose proof (funnel_draws_spec k (py w)) as (_ & _ & Hm & Hs0 & Hv & Hincs & Hs1).
  fold d in Hm, Hs0, Hv, Hincs, Hs1.
  assert (Hk : (1 <= k <= 3)%nat).
  { unfold k. destruct (items_of L (OrdersJoined.order_id row));
      [congruence | simpl length; lia]. }
  destruct (funnel_clock_bounds d k p Hk Hm Hs0 Hv Hincs Hs1)
    as (_ & _ & _ & Hend).
  destruct (funnel_block_tail (uuid_pool w) (uuid_count w) row d first rest p Hp)
    as (pre & co0 & pu0 & Eb & Hpre & Hco0 & Hpu0 & Htco & Htpu).
  rewrite Hb, Eb in Hco, Hpu. rewrite Forall_forall in Hpre.
  assert (Eco : co = co0).
  { apply in_app_or in Hco as [Hin | [<- | [<- | []]]].
    - apply Hpre in Hin. tauto.
    - reflexivity.
    - congruence. }
  assert (Epu : pu = pu0).
  { apply in_app_or in Hpu as [Hin | [<- | [<- | []]]].
    - apply Hpre in Hin. tauto.
    - congruence.
    - reflexivity. }
  subst co pu. rewrite Htco, Htpu in Hlt.
  cbv zeta in Hend.
  apply ClockFacts.isoformat_lt in Hlt; unfold Clock.in_range in *; lia.
Qed.

(** ** Two runs on the same seed *)

Section Reproducible.

Context {G R : Type} `{PyRandom G} `{NumpyRandom R}.

Local Abbreviation World := (@World G R).

Variable L : Loaded.

Lemma view_block_skeleton mk1 mk2 c1 c2 smp1 smp2 t incs :
  (forall i1 i2 ty t pid1 pid2 oid,
     skeleton (mk1 i1 ty t pid1 oid) = skeleton (mk2 i2 ty t pid2 oid)) ->
  length smp1 = length smp2 ->
  map skeleton (view_block mk1 c1 smp1 t incs) =
  map skeleton (view_block mk2 c2 smp2 t incs).
Proof.
  intros Hmk. revert c1 c2 smp2 t incs.
  induction smp1 as [|r1 smp1 IH]; intros c1 c2 [|r2 smp2] t incs Hl;
    try discriminate; [reflexivity|].
  destruct incs as [|s incs]; [reflexivity|]. cbn [view_block map].
  f_equal; [apply Hmk | apply IH; now injection Hl].
Qed.

Lemma funnel_block_skeleton pool1 pool2 c1 c2
    (row : OrdersJoined.row Clock.Timestamp) d first1 rest1 first2 rest2 :
  length (first1 :: rest1) = length (first2 :: rest2) ->
  map skeleton (funnel_block pool1 c1 row d first1 rest1) =
  map skeleton (funnel_block pool2 c2 row d first2 rest2).
Proof.
  intros Hl. unfold funnel_block. cbn [map]. rewrite !map_app. cbn [map].
  f_equal. f_equal.
  apply view_block_skeleton; [reflexivity | exact Hl].
Qed.

Lemma session_blocks_skeleton rows (w1 w2 : World) :
  py w1 = py w2 ->
  map (map skeleton) (session_blocks L rows w1) =
  map (map skeleton) (session_blocks L rows w2).
Proof.
  revert w1 w2. induction rows as [|row rows IH]; intros w1 w2 Hpy;
    [reflexivity|].
  destruct (funnel_session_effect L row w1) as (b1 & w1' & E1 & Ev1 & Heff1).
  destruct (funnel_session_effect L row w2) as (b2 & w2' & E2 & Ev2 & Heff2).
  rewrite (session_blocks_cons L _ _ _ _ _ E1 Ev1).
  rewrite (session_blocks_cons L _ _ _ _ _ E2 Ev2).
  cbn [map].
  destruct Heff1 as [(Eoi1 & -> & ->) | (Hne1 & f1 & r1 & r1' & Hl1 & _ & -> & ->)];
    destruct Heff2 as [(Eoi2 & -> & ->) | (Hne2 & f2 & r2 & r2' & Hl2 & _ & -> & ->)];
    try congruence.
  - f_equal. apply IH, Hpy.
  - rewrite <- Hpy. f_equal.
    + apply funnel_block_skeleton. congruence.
    + apply IH. reflexivity.
Qed.

(** C4. Two runs of the funnel phase on the same loaded tables and the
    same seed of the [random] module emit, order by order, sessions with the
    same number of events, the same event types in the same order and the
    same timestamps, whatever numpy's unseeded generator and [uuid4] return
    in each run: the sessions agree on every column except the two
    identifiers and the sampled product. *)
Theorem funnel_phase_reproducible (s : Z) (np1 np2 : R)
    (pool1 pool2 : nat -> string) :
  map (map skeleton)
      (session_blocks L (delivered_orders L) (mkWorld (seed s) np1 pool1 0 [])) =
  map (map skeleton)
      (session_blocks L (delivered_orders L) (mkWorld (seed s) np2 pool2 0 [])).
Proof. apply session_blocks_skeleton. reflexivity. Qed.

End Reproducible.

(** ** Browsing sessions *)

Section Browsing.

Context {G R : Type} `{PyRandom G} `{NumpyRandom R}.

Local Abbreviation World := (@World G R).
Local Abbreviation M := (@M G R).

Variable L : Loaded.

Lemma only_py_refl (w : World) : only_py w w.
Proof. repeat split. Qed.

Lemma only_py_trans (w w1 w2 : World) :
  only_py w w1 -> only_py w1 w2 -> only_py w w2.
Proof. unfold only_py. intuition congruence. Qed.

Lemma lift_py_inv {A : Type} (f : G -> A * G) (w w1 : World) (a : A) :
  lift_py f w = Ok (a, w1) -> a = fst (f (py w)) /\ only_py w w1.
Proof.
  rewrite lift_py_run. intros E. injection E as <- <-. repeat split.
Qed.

Lemma randint_inv a b (w w1 : World) x :
  randint a b w = Ok (x, w1) -> a <= x <= b /\ only_py w w1.
Proof.
  unfold randint. destruct (Z.ltb_spec b a) as [Hlt | Hle]; [discriminate|].
  intros E. apply lift_py_inv in E as [-> Hw]. split; [|exact Hw].
  apply py_randint_range, Hle.
Qed.

Lemma choice_inv {A : Type} (seq : list A) (w w1 : World) (x : A) :
  choice seq w = Ok (x, w1) -> In x seq /\ only_py w w1.
Proof.
  unfold choice. destruct seq as [|d seq]; [discriminate|].
  intros E. apply lift_py_inv in E as [-> Hw]. split; [|exact Hw].
  apply py_choice_In. discriminate.
Qed.

Lemma sample_inv {A : Type} n (rows : list A) (w w1 : World) rs :
  sample n rows w = Ok (rs, w1) ->
  incl rs rows /\ py w1 = py w /\ uuid_pool w1 = uuid_pool w /\
  uuid_count w1 = uuid_count w /\ events w1 = events w.
Proof.
  unfold sample, sample_with.
  destruct (length rows <? n)%nat; [discriminate|].
  destruct (choice_no_replace (length rows) n (np w)) as [idx r'].
  destruct (take_rows rows idx) as [rs'|e] eqn:Et; [|discriminate].
  intros E. injection E as <- <-. repeat split.
  clear -Et. revert rs' Et. induction idx as [|i idx IH]; intros rs' Et.
  - injection Et as <-. intros x [].
  - simpl in Et. destruct (nth_error rows i) as [r|] eqn:En; [|discriminate].
    destruct (take_rows rows idx) as [rs|e]; [|discriminate].
    injection Et as <-. intros x [<- | Hx].
    + eapply nth_error_In, En.
    + now apply (IH rs).
Qed.

Lemma browse_pick_inv (r : Z) (w w1 : World) (x : string * pyval) :
  (if r <? p_0_4 then ret ("page_view", PyNone)
   else if r <? p_0_75
   then bind (choice (product_ids L)) (fun pid => ret ("view_product", PyStr pid))
   else bind (choice (product_ids L)) (fun pid => ret ("add_to_cart", PyStr pid)))
    w = Ok (x, w1) ->
  In (fst x) browsing_types /\ only_py w w1.
Proof.
  unfold browsing_types.
  destruct (r <? p_0_4); [|destruct (r <? p_0_75)]; intros E.
  - injection E as <- <-. split; [simpl; auto | apply only_py_refl].
  - apply bind_inv in E as (pid & w2 & Ec & E). injection E as <- <-.
    apply choice_inv in Ec as [_ Hw]. split; [simpl; auto | exact Hw].
  - apply bind_inv in E as (pid & w2 & Ec & E). injection E as <- <-.
    apply choice_inv in Ec as [_ Hw]. split; [simpl; auto | exact Hw].
Qed.

Lemma browse_steps_effect n sid cust city state auth src dev t (w w' : World) :
  browse_steps L n sid cust city state auth src dev t w = Ok (tt, w') ->
  uuid_pool w' = uuid_pool w /\
  uuid_count w' = (uuid_count w + n)%nat /\
  np w' = np w /\
  exists new : list event,
    events w' = events w ++ new /\
    length new = n /\
    Forall (browsing_event sid cust city state auth src dev) new /\
    match new with
    | e :: _ => event_ts e = Clock.isoformat t
    | [] => True
    end.
Proof.
  revert t w. induction n as [|n IH]; intros t w E.
  - injection E as <-. repeat split; try lia.
    exists []. rewrite app_nil_r. repeat split. constructor.
  - cbn [browse_steps] in E.
    apply bind_inv in E as (r & w1 & E1 & E).
    apply lift_py_inv in E1 as [_ Hw1].
    apply bind_inv in E as ([etype pid] & w2 & E2 & E).
    apply browse_pick_inv in E2 as [Hty Hw2].
    pose proof (only_py_trans _ _ _ Hw1 Hw2) as (Hn2 & Hp2 & Hc2 & He2).
    rewrite (bind_ok _ _ _ _ _ (make_event_run _ _ _ _ _ _ _ _ _ _ _ _)) in E.
    apply bind_inv in E as ([] & w3 & E3 & E).
    injection E3 as <-.
    apply bind_inv in E as (s & w4 & E4 & E).
    apply randint_inv in E4 as [_ (Hn4 & Hp4 & Hc4 & He4)].
    apply IH in E as (Hp & Hc & Hn & new & Hev & Hlen & Hall & _).
    cbn [np uuid_pool uuid_count events] in *.
    split; [congruence|]. split; [lia|]. split; [congruence|].
    eexists (_ :: new). split.
    { rewrite Hev, He4, He2, <- app_assoc. reflexivity. }
    split; [simpl; congruence|]. split; [|reflexivity].
    constructor; [|exact Hall].
    rewrite Hp2, Hc2. repeat split. exact Hty.
Qed.

(** What one browsing session does to the world. *)
Lemma browsing_session_effect src (w w' : World) :
  browsing_session L src w = Ok (tt, w') ->
  uuid_pool w' = uuid_pool w /\
  exists (base_order : OrdersJoined.row Clock.Timestamp) (d m : Z)
         (cust city state : pyval) (auth : bool) (source device : string)
         (first : event) (others : list event),
    In base_order src /\
    1 <= d <= 60 /\ 0 <= m <= 1440 /\
    In device device_types /\ In source traffic_sources /\
    events w' = events w ++ first :: others /\
    uuid_count w' = (uuid_count w + 1 + length (first :: others))%nat /\
    (2 <= length (first :: others) <= 6)%nat /\
    Forall (browsing_event (uuid_pool w (uuid_count w)) cust city state auth
              source device) (first :: others) /\
    event_ts first =
      Clock.isoformat
        (Clock.ts_sub (OrdersJoined.order_purchase_timestamp base_order)
                      (Clock.timedelta d m 0)).
Proof.
  unfold browsing_session. intros E.
  apply bind_inv in E as (smp & w1 & E1 & E).
  apply sample_inv in E1 as (Hincl & Hy1 & Hp1 & Hc1 & He1).
  apply bind_inv in E as (base_order & w2 & E2 & E).
  destruct smp as [|r0 smp]; [discriminate|]. injection E2 as -> ->.
  apply bind_inv in E as (d & w3 & E3 & E).
  apply randint_inv in E3 as [Hd (Hn3 & Hp3 & Hc3 & He3)].
  apply bind_inv in E as (m & w4 & E4 & E).
  apply randint_inv in E4 as [Hm (Hn4 & Hp4 & Hc4 & He4)].
  rewrite (bind_ok _ _ _ _ _ (eq_refl : uuid4 w4 = Ok (_, _))) in E.
  apply bind_inv in E as (device & w5 & E5 & E).
  apply choice_inv in E5 as [Hdev (Hn5 & Hp5 & Hc5 & He5)].
  apply bind_inv in E as (source & w6 & E6 & E).
  apply choice_inv in E6 as [Hsrc (Hn6 & Hp6 & Hc6 & He6)].
  apply bind_inv in E as (r & w7 & E7 & E).
  apply lift_py_inv in E7 as [_ (Hn7 & Hp7 & Hc7 & He7)].
  apply bind_inv in E as ([[cust city] state] & w8 & E8 & E).
  assert (Hw8 : only_py w7 w8).
  { destruct ((r <? p_0_4) && negb (length (customers_list L) =? 0)%nat).
    - apply bind_inv in E8 as (cid & w9 & E9 & E8).
      apply choice_inv in E9 as [_ Hw9].
      destruct (filter _ _); injection E8 as <- <- <- <-; exact Hw9.
    - injection E8 as <- <- <- <-. apply only_py_refl. }
  destruct Hw8 as (Hn8 & Hp8 & Hc8 & He8).
  apply bind_inv in E as (steps & w9 & E9 & E).
  apply randint_inv in E9 as [Hsteps (Hn9 & Hp9 & Hc9 & He9)].
  apply browse_steps_effect in E as (Hp & Hc & Hn & new & Hev & Hlen & Hall & Hfirst).
  cbn [np uuid_pool uuid_count events] in *.
  split; [congruence|].
  destruct new as [|first others]; [simpl in Hlen; lia|].
  exists base_order, d, m, cust, city, state, (r <? p_0_4), source, device,
    first, others.
  assert (Epool : uuid_pool w4 (uuid_count w4) = uuid_pool w (uuid_count w))
    by congruence.
  rewrite Epool in Hall.
  repeat split; try assumption; try lia.
  - apply Hincl. now left.
  - rewrite Hev. congruence.
Qed.

Lemma browsing_loop_effect n src (w w' : World) :
  browsing_loop L n src w = Ok (tt, w') ->
  uuid_pool w' = uuid_pool w /\
  (uuid_count w <= uuid_count w')%nat /\
  exists new : list event,
    events w' = events w ++ new /\
    Forall (fun e => In (event_type e) browsing_types) new.
Proof.
  revert w. induction n as [|n IH]; intros w E.
  - injection E as <-. repeat split; [lia|].
    exists []. rewrite app_nil_r. split; [reflexivity | constructor].
  - cbn [browsing_loop] in E.
    apply bind_inv in E as ([] & w1 & E1 & E).
    apply browsing_session_effect in E1
      as (Hp1 & o & d & m & cust & city & state & auth & source & device
          & first & others & _ & _ & _ & _ & _ & Hev1 & Hc1 & _ & Hall1 & _).
    apply IH in E as (Hp & Hc & new & Hev & Hall).
    split; [congruence|]. split; [lia|].
    exists ((first :: others) ++ new). split.
    + rewrite Hev, Hev1. now rewrite app_assoc.
    + apply Forall_app. split; [|exact Hall].
      eapply Forall_impl; [|exact Hall1]. intros e He. apply He.
Qed.

End Browsing.

(** ** The whole run *)

Section Serializer.

Context `{ArgSort}.

Lemma nth_error_flat_map_seq {A : Type} (l : list A) :
  flat_map (fun i => match nth_error l i with
                     | Some e => [e]
                     | None => []
                     end) (seq 0 (length l)) = l.
Proof.
  induction l as [|x l IH]; [reflexivity|].
  cbn [length seq flat_map nth_error app]. f_equal.
  rewrite <- seq_shift, flat_map_concat_map, map_map.
  rewrite <- flat_map_concat_map. exact IH.
Qed.

Lemma sort_values_perm (evs : list event) : Permutation evs (sort_values evs).
Proof.
  unfold sort_values.
  rewrite <- (nth_error_flat_map_seq evs) at 1.
  apply Permutation_flat_map, Permutation_sym.
  rewrite <- (length_map event_ts evs). apply argsort_perm.
Qed.

Lemma sort_values_keys (evs : list event) :
  map event_ts (sort_values evs) =
  map (fun i => nth i (map event_ts evs) EmptyString)
      (argsort (map event_ts evs)).
Proof.
  unfold sort_values.
  assert (Hb : Forall (fun i => (i < length evs)%nat)
                      (argsort (map event_ts evs))).
  { apply Forall_forall. intros i Hi.
    eapply Permutation_in in Hi; [|apply argsort_perm].
    apply in_seq in Hi. rewrite length_map in Hi. lia. }
  induction Hb as [|i idx Hi _ IH]; [reflexivity|].
  cbn [flat_map map]. rewrite map_app, IH.
  destruct (nth_error evs i) as [e|] eqn:En.
  - cbn [map app]. f_equal.
    erewrite nth_indep by (rewrite length_map; exact Hi).
    rewrite (map_nth event_ts evs e i). f_equal.
    symmetry. apply nth_error_nth. exact En.
  - apply nth_error_None in En. lia.
Qed.

Lemma sort_values_sorted (evs : list event) :
  Sorted str_le (map event_ts (sort_values evs)).
Proof. rewrite sort_values_keys. apply argsort_sorted. Qed.

End Serializer.

(** ** The sort of numpy sorts *)

Module NpysortFacts.

Import Npysort.

Lemma string_compare_trans (a b c : string) :
  String.compare a b <> Gt -> String.compare b c <> Gt ->
  String.compare a c <> Gt.
Proof.
  revert b c. induction a as [|x a IH]; intros [|y b] [|z c]; cbn;
    try congruence.
  unfold Ascii.compare.
  destruct (N.compare_spec (N_of_ascii x) (N_of_ascii y)) as [Exy|Exy|Exy];
    destruct (N.compare_spec (N_of_ascii y) (N_of_ascii z)) as [Eyz|Eyz|Eyz];
    destruct (N.compare_spec (N_of_ascii x) (N_of_ascii z)) as [Exz|Exz|Exz];
    try congruence; try lia.
  apply IH.
Qed.

Lemma string_ltb_false (a b : string) :
  String.ltb a b = false <-> String.compare b a <> Gt.
Proof.
  unfold String.ltb. rewrite (String.compare_antisym b a).
  destruct (String.compare a b); cbn; split; congruence.
Qed.

Section NumpySortFacts.

Variable keys : list string.

Local Abbreviation lessk := (less keys).
Local Abbreviation kle := (key_le keys).

Lemma key_le_str_le a b :
  kle a b <-> str_le (nth a keys EmptyString) (nth b keys EmptyString).
Proof.
  unfold key_le, less, str_le, String.leb. rewrite string_ltb_false.
  destruct (String.compare _ _); split; congruence.
Qed.

Lemma key_le_refl a : kle a a.
Proof.
  unfold key_le, less. apply string_ltb_false.
  unfold String.ltb. intros E.
  pose proof (String.compare_antisym (nth a keys EmptyString)
                (nth a keys EmptyString)) as Ha.
  rewrite E in Ha. discriminate.
Qed.

Lemma key_le_trans a b c : kle a b -> kle b c -> kle a c.
Proof.
  unfold key_le, less. rewrite !string_ltb_false.
  apply string_compare_trans.
Qed.

Lemma less_key_le a b : lessk a b = true -> kle a b.
Proof.
  unfold key_le, less, String.ltb.
  rewrite (String.compare_antisym (nth b keys EmptyString)).
  destruct (String.compare _ _); cbn; congruence.
Qed.

Lemma not_less_key_le a b : lessk a b = false -> kle b a.
Proof. exact (fun E => E). Qed.

(** *** Arrays *)

Lemma length_put t i x : length (put t i x) = length t.
Proof.
  revert i. induction t as [|y t IH]; intros [|i]; cbn; try reflexivity.
  now rewrite IH.
Qed.

Lemma get_put_eq t i x : (i < length t)%nat -> get (put t i x) i = x.
Proof.
  unfold get. revert i. induction t as [|y t IH]; intros [|i] Hi; cbn in *;
    try lia; try reflexivity.
  apply IH. lia.
Qed.

Lemma get_put_neq t i k x : i <> k -> get (put t i x) k = get t k.
Proof.
  unfold get. revert i k.
  induction t as [|y t IH]; intros [|i] [|k] Hne; cbn; try reflexivity;
    try congruence.
  apply IH. congruence.
Qed.

Lemma put_put t i x y : put (put t i x) i y = put t i y.
Proof.
  revert i. induction t as [|z t IH]; intros [|i]; cbn; try reflexivity.
  now rewrite IH.
Qed.

Lemma put_get t i : put t i (get t i) = t.
Proof.
  unfold get. revert i. induction t as [|z t IH]; intros [|i]; cbn;
    try reflexivity.
  now rewrite IH.
Qed.

Lemma put_perm t i x :
  (i < length t)%nat -> Permutation (get t i :: put t i x) (x :: t).
Proof.
  unfold get. revert i. induction t as [|y t IH]; intros [|i] Hi; cbn in *;
    try lia.
  - apply perm_swap.
  - etransitivity; [apply perm_swap|].
    etransitivity; [apply perm_skip, IH; lia|]. apply perm_swap.
Qed.

Lemma length_swap t i j : length (swap t i j) = length t.
Proof. unfold swap. now rewrite !length_put. Qed.

Lemma swap_perm t i j :
  (i < length t)%nat -> (j < length t)%nat -> Permutation (swap t i j) t.
Proof.
  intros Hi Hj. unfold swap. destruct (Nat.eq_dec i j) as [->|Hne].
  - now rewrite put_put, put_get.
  - apply (Permutation_cons_inv (a := get t j)).
    etransitivity; [|apply (put_perm t i (get t j) Hi)].
    rewrite <- (get_put_neq t i j (get t j) Hne) at 1.
    apply put_perm. now rewrite length_put.
Qed.

Lemma get_swap_l t i j :
  (i < length t)%nat -> (j < length t)%nat -> get (swap t i j) i = get t j.
Proof.
  intros Hi Hj. unfold swap. destruct (Nat.eq_dec i j) as [->|Hne].
  - rewrite get_put_eq; [reflexivity | now rewrite length_put].
  - rewrite get_put_neq by congruence. now apply get_put_eq.
Qed.

Lemma get_swap_r t i j :
  (j < length t)%nat -> get (swap t i j) j = get t i.
Proof.
  intros Hj. unfold swap. apply get_put_eq. now rewrite length_put.
Qed.

Lemma get_swap_other t i j k :
  k <> i -> k <> j -> get (swap t i j) k = get t k.
Proof.
  intros Hi Hj. unfold swap. now rewrite !get_put_neq by congruence.
Qed.

Lemma Forall_get (P : nat -> Prop) t :
  (forall k, (k < length t)%nat -> P (get t k)) -> Forall P t.
Proof.
  unfold get. induction t as [|y t IH]; intros Hk; constructor.
  - apply (Hk O). cbn. lia.
  - apply IH. intros k Hlt. apply (Hk (S k)). cbn. lia.
Qed.

Lemma get_firstn t n k : (k < n)%nat -> get (firstn n t) k = get t k.
Proof.
  unfold get. revert n k. induction t as [|y t IH]; intros [|n] [|k] Hk;
    cbn; try lia; try reflexivity.
  apply IH. lia.
Qed.

Lemma get_skipn t n k : get (skipn n t) k = get t (n + k).
Proof.
  unfold get. revert n. induction t as [|y t IH]; intros [|n]; cbn;
    try reflexivity.
  - now destruct k.
  - apply IH.
Qed.

(** A list that is sorted from each cell to the next one. *)
Lemma Sorted_get t :
  (forall k, (S k < length t)%nat -> kle (get t k) (get t (S k))) ->
  Sorted kle t.
Proof.
  unfold get. induction t as [|y t IH]; intros Hk; constructor.
  - apply IH. intros k Hlt. apply (Hk (S k)). cbn. lia.
  - destruct t as [|z t]; constructor. apply (Hk O). cbn. lia.
Qed.

Lemma key_le_transitive : Relations_1.Transitive kle.
Proof. intros a b c. apply key_le_trans. Qed.

(** *** Insertion sort *)

Lemma shift_in_perm vi done : Permutation (shift_in keys vi done) (vi :: done).
Proof.
  induction done as [|pk rest IH]; cbn; [reflexivity|].
  destruct (lessk vi pk); [|reflexivity].
  etransitivity; [apply perm_skip, IH | apply perm_swap].
Qed.

Lemma shift_in_sorted vi done :
  StronglySorted (fun a b => kle b a) done ->
  StronglySorted (fun a b => kle b a) (shift_in keys vi done).
Proof.
  induction 1 as [|pk rest Hs IH Hall]; cbn; [repeat constructor|].
  destruct (lessk vi pk) eqn:E.
  - constructor; [exact IH|].
    eapply Permutation_Forall; [symmetry; apply shift_in_perm|].
    constructor; [now apply less_key_le | exact Hall].
  - constructor; [now constructor|].
    constructor; [exact E|].
    eapply Forall_impl; [|exact Hall]. intros x Hx.
    eapply key_le_trans; [exact Hx | exact E].
Qed.

Lemma StronglySorted_rev (l : list nat) :
  StronglySorted (fun a b => kle b a) l -> StronglySorted kle (rev l).
Proof.
  induction 1 as [|x l Hs IH Hall]; cbn; [constructor|].
  clear Hs. revert IH. 
  assert (Hall' : Forall (fun y => kle y x) (rev l))
    by (apply Forall_rev; exact Hall).
  clear Hall. induction (rev l) as [|y r IHr]; cbn; intros Hs.
  - repeat constructor.
  - inversion Hs as [|? ? Hs' Hy]; subst. inversion Hall'; subst.
    constructor; [now apply IHr|].
    apply Forall_app. split; [exact Hy | now constructor].
Qed.

Lemma insertion_sort_perm t : Permutation (insertion_sort keys t) t.
Proof.
  unfold insertion_sort. rewrite <- Permutation_rev.
  assert (Hg : forall done,
             Permutation (fold_left (fun d vi => shift_in keys vi d) t done)
                         (t ++ done)).
  { induction t as [|x t IH]; intros done; cbn; [reflexivity|].
    rewrite IH. rewrite shift_in_perm. symmetry. apply Permutation_middle. }
  rewrite Hg. now rewrite app_nil_r.
Qed.

Lemma insertion_sort_sorted t : StronglySorted kle (insertion_sort keys t).
Proof.
  unfold insertion_sort. apply StronglySorted_rev.
  assert (Hg : forall done,
             StronglySorted (fun a b => kle b a) done ->
             StronglySorted (fun a b => kle b a)
               (fold_left (fun d vi => shift_in keys vi d) t done)).
  { induction t as [|x t IH]; intros done Hs; cbn; [exact Hs|].
    apply IH, shift_in_sorted, Hs. }
  apply Hg. constructor.
Qed.

End NumpySortFacts.

Section NumpyQuicksortFacts.

Variable keys : list string.

Local Abbreviation lessk := (less keys).
Local Abbreviation kle := (key_le keys).

(** *** The partition *)

Lemma scan_up_spec t vp pj fuel pi :
  (pi < pj)%nat -> (pj <= fuel + pi)%nat ->
  lessk (get t pj) vp = false ->
  (pi < scan_up keys fuel t vp pj pi <= pj)%nat /\
  (forall k, (pi < k < scan_up keys fuel t vp pj pi)%nat ->
             lessk (get t k) vp = true) /\
  lessk (get t (scan_up keys fuel t vp pj pi)) vp = false.
Proof.
  revert pi. induction fuel as [|fuel IH]; intros pi Hlt Hf Hpj; [lia|].
  cbn [scan_up].
  destruct (lessk (get t (S pi)) vp) eqn:E; cbn [andb].
  - destruct (Nat.ltb_spec (S pi) pj) as [Hs|Hs].
    + destruct (IH (S pi) Hs ltac:(lia) Hpj) as (Hb & Hk & Hstop).
      split; [lia|]. split; [|exact Hstop].
      intros k Hk'. destruct (Nat.eq_dec k (S pi)) as [->|Hne]; [exact E|].
      apply Hk. lia.
    + assert (S pi = pj) by lia. subst pj. congruence.
  - split; [lia|]. split; [intros k Hk; lia | exact E].
Qed.

Lemma scan_down_spec t vp pi pj :
  (1 <= pi <= pj)%nat ->
  (scan_down keys t vp pi pj < pj)%nat /\
  (pi <= S (scan_down keys t vp pi pj))%nat /\
  (forall k, (scan_down keys t vp pi pj < k < pj)%nat ->
             lessk vp (get t k) = true) /\
  ((pi < scan_down keys t vp pi pj)%nat ->
   lessk vp (get t (scan_down keys t vp pi pj)) = false).
Proof.
  induction pj as [|pj IH]; intros Hb; [lia|].
  cbn [scan_down].
  destruct (lessk vp (get t pj)) eqn:E; cbn [andb].
  - destruct (Nat.ltb_spec pi pj) as [Hs|Hs].
    + destruct (IH ltac:(lia)) as (H1 & H2 & H3 & H4).
      split; [lia|]. split; [exact H2|]. split; [|exact H4].
      intros k Hk. destruct (Nat.eq_dec k pj) as [->|Hne]; [exact E|].
      apply H3. lia.
    + split; [lia|]. split; [lia|]. split; intros; lia.
  - split; [lia|]. split; [lia|]. split; [intros; lia|]. intros _. exact E.
Qed.

Lemma hoare_loop_spec vp N q fuel t pi pj :
  length t = N -> (S q < N)%nat ->
  (pi < pj <= q)%nat -> (pj - pi <= fuel)%nat ->
  (forall k, (k <= pi)%nat -> lessk vp (get t k) = false) ->
  (forall k, (pj <= k < N)%nat -> lessk (get t k) vp = false) ->
  get t q = vp ->
  length (fst (hoare_loop keys fuel t vp pi pj)) = N /\
  Permutation (fst (hoare_loop keys fuel t vp pi pj)) t /\
  (pi < snd (hoare_loop keys fuel t vp pi pj) <= q)%nat /\
  (forall k, (k < snd (hoare_loop keys fuel t vp pi pj))%nat ->
     lessk vp (get (fst (hoare_loop keys fuel t vp pi pj)) k) = false) /\
  (forall k, (snd (hoare_loop keys fuel t vp pi pj) <= k < N)%nat ->
     lessk (get (fst (hoare_loop keys fuel t vp pi pj)) k) vp = false) /\
  get (fst (hoare_loop keys fuel t vp pi pj)) q = vp.
Proof.
  revert t pi pj.
  induction fuel as [|fuel IH]; intros t pi pj Hlen Hq Hb Hf H3 H4 H5; [lia|].
  cbn [hoare_loop].
  destruct (scan_up_spec t vp pj pj pi) as (Hu1 & Hu2 & Hu3);
    [lia | lia | apply H4; lia |].
  set (pi' := scan_up keys pj t vp pj pi) in *.
  destruct (scan_down_spec t vp pi' pj) as (Hd1 & Hd2 & Hd3 & Hd4); [lia|].
  set (pj' := scan_down keys t vp pi' pj) in *.
  assert (Hlow : forall k, (k < pi')%nat -> lessk vp (get t k) = false).
  { intros k Hk. destruct (Nat.le_gt_cases k pi) as [Hle|Hgt];
      [now apply H3|].
    apply less_key_le, Hu2. lia. }
  assert (Hhigh : forall k, (pj' < k < N)%nat -> lessk (get t k) vp = false).
  { intros k Hk. destruct (Nat.le_gt_cases pj k) as [Hle|Hgt];
      [apply H4; lia|].
    apply less_key_le, Hd3. lia. }
  destruct (Nat.leb_spec pj' pi') as [Hexit|Hcont]; cbn [fst snd].
  - split; [exact Hlen|]. split; [reflexivity|]. split; [lia|].
    split; [exact Hlow|]. split; [|exact H5].
    intros k Hk. destruct (Nat.eq_dec k pi') as [->|Hne]; [exact Hu3|].
    apply Hhigh. lia.
  - destruct (IH (swap t pi' pj') pi' pj') as (I1 & I2 & I3 & I4 & I5 & I6).
    + now rewrite length_swap.
    + exact Hq.
    + lia.
    + lia.
    + intros k Hk. destruct (Nat.eq_dec k pi') as [->|Hne].
      * rewrite get_swap_l by lia. apply Hd4. exact Hcont.
      * rewrite get_swap_other by lia. apply Hlow. lia.
    + intros k Hk. destruct (Nat.eq_dec k pj') as [->|Hne].
      * rewrite get_swap_r by lia. exact Hu3.
      * rewrite get_swap_other by lia. apply Hhigh. lia.
    + rewrite get_swap_other by lia. exact H5.
    + split; [exact I1|]. split.
      { etransitivity; [exact I2|]. apply swap_perm; lia. }
      split; [lia|]. split; [exact I4|]. split; [exact I5 | exact I6].
Qed.

Lemma swap_if_less_spec t i j :
  (i < length t)%nat -> (j < length t)%nat ->
  length (swap_if_less keys t i j) = length t /\
  Permutation (swap_if_less keys t i j) t /\
  kle (get (swap_if_less keys t i j) j) (get (swap_if_less keys t i j) i) /\
  (forall k, k <> i -> k <> j ->
             get (swap_if_less keys t i j) k = get t k) /\
  ((get (swap_if_less keys t i j) i = get t i /\
    get (swap_if_less keys t i j) j = get t j) \/
   (get (swap_if_less keys t i j) i = get t j /\
    get (swap_if_less keys t i j) j = get t i)).
Proof.
  intros Hi Hj. unfold swap_if_less.
  destruct (lessk (get t i) (get t j)) eqn:E.
  - split; [apply length_swap|]. split; [now apply swap_perm|].
    rewrite get_swap_l, get_swap_r by assumption.
    split; [now apply less_key_le|].
    split; [intros k Hki Hkj; now apply get_swap_other|].
    right. now split.
  - split; [reflexivity|]. split; [reflexivity|].
    split; [exact E|]. split; [reflexivity|]. left. now split.
Qed.

Lemma partition_spec t :
  (3 <= length t)%nat ->
  length (fst (partition keys t)) = length t /\
  Permutation (fst (partition keys t)) t /\
  (snd (partition keys t) < length t)%nat /\
  (forall k, (k < snd (partition keys t))%nat ->
     kle (get (fst (partition keys t)) k)
         (get (fst (partition keys t)) (snd (partition keys t)))) /\
  (forall k, (snd (partition keys t) < k < length t)%nat ->
     kle (get (fst (partition keys t)) (snd (partition keys t)))
         (get (fst (partition keys t)) k)).
Proof.
  intros HN. unfold partition.
  set (N := length t) in *.
  set (pr := (N - 1)%nat).
  set (pm := Nat.div2 pr).
  assert (Hpm : (1 <= pm < pr)%nat).
  { unfold pm. rewrite Nat.div2_div. unfold pr.
    split; [apply Nat.div_le_lower_bound; lia
           | apply Nat.Div0.div_lt_upper_bound; lia]. }
  destruct (swap_if_less_spec t pm 0) as (L1 & P1 & O1 & K1 & _);
    [fold N; lia | fold N; lia |].
  set (t1 := swap_if_less keys t pm 0) in *.
  destruct (swap_if_less_spec t1 pr pm) as (L2 & P2 & O2 & K2 & C2);
    [rewrite L1; fold N; unfold pr; lia | rewrite L1; fold N; lia |].
  set (t2 := swap_if_less keys t1 pr pm) in *.
  assert (O2' : kle (get t2 0) (get t2 pr)).
  { rewrite (K2 O) by lia. destruct C2 as [[E1 E2]|[E1 E2]].
    - rewrite E1. eapply key_le_trans; [exact O1|].
      rewrite <- E1, <- E2. exact O2.
    - rewrite E1. exact O1. }
  destruct (swap_if_less_spec t2 pm 0) as (L3 & P3 & O3 & K3 & C3);
    [rewrite L2, L1; fold N; lia | rewrite L2, L1; fold N; lia |].
  set (t3 := swap_if_less keys t2 pm 0) in *.
  assert (O3' : kle (get t3 pm) (get t3 pr)).
  { rewrite (K3 pr) by lia. destruct C3 as [[E1 E2]|[E1 E2]].
    - rewrite E1. exact O2.
    - rewrite E1. exact O2'. }
  assert (L3' : length t3 = N) by (rewrite L3, L2, L1; reflexivity).
  set (vp := get t3 pm).
  set (q := (pr - 1)%nat).
  assert (Hq : (S q = pr)%nat) by (unfold q; lia).
  assert (L4 : length (swap t3 pm q) = N) by now rewrite length_swap.
  rewrite L4.
  destruct (hoare_loop_spec vp N q N (swap t3 pm q) 0 q)
    as (I1 & I2 & I3 & I4 & I5 & I6).
  - exact L4.
  - unfold pr in Hq. lia.
  - lia.
  - lia.
  - intros k Hk. assert (k = O) by lia. subst k.
    rewrite get_swap_other by lia. exact O3.
  - intros k Hk. destruct (Nat.eq_dec k q) as [->|Hne].
    + rewrite get_swap_r by lia. apply key_le_refl.
    + assert (k = pr) by (unfold pr in *; lia). subst k.
      rewrite get_swap_other by lia. exact O3'.
  - apply get_swap_r. lia.
  - destruct (hoare_loop keys N (swap t3 pm q) vp 0 q) as [t5 pi] eqn:E5.
    cbn [fst snd] in *.
    assert (Eq : (pr - 1)%nat = q) by reflexivity.
    split; [now rewrite length_swap|]. split.
    { etransitivity; [apply swap_perm; lia|].
      etransitivity; [exact I2|].
      etransitivity; [apply swap_perm; lia|].
      etransitivity; [exact P3|]. etransitivity; [exact P2 | exact P1]. }
    split; [unfold pr in *; lia|].
    rewrite (get_swap_l t5 pi q) by lia. rewrite I6. split.
    + intros k Hk. rewrite get_swap_other by lia. apply I4. exact Hk.
    + intros k Hk. destruct (Nat.eq_dec k q) as [->|Hne].
      * rewrite get_swap_r by lia. apply I5. lia.
      * rewrite get_swap_other by lia. apply I5. lia.
Qed.

End NumpyQuicksortFacts.

Section NumpyHeapsortFacts.

Variable keys : list string.

Local Abbreviation lessk := (less keys).
Local Abbreviation kle := (key_le keys).

(** *** Heapsort *)

Lemma length_put1 t i x : length (put1 t i x) = length t.
Proof. apply length_put. Qed.

Lemma get1_put1_eq t i x :
  (1 <= i <= length t)%nat -> get1 (put1 t i x) i = x.
Proof. intros Hi. unfold get1, put1. apply get_put_eq. lia. Qed.

Lemma get1_put1_neq t i k x :
  (1 <= i)%nat -> (1 <= k)%nat -> i <> k -> get1 (put1 t i x) k = get1 t k.
Proof. intros Hi Hk Hne. unfold get1, put1. apply get_put_neq. lia. Qed.

Lemma put1_get1 t i : put1 t i (get1 t i) = t.
Proof. apply put_get. Qed.

(** Moving the hole from [i] to [j] is a swap of the two cells. *)
Lemma hole_moves t tmp i j :
  (1 <= i <= length t)%nat -> (1 <= j <= length t)%nat -> i <> j ->
  Permutation (put1 (put1 t i (get1 t j)) j tmp) (put1 t i tmp).
Proof.
  intros Hi Hj Hne. unfold put1, get1.
  assert (E : put (put t (i - 1) (get t (j - 1))) (j - 1) tmp
              = swap (put t (i - 1) tmp) (i - 1) (j - 1)).
  { unfold swap. rewrite get_put_neq by lia. rewrite get_put_eq by lia.
    now rewrite put_put. }
  rewrite E. apply swap_perm; rewrite length_put; lia.
Qed.

Ltac get1s :=
  repeat first
    [ rewrite get1_put1_eq by (rewrite ?length_put1; lia)
    | rewrite get1_put1_neq by lia ].

Lemma sift_spec n l fuel t tmp i :
  (1 <= l <= i)%nat -> (i <= n)%nat -> (n <= length t)%nat ->
  (n < i + fuel)%nat ->
  (forall k, (l <= k <= n)%nat -> k <> i -> heap_at keys (put1 t i tmp) n k) ->
  ((l <= i / 2)%nat ->
   forall c, c = (2 * i)%nat \/ c = (2 * i + 1)%nat -> (c <= n)%nat ->
             kle (get1 t c) (get1 t (i / 2))) ->
  length (sift keys fuel t tmp n i (i + i)) = length t /\
  Permutation (sift keys fuel t tmp n i (i + i)) (put1 t i tmp) /\
  (forall k, (n < k)%nat ->
     get1 (sift keys fuel t tmp n i (i + i)) k = get1 (put1 t i tmp) k) /\
  (forall P : nat -> Prop,
     (forall k, (1 <= k <= n)%nat -> P (get1 (put1 t i tmp) k)) ->
     forall k, (1 <= k <= n)%nat ->
               P (get1 (sift keys fuel t tmp n i (i + i)) k)) /\
  (forall k, (l <= k <= n)%nat ->
     heap_at keys (sift keys fuel t tmp n i (i + i)) n k).
Proof.
  revert t i.
  induction fuel as [|fuel IH]; intros t i Hl Hi Hn Hf Hheap Hpar; [lia|].
  cbn [sift].
  assert (Hdone :
    (forall c, c = (2 * i)%nat \/ c = (2 * i + 1)%nat -> (c <= n)%nat ->
               kle (get1 t c) tmp) ->
    length (put1 t i tmp) = length t /\
    Permutation (put1 t i tmp) (put1 t i tmp) /\
    (forall k, (n < k)%nat -> get1 (put1 t i tmp) k = get1 (put1 t i tmp) k) /\
    (forall P : nat -> Prop,
       (forall k, (1 <= k <= n)%nat -> P (get1 (put1 t i tmp) k)) ->
       forall k, (1 <= k <= n)%nat -> P (get1 (put1 t i tmp) k)) /\
    (forall k, (l <= k <= n)%nat -> heap_at keys (put1 t i tmp) n k)).
  { intros Hc. split; [apply length_put1|]. split; [reflexivity|].
    split; [reflexivity|]. split; [intros P HP; exact HP|].
    intros k Hk. destruct (Nat.eq_dec k i) as [->|Hne]; [|now apply Hheap].
    split; intros Hle; get1s.
    - apply Hc; [now left | exact Hle].
    - apply Hc; [now right | exact Hle]. }
  destruct (Nat.leb_spec (i + i) n) as [Hj|Hj];
    [|apply Hdone; intros c Hc Hcn; lia].
  set (j := if (i + i <? n)%nat && lessk (get1 t (i + i)) (get1 t (i + i + 1))
            then (i + i + 1)%nat else (i + i)%nat).
  assert (Hjj : (j = (i + i)%nat \/ j = (i + i + 1)%nat) /\ (j <= n)%nat /\
                forall c, c = (2 * i)%nat \/ c = (2 * i + 1)%nat ->
                          (c <= n)%nat -> kle (get1 t c) (get1 t j)).
  { unfold j. destruct (Nat.ltb_spec (i + i) n) as [Hlt|Hge]; cbn [andb].
    - destruct (lessk (get1 t (i + i)) (get1 t (i + i + 1))) eqn:E.
      + split; [now right|]. split; [lia|].
        intros c [-> | ->] _.
        * replace (2 * i)%nat with (i + i)%nat by lia. now apply less_key_le.
        * replace (2 * i + 1)%nat with (i + i + 1)%nat by lia.
          apply key_le_refl.
      + split; [now left|]. split; [lia|].
        intros c [-> | ->] _.
        * replace (2 * i)%nat with (i + i)%nat by lia. apply key_le_refl.
        * replace (2 * i + 1)%nat with (i + i + 1)%nat by lia. exact E.
    - split; [now left|]. split; [lia|].
      intros c [-> | ->] Hc; [|lia].
      replace (2 * i)%nat with (i + i)%nat by lia. apply key_le_refl. }
  destruct Hjj as (Hj2 & Hjn & Hbig). clearbody j.
  destruct (lessk tmp (get1 t j)) eqn:E.
  - assert (Hij : i <> j) by lia.
    destruct (IH (put1 t i (get1 t j)) j) as (I1 & I2 & I3 & I4 & I5).
    + lia.
    + exact Hjn.
    + now rewrite length_put1.
    + lia.
    + intros k Hk Hkj. destruct (Nat.eq_dec k i) as [->|Hki].
      * split; intros Hle.
        -- get1s. destruct (Nat.eq_dec (2 * i) j) as [<-|Hc].
           ++ get1s. now apply less_key_le.
           ++ get1s. apply Hbig; [now left | lia].
        -- get1s. destruct (Nat.eq_dec (2 * i + 1) j) as [<-|Hc].
           ++ get1s. now apply less_key_le.
           ++ get1s. apply Hbig; [now right | lia].
      * destruct (Hheap k Hk Hki) as [Ha Hb].
        assert (Hdiv : forall c, (c = 2 * k \/ c = 2 * k + 1)%nat -> c = i ->
                                 (i / 2)%nat = k).
        { intros c Hc ->. destruct Hc as [-> | ->].
          - rewrite Nat.mul_comm. apply Nat.div_mul. lia.
          - rewrite Nat.mul_comm, Nat.add_comm.
            rewrite Nat.div_add by lia. reflexivity. }
        split; intros Hle.
        -- specialize (Ha Hle).
           destruct (Nat.eq_dec (2 * k) i) as [Hc|Hc].
           ++ rewrite Hc. get1s.
              rewrite <- (Hdiv (2 * k)%nat (or_introl eq_refl) Hc).
              apply Hpar; [rewrite (Hdiv (2 * k)%nat (or_introl eq_refl) Hc); lia
                          | lia | exact Hjn].
           ++ revert Ha. get1s. exact (fun x => x).
        -- specialize (Hb Hle).
           destruct (Nat.eq_dec (2 * k + 1) i) as [Hc|Hc].
           ++ rewrite Hc. get1s.
              rewrite <- (Hdiv (2 * k + 1)%nat (or_intror eq_refl) Hc).
              apply Hpar;
                [rewrite (Hdiv (2 * k + 1)%nat (or_intror eq_refl) Hc); lia
                | lia | exact Hjn].
           ++ revert Hb. get1s. exact (fun x => x).
    + intros _ c Hc Hcn.
      assert (Ej : (j / 2)%nat = i).
      { destruct Hj2 as [-> | ->].
        - replace (i + i)%nat with (i * 2)%nat by lia. apply Nat.div_mul. lia.
        - replace (i + i + 1)%nat with (1 + i * 2)%nat by lia.
          rewrite Nat.div_add by lia. reflexivity. }
      rewrite Ej. get1s.
      destruct (Hheap j ltac:(lia) ltac:(lia)) as [Ha Hb].
      destruct Hc as [-> | ->].
      * specialize (Ha Hcn). revert Ha. get1s. exact (fun x => x).
      * specialize (Hb Hcn). revert Hb. get1s. exact (fun x => x).
    + split; [now rewrite I1, length_put1|]. split.
      { etransitivity; [exact I2|]. apply hole_moves; lia. }
      split.
      { intros k Hk. rewrite (I3 k Hk). now get1s. }
      split; [|exact I5].
      intros P HP. apply I4. intros k Hk.
      destruct (Nat.eq_dec k j) as [->|Hkj].
      * get1s. specialize (HP i ltac:(lia)). revert HP. get1s.
        exact (fun x => x).
      * destruct (Nat.eq_dec k i) as [->|Hki].
        -- get1s. specialize (HP j ltac:(lia)). revert HP. get1s.
           exact (fun x => x).
        -- get1s. specialize (HP k Hk). revert HP. get1s.
           exact (fun x => x).
  - apply Hdone. intros c Hc Hcn.
    eapply key_le_trans; [apply Hbig; assumption | exact E].
Qed.

Lemma heap_at_fewer t n n' i :
  (n' <= n)%nat -> heap_at keys t n i -> heap_at keys t n' i.
Proof. intros Hn [Ha Hb]. split; intros Hle; [apply Ha | apply Hb]; lia. Qed.

Lemma build_heap_spec n l t :
  (2 * l <= n)%nat -> (n <= length t)%nat ->
  (forall k, (l + 1 <= k <= n)%nat -> heap_at keys t n k) ->
  length (build_heap keys l t n) = length t /\
  Permutation (build_heap keys l t n) t /\
  (forall k, (1 <= k <= n)%nat -> heap_at keys (build_heap keys l t n) n k).
Proof.
  revert t. induction l as [|l IH]; intros t Hl Hn Hheap; cbn [build_heap].
  - split; [reflexivity|]. split; [reflexivity|].
    intros k Hk. apply Hheap. lia.
  - destruct (sift_spec n (S l) n t (get1 t (S l)) (S l))
      as (S1 & S2 & _ & _ & S5).
    + lia.
    + lia.
    + exact Hn.
    + lia.
    + intros k Hk Hne. rewrite put1_get1. apply Hheap. lia.
    + intros Hdiv. exfalso.
      assert ((S l / 2 < S l)%nat) by (apply Nat.div_lt; lia). lia.
    + rewrite put1_get1 in S2.
      destruct (IH (sift keys n t (get1 t (S l)) n (S l) (S l + S l)))
        as (I1 & I2 & I3).
      * lia.
      * now rewrite S1.
      * intros k Hk. apply S5. lia.
      * split; [now rewrite I1|]. split; [|exact I3].
        etransitivity; [exact I2 | exact S2].
Qed.

(** The first cell of a heap is not before any other one. *)
Lemma heap_max t n :
  (forall k, (1 <= k <= n)%nat -> heap_at keys t n k) ->
  forall k, (1 <= k <= n)%nat -> kle (get1 t k) (get1 t 1).
Proof.
  intros Hheap k. induction k as [k IH] using (well_founded_induction lt_wf).
  intros Hk. destruct (Nat.eq_dec k 1) as [->|Hne]; [apply key_le_refl|].
  assert (Hp : (1 <= k / 2 < k)%nat).
  { split; [apply Nat.div_le_lower_bound; lia | apply Nat.div_lt; lia]. }
  eapply key_le_trans; [|apply (IH (k / 2)%nat); lia].
  destruct (Hheap (k / 2)%nat ltac:(lia)) as [Ha Hb].
  pose proof (Nat.div_mod_eq k 2) as Hdm.
  assert (Hm : (k mod 2 = 0 \/ k mod 2 = 1)%nat).
  { pose proof (Nat.mod_upper_bound k 2). lia. }
  destruct Hm as [Hm|Hm]; rewrite Hm in Hdm.
  - replace k with (2 * (k / 2))%nat at 1 by lia. apply Ha. lia.
  - replace k with (2 * (k / 2) + 1)%nat at 1 by lia. apply Hb. lia.
Qed.

Lemma drain_heap_spec n t :
  (n <= length t)%nat ->
  (forall k, (1 <= k <= n)%nat -> heap_at keys t n k) ->
  (forall k, (n < k < length t)%nat -> kle (get1 t k) (get1 t (k + 1))) ->
  (forall k, (1 <= k <= n)%nat -> (n < length t)%nat ->
             kle (get1 t k) (get1 t (n + 1))) ->
  length (drain_heap keys n t) = length t /\
  Permutation (drain_heap keys n t) t /\
  (forall k, (1 <= k < length t)%nat ->
     kle (get1 (drain_heap keys n t) k) (get1 (drain_heap keys n t) (k + 1))).
Proof.
  revert t. induction n as [n IH] using (well_founded_induction lt_wf).
  intros t Hn Hheap Hsorted Hbelow.
  destruct n as [|[|m]].
  - cbn [drain_heap]. split; [reflexivity|]. split; [reflexivity|].
    intros k Hk. apply Hsorted. lia.
  - cbn [drain_heap]. split; [reflexivity|]. split; [reflexivity|].
    intros k Hk. destruct (Nat.eq_dec k 1) as [->|Hne].
    + apply (Hbelow 1%nat); lia.
    + apply Hsorted. lia.
  - change (drain_heap keys (S (S m)) t)
      with (drain_heap keys (S m)
              (sift keys (S m) (put1 t (S (S m)) (get1 t 1))
                    (get1 t (S (S m))) (S m) 1 (1 + 1))).
    set (n := S (S m)) in *. set (tmp := get1 t n).
    set (t1 := put1 t n (get1 t 1)).
    pose proof (heap_max t n Hheap) as Hmax.
    assert (L1 : length t1 = length t) by apply length_put1.
    destruct (sift_spec (S m) 1 (S m) t1 tmp 1) as (S1 & S2 & S3 & S4 & S5).
    + lia.
    + lia.
    + rewrite L1. unfold n in Hn. lia.
    + lia.
    + intros k Hk Hne.
      destruct (Hheap k ltac:(unfold n; lia)) as [Ha Hb].
      unfold t1. split; intros Hle.
      * specialize (Ha ltac:(unfold n; lia)). revert Ha.
        rewrite !get1_put1_neq by (unfold n; lia). exact (fun x => x).
      * specialize (Hb ltac:(unfold n; lia)). revert Hb.
        rewrite !get1_put1_neq by (unfold n; lia). exact (fun x => x).
    + intros Hdiv. cbn in Hdiv. lia.
    + set (r1 := sift keys (S m) t1 tmp (S m) 1 (1 + 1)) in *.
      assert (Eb : forall k, (1 <= k)%nat ->
                get1 (put1 t1 1 tmp) k
                = if Nat.eqb k 1 then tmp
                  else if Nat.eqb k n then get1 t 1 else get1 t k).
      { intros k Hk. unfold t1.
        destruct (Nat.eqb_spec k 1) as [->|H1].
        - rewrite get1_put1_eq by (rewrite length_put1; unfold n in *; lia).
          reflexivity.
        - rewrite get1_put1_neq by lia.
          destruct (Nat.eqb_spec k n) as [->|H2].
          + rewrite get1_put1_eq by (unfold n in *; lia). reflexivity.
          + rewrite get1_put1_neq by (unfold n in *; lia). reflexivity. }
      destruct (IH (S m) ltac:(lia) r1) as (I1 & I2 & I3).
      * rewrite S1, L1. unfold n in Hn. lia.
      * exact S5.
      * rewrite S1, L1. intros k Hk.
        rewrite (S3 k) by lia. rewrite (S3 (k + 1)%nat) by lia.
        rewrite !Eb by lia.
        destruct (Nat.eqb_spec k 1) as [Hk1|Hk1]; [lia|].
        destruct (Nat.eqb_spec (k + 1) 1) as [Hk2|Hk2]; [lia|].
        destruct (Nat.eqb_spec (k + 1) n) as [Hk3|Hk3]; [unfold n in *; lia|].
        destruct (Nat.eqb_spec k n) as [->|Hk4].
        -- apply (Hbelow 1%nat); unfold n in *; lia.
        -- apply Hsorted. unfold n in *. lia.
      * rewrite S1, L1. intros k Hk Hlt.
        rewrite (S3 (S m + 1)%nat) by lia. rewrite Eb by lia.
        replace (S m + 1)%nat with n by (unfold n; lia).
        rewrite Nat.eqb_refl.
        destruct (Nat.eqb_spec n 1) as [Hn1|_]; [unfold n in Hn1; lia|].
        apply (S4 (fun x => kle x (get1 t 1))); [|exact Hk].
        intros k' Hk'. rewrite Eb by lia.
        destruct (Nat.eqb_spec k' 1) as [_|_];
          [apply Hmax; unfold tmp, n; lia|].
        destruct (Nat.eqb_spec k' n) as [Hk2|_]; [unfold n in Hk2; lia|].
        apply Hmax. unfold n. lia.
      * rewrite S1, L1 in I1, I3.
        split; [exact I1|]. split; [|exact I3].
        etransitivity; [exact I2|]. etransitivity; [exact S2|].
        unfold t1, tmp, put1, get1.
        replace (1 - 1)%nat with O by reflexivity.
        apply (swap_perm t (n - 1) 0); unfold n in *; lia.
Qed.

Lemma npy_aheapsort_perm t : Permutation (npy_aheapsort keys t) t.
Proof.
  unfold npy_aheapsort.
  destruct (build_heap_spec (length t) (Nat.div2 (length t)) t)
    as (B1 & B2 & B3).
  - rewrite Nat.div2_div. apply Nat.Div0.mul_div_le.
  - lia.
  - intros k Hk. rewrite Nat.div2_div in Hk.
    assert ((length t < 2 * k)%nat).
    { pose proof (Nat.div_mod_eq (length t) 2).
      pose proof (Nat.mod_upper_bound (length t) 2). lia. }
    split; intros Hle; lia.
  - destruct (drain_heap_spec (length t)
                (build_heap keys (Nat.div2 (length t)) t (length t)))
      as (D1 & D2 & D3).
    + now rewrite B1.
    + exact B3.
    + rewrite B1. intros k Hk. lia.
    + rewrite B1. intros k Hk Hlt. lia.
    + etransitivity; [exact D2 | exact B2].
Qed.

Lemma npy_aheapsort_sorted t : Sorted kle (npy_aheapsort keys t).
Proof.
  unfold npy_aheapsort.
  destruct (build_heap_spec (length t) (Nat.div2 (length t)) t)
    as (B1 & B2 & B3).
  - rewrite Nat.div2_div. apply Nat.Div0.mul_div_le.
  - lia.
  - intros k Hk. rewrite Nat.div2_div in Hk.
    assert ((length t < 2 * k)%nat).
    { pose proof (Nat.div_mod_eq (length t) 2).
      pose proof (Nat.mod_upper_bound (length t) 2). lia. }
    split; intros Hle; lia.
  - destruct (drain_heap_spec (length t)
                (build_heap keys (Nat.div2 (length t)) t (length t)))
      as (D1 & D2 & D3).
    + now rewrite B1.
    + exact B3.
    + rewrite B1. intros k Hk. lia.
    + rewrite B1. intros k Hk Hlt. lia.
    + apply Sorted_get. rewrite D1, B1. intros k Hk.
      specialize (D3 (S k)). rewrite B1 in D3. specialize (D3 ltac:(lia)).
      unfold get1 in D3.
      replace (S k - 1)%nat with k in D3 by lia.
      replace (S k + 1 - 1)%nat with (S k) in D3 by lia.
      exact D3.
Qed.

End NumpyHeapsortFacts.

Section NumpyArgsortFacts.

Variable keys : list string.

Local Abbreviation lessk := (less keys).
Local Abbreviation kle := (key_le keys).

(** *** Quicksort *)

Lemma skipn_get t n :
  (n < length t)%nat -> skipn n t = get t n :: skipn (S n) t.
Proof.
  unfold get. revert n. induction t as [|y t IH]; intros [|n] Hn; cbn in *;
    try lia; try reflexivity.
  apply IH. lia.
Qed.

Lemma split_at t n :
  (n < length t)%nat -> t = firstn n t ++ [get t n] ++ skipn (S n) t.
Proof.
  intros Hn. rewrite <- (firstn_skipn n t) at 1. f_equal.
  now apply skipn_get.
Qed.

Lemma sorted_around (l r : list nat) (p : nat) :
  StronglySorted kle l -> StronglySorted kle r ->
  Forall (fun x => kle x p) l -> Forall (fun x => kle p x) r ->
  StronglySorted kle (l ++ [p] ++ r).
Proof.
  intros Hl Hr Hlp Hpr. induction Hl as [|x l Hs IH Hx]; cbn.
  - constructor; assumption.
  - inversion Hlp as [|? ? Hxp Hlp']; subst.
    constructor; [now apply IH|].
    apply Forall_app. split; [exact Hx|].
    constructor; [exact Hxp|].
    eapply Forall_impl; [|exact Hpr]. intros y Hy.
    eapply key_le_trans; eassumption.
Qed.

Lemma quicksort_segment_spec fuel popped cdepth t :
  (length t < fuel)%nat ->
  Permutation (quicksort_segment keys fuel popped cdepth t) t /\
  StronglySorted kle (quicksort_segment keys fuel popped cdepth t).
Proof.
  revert popped cdepth t.
  induction fuel as [|fuel IH]; intros popped cdepth t Hf; [lia|].
  cbn [quicksort_segment].
  destruct (popped && (cdepth <? 0)).
  { split; [apply npy_aheapsort_perm|].
    apply Sorted_StronglySorted;
      [apply key_le_transitive | apply npy_aheapsort_sorted]. }
  destruct (Nat.ltb_spec (SMALL_QUICKSORT) (length t - 1)) as [Hbig|Hsmall].
  - unfold SMALL_QUICKSORT in Hbig.
    destruct (partition_spec keys t) as (P1 & P2 & P3 & P4 & P5); [lia|].
    destruct (partition keys t) as [t' pi]. cbn [fst snd] in *.
    set (left := firstn pi t'). set (right := skipn (S pi) t').
    assert (Ll : length left = pi)
      by (unfold left; rewrite length_firstn; lia).
    assert (Lr : (length right = length t - S pi)%nat)
      by (unfold right; rewrite length_skipn; lia).
    destruct (IH (negb (pi <? length t - 1 - pi)%nat) (cdepth - 1) left)
      as [Pl Sl]; [lia|].
    destruct (IH (pi <? length t - 1 - pi)%nat (cdepth - 1) right)
      as [Pr Sr]; [lia|].
    split.
    + etransitivity; [|exact P2].
      etransitivity;
        [|apply Permutation_refl'; symmetry; apply (split_at t' pi); lia].
      apply Permutation_app; [exact Pl|].
      apply Permutation_app; [reflexivity | exact Pr].
    + apply sorted_around; try assumption.
      * eapply Permutation_Forall; [symmetry; exact Pl|].
        apply Forall_get. rewrite Ll. intros k Hk. unfold left.
        rewrite get_firstn by exact Hk. now apply P4.
      * eapply Permutation_Forall; [symmetry; exact Pr|].
        apply Forall_get. rewrite Lr. intros k Hk. unfold right.
        rewrite get_skipn. apply P5. lia.
  - split; [apply insertion_sort_perm | apply insertion_sort_sorted].
Qed.

Lemma npy_aquicksort_perm :
  Permutation (npy_aquicksort keys) (seq 0 (length keys)).
Proof.
  unfold npy_aquicksort. apply quicksort_segment_spec.
  rewrite length_seq. lia.
Qed.

Lemma npy_aquicksort_sorted :
  Sorted str_le
    (map (fun i => nth i keys EmptyString) (npy_aquicksort keys)).
Proof.
  unfold npy_aquicksort.
  destruct (quicksort_segment_spec (S (length keys)) true
              (npy_get_msb (length keys) * 2) (seq 0 (length keys)))
    as [_ Hs]; [rewrite length_seq; lia|].
  apply StronglySorted_Sorted in Hs.
  induction Hs as [|a l Hs IH Hhd]; cbn [map]; constructor; [exact IH|].
  destruct Hhd as [|b l Hab]; cbn [map]; constructor.
  now apply key_le_str_le.
Qed.

End NumpyArgsortFacts.

End NpysortFacts.

(** [sort_values] as the script runs it, on a column of Python strings. *)
Definition numpy_argsort : ArgSort :=
  {| argsort := Npysort.npy_aquicksort;
     argsort_perm := NpysortFacts.npy_aquicksort_perm;
     argsort_sorted := NpysortFacts.npy_aquicksort_sorted |}.

(** ** Sessions and their attributes *)

Lemma tagged_nil pool lo hi : tagged pool lo hi [].
Proof. exists (fun _ => ("", "", 0, PyNone, PyNone)). constructor. Qed.

Lemma tagged_app pool lo mid hi new1 new2 :
  (lo <= mid <= hi)%nat ->
  tagged pool lo mid new1 -> tagged pool mid hi new2 ->
  tagged pool lo hi (new1 ++ new2).
Proof.
  intros Hm [a1 H1] [a2 H2].
  exists (fun c => if (c <? mid)%nat then a1 c else a2 c).
  apply Forall_app. split.
  - eapply Forall_impl; [|exact H1].
    intros e (Hd & Hs & c & Hc & Hsid & Ha). repeat split; try assumption.
    exists c. destruct (Nat.ltb_spec c mid); repeat split; try lia; assumption.
  - eapply Forall_impl; [|exact H2].
    intros e (Hd & Hs & c & Hc & Hsid & Ha). repeat split; try assumption.
    exists c. destruct (Nat.ltb_spec c mid); repeat split; try lia; assumption.
Qed.

Lemma tagged_session pool lo hi c a block :
  (lo <= c < hi)%nat ->
  Forall (fun e => In (device_type e) device_types /\
                   In (traffic_source e) traffic_sources /\
                   session_id e = pool c /\ attrs e = a) block ->
  tagged pool lo hi block.
Proof.
  intros Hc Hall. exists (fun _ => a).
  eapply Forall_impl; [|exact Hall].
  intros e (Hd & Hs & Hsid & Ha). repeat split; try assumption.
  now exists c.
Qed.

Lemma tagged_widen pool lo hi lo' hi' new :
  (lo' <= lo)%nat -> (hi <= hi')%nat ->
  tagged pool lo hi new -> tagged pool lo' hi' new.
Proof.
  intros Hlo Hhi [a Hall]. exists a.
  eapply Forall_impl; [|exact Hall].
  intros e (Hd & Hs & c & Hc & Hrest). repeat split; try assumption.
  exists c. split; [lia | exact Hrest].
Qed.

Lemma tagged_constant pool lo hi new :
  (forall i j, pool i = pool j -> i = j) ->
  tagged pool lo hi new ->
  forall e1 e2, In e1 new -> In e2 new -> session_id e1 = session_id e2 ->
                attrs e1 = attrs e2.
Proof.
  intros Hinj [a Hall] e1 e2 H1 H2 Hsid.
  rewrite Forall_forall in Hall.
  destruct (Hall e1 H1) as (_ & _ & c1 & _ & Hs1 & Ha1).
  destruct (Hall e2 H2) as (_ & _ & c2 & _ & Hs2 & Ha2).
  assert (c1 = c2) by (apply Hinj; congruence). congruence.
Qed.

Lemma str_or_empty_device d : In d device_types -> str_or_empty d = d.
Proof.
  unfold device_types. simpl. intros [<- | [<- | [<- | []]]]; reflexivity.
Qed.

Lemma str_or_empty_source s : In s traffic_sources -> str_or_empty s = s.
Proof.
  unfold traffic_sources. simpl.
  intros [<- | [<- | [<- | [<- | [<- | []]]]]]; reflexivity.
Qed.

Section Attributes.

Context {G R : Type} `{PyRandom G} `{NumpyRandom R}.

Local Abbreviation World := (@World G R).

Variable L : Loaded.

Lemma funnel_block_attrs pool c (row : OrdersJoined.row Clock.Timestamp) d
    first rest :
  In (fd_device d) device_types -> In (fd_source d) traffic_sources ->
  Forall (fun e => In (device_type e) device_types /\
                   In (traffic_source e) traffic_sources /\
                   session_id e = pool c /\
                   attrs e = (fd_device d, fd_source d, 1,
                              or_empty (OrdersJoined.customer_city row),
                              or_empty (OrdersJoined.customer_state row)))
         (funnel_block pool c row d first rest).
Proof.
  intros Hd Hs. unfold funnel_block.
  assert (Hmk : forall i ty t pid oid,
    let e := event_of (pool i) ty (pool c) t (OrdersJoined.customer_id row)
               pid oid (OrdersJoined.customer_city row)
               (OrdersJoined.customer_state row) true (fd_source d)
               (fd_device d) in
    In (device_type e) device_types /\ In (traffic_source e) traffic_sources /\
    session_id e = pool c /\
    attrs e = (fd_device d, fd_source d, 1,
               or_empty (OrdersJoined.customer_city row),
               or_empty (OrdersJoined.customer_state row))).
  { intros i ty t pid oid e. unfold e, attrs, event_of.
    cbn [device_type traffic_source session_id is_authenticated customer_city
         customer_state].
    rewrite (str_or_empty_device _ Hd), (str_or_empty_source _ Hs).
    repeat split; assumption. }
  constructor; [apply Hmk|]. apply Forall_app. split.
  - apply view_block_Forall. intros. apply Hmk.
  - constructor; [apply Hmk|]. constructor; [apply Hmk|].
    constructor; [apply Hmk | constructor].
Qed.

Lemma funnel_loop_tagged rows (w w' : World) :
  funnel_loop L rows w = Ok (tt, w') ->
  uuid_pool w' = uuid_pool w /\
  (uuid_count w <= uuid_count w')%nat /\
  exists new : list event,
    events w' = events w ++ new /\
    tagged (uuid_pool w) (uuid_count w) (uuid_count w') new.
Proof.
  revert w. induction rows as [|row rows IH]; intros w E.
  - injection E as <-. repeat split; [lia|].
    exists []. rewrite app_nil_r. split; [reflexivity | apply tagged_nil].
  - cbn [funnel_loop] in E.
    destruct (funnel_session_effect L row w) as (block & w1 & E1 & Ev1 & Heff).
    rewrite (bind_ok _ _ _ _ _ E1) in E.
    apply IH in E as (Hp & Hc & new & Hev & Htag).
    assert (Hstep : uuid_pool w1 = uuid_pool w /\
                    (uuid_count w <= uuid_count w1)%nat /\
                    tagged (uuid_pool w) (uuid_count w) (uuid_count w1) block).
    { destruct Heff as [(_ & -> & ->) | (Hne & f & r & r' & _ & _ & -> & ->)].
      - repeat split; [lia | apply tagged_nil].
      - cbn [uuid_pool uuid_count]. repeat split; [lia|].
        set (k := Nat.min 3 _).
        pose proof (funnel_draws_spec k (py w)) as (Hd & Hs & _).
        eapply (tagged_session _ _ _ (uuid_count w)); [lia|].
        apply funnel_block_attrs; assumption. }
    destruct Hstep as (Hp1 & Hc1 & Htag1).
    split; [congruence|]. split; [lia|].
    exists (block ++ new). split; [rewrite Hev, Ev1; now rewrite app_assoc|].
    rewrite Hp1 in Htag.
    eapply tagged_app; [|exact Htag1|exact Htag]. lia.
Qed.

Lemma browsing_loop_tagged n src (w w' : World) :
  browsing_loop L n src w = Ok (tt, w') ->
  uuid_pool w' = uuid_pool w /\
  (uuid_count w <= uuid_count w')%nat /\
  exists new : list event,
    events w' = events w ++ new /\
    tagged (uuid_pool w) (uuid_count w) (uuid_count w') new.
Proof.
  revert w. induction n as [|n IH]; intros w E.
  - injection E as <-. repeat split; [lia|].
    exists []. rewrite app_nil_r. split; [reflexivity | apply tagged_nil].
  - cbn [browsing_loop] in E.
    apply bind_inv in E as ([] & w1 & E1 & E).
    apply browsing_session_effect in E1
      as (Hp1 & o & d & m & cust & city & state & auth & source & device
          & first & others & _ & _ & _ & Hdev & Hsrc & Hev1 & Hc1 & _ & Hall1
          & _).
    apply IH in E as (Hp & Hc & new & Hev & Htag).
    split; [congruence|]. split; [lia|].
    exists ((first :: others) ++ new).
    split; [rewrite Hev, Hev1; now rewrite app_assoc|].
    rewrite Hp1 in Htag.
    eapply tagged_app; [| |exact Htag]; [lia|].
    eapply (tagged_session _ _ _ (uuid_count w)
              (device, source, if auth then 1 else 0, or_empty city,
               or_empty state)); [lia|].
    eapply Forall_impl; [|exact Hall1].
    intros e (Hsid & _ & _ & Hd & Hs & Ha & Hci & Hst).
    rewrite (str_or_empty_device _ Hdev) in Hd.
    rewrite (str_or_empty_source _ Hsrc) in Hs.
    unfold attrs. rewrite Hd, Hs, Ha, Hci, Hst.
    repeat split; assumption.
Qed.

Lemma generate_tagged num (w w' : World) :
  generate num L w = Ok (tt, w') ->
  exists new : list event,
    events w' = events w ++ new /\
    tagged (uuid_pool w) (uuid_count w) (uuid_count w') new.
Proof.
  unfold generate. intros E.
  apply bind_inv in E as ([] & w1 & E1 & E2).
  apply funnel_loop_tagged in E1 as (Hp1 & Hc1 & new1 & Hev1 & Htag1).
  apply browsing_loop_tagged in E2 as (Hp2 & Hc2 & new2 & Hev2 & Htag2).
  exists (new1 ++ new2). split; [rewrite Hev2, Hev1; now rewrite app_assoc|].
  rewrite Hp1 in Htag2. eapply tagged_app; [|exact Htag1|exact Htag2]. lia.
Qed.

End Attributes.

(** ** Statements about the whole script *)

Section LoadRuns.

Context {R : Type} `{NumpyRandom R} `{ToDatetime}.







(** Loading stops in the first merge that refuses its key columns. *)
Lemma load_clash max T : keys_clash T = true -> load max T = Raise ValueError.
Proof.
  unfold keys_clash, load, merge_items, merge_orders. intros Hk.
  destruct (key_dtypes_clash (map OrderItems.product_id (order_items T)) _);
    [reflexivity|].
  cbn [orb] in Hk. now rewrite Hk.
Qed.

(** Loading when both merges go through. *)
Lemma load_run max T :
  keys_clash T = false ->
  load max T =
  match qualifying_orders T with
  | [] => Raise (RuntimeError no_delivered_msg)
  | _ :: _ =>
      match
        (if (max <? length (qualifying_orders T))%nat
         then
           match sample_with max (qualifying_orders T) (RandomState 42) with
           | Ok (rows, _) => Ok rows
           | Raise e => Raise e
           end
         else Ok (qualifying_orders T))
      with
      | Raise e => Raise e
      | Ok delivered =>
          Ok (mkLoaded (join_items (order_items T) (products T))
                (joined_orders T) delivered (customers T)
                (unique (dropna (map Products.product_id (products T))))
                (unique (dropna (map Customers.customer_id (customers T)))))
      end
  end.
Proof.
  unfold keys_clash, load, merge_items, merge_orders. intros Hk.
  apply orb_false_iff in Hk as [-> ->]. reflexivity.
Qed.

Lemma load_Ok_keys max T L : load max T = Ok L -> keys_clash T = false.
Proof.
  intros E. destruct (keys_clash T) eqn:Hk; [|reflexivity].
  rewrite (load_clash max T Hk) in E. discriminate.
Qed.

End LoadRuns.

Section Script.

Context {G R : Type} `{PyRandom G} `{NumpyRandom R} `{ToDatetime} `{ArgSort}.

Local Abbreviation World := (@World G R).

Lemma pipeline_inv max num T (np0 : R) pool table :
  pipeline max num T np0 pool = Ok table ->
  exists (L : Loaded) (w1 w2 : World),
    load max T = Ok L /\
    funnel_loop L (delivered_orders L) (mkWorld (seed 42) np0 pool 0 [])
      = Ok (tt, w1) /\
    browsing_loop L num (base_orders_source L) w1 = Ok (tt, w2) /\
    table = sort_values (events w2).
Proof.
  unfold pipeline. destruct (load max T) as [L|e]; [|discriminate].
  destruct (bind _ _ _) as [[tbl w3]|e] eqn:E; [|discriminate].
  intros Et. injection Et as ->.
  apply bind_inv in E as ([] & w2 & Eg & Ef).
  unfold generate in Eg. apply bind_inv in Eg as ([] & w1 & E1 & E2).
  exists L, w1, w2. repeat split; try assumption.
  unfold finalize in Ef. destruct (events w2); [discriminate|].
  now injection Ef as <- _.
Qed.

(** C7. In the table that a run writes, provided the identifiers that
    [uuid4] hands out during the run are pairwise different, two events with
    the same [session_id] have the same device, traffic source,
    authentication flag, city and state; and every event has one of the
    three devices and one of the five traffic sources. *)
Theorem session_attributes_constant max num T (np0 : R) pool table :
  pipeline max num T np0 pool = Ok table ->
  (forall i j : nat, pool i = pool j -> i = j) ->
  (forall e1 e2 : event,
     In e1 table -> In e2 table -> session_id e1 = session_id e2 ->
     device_type e1 = device_type e2 /\
     traffic_source e1 = traffic_source e2 /\
     is_authenticated e1 = is_authenticated e2 /\
     customer_city e1 = customer_city e2 /\
     customer_state e1 = customer_state e2) /\
  Forall (fun e => In (device_type e) device_types /\
                   In (traffic_source e) traffic_sources) table.
Proof.
  intros E Hinj. apply pipeline_inv in E as (L & w1 & w2 & El & E1 & E2 & ->).
  assert (Eg : generate num L (mkWorld (seed 42) np0 pool 0 []) = Ok (tt, w2)).
  { unfold generate. now rewrite (bind_ok _ _ _ _ _ E1). }
  apply generate_tagged in Eg as (new & Hev & Htag).
  cbn [events uuid_pool uuid_count app] in Hev, Htag. rewrite Hev.
  assert (Hin : forall e, In e (sort_values new) -> In e new).
  { intros e He. eapply Permutation_in; [|exact He].
    apply Permutation_sym, sort_values_perm. }
  split.
  - intros e1 e2 Hin1 Hin2 Hsid.
    pose proof (tagged_constant _ _ _ _ Hinj Htag e1 e2 (Hin _ Hin1)
                  (Hin _ Hin2) Hsid) as Ha.
    unfold attrs in Ha. injection Ha as -> -> -> -> ->. repeat split.
  - apply Forall_forall. intros e He. apply Hin in He.
    destruct Htag as [a Hall]. rewrite Forall_forall in Hall.
    destruct (Hall e He) as (Hd & Hs & _). split; assumption.
Qed.

(** C9, as the code has it. When both merges have gone through and the
    filter leaves no delivered order with a timestamp, the script raises
    [RuntimeError] with the message ["No delivered orders found. Check your
    CSV content."] while it loads: no event is generated and no table is
    written.  Nothing catches the exception: the run ends with the
    interpreter's stack trace, whose last line is the exception with that
    message, and with exit status 1. *)
Theorem no_delivered_orders_aborts max num T (np0 : R) pool :
  keys_clash T = false ->
  qualifying_orders T = [] ->
  load max T = Raise (RuntimeError no_delivered_msg) /\
  pipeline max num T np0 pool = Raise (RuntimeError no_delivered_msg) /\
  no_delivered_msg = "No delivered orders found. Check your CSV content." /\
  ending (pipeline max num T np0 pool)
    = Traceback (RuntimeError no_delivered_msg) /\
  stderr_first (ending (pipeline max num T np0 pool))
    = Some "Traceback (most recent call last):" /\
  stderr_last (ending (pipeline max num T np0 pool))
    = Some "RuntimeError: No delivered orders found. Check your CSV content." /\
  exit_status (ending (pipeline max num T np0 pool)) = 1.
Proof.
  intros Hk Hq.
  assert (El : load max T = Raise (RuntimeError no_delivered_msg))
    by (rewrite (load_run max T Hk); now rewrite Hq).
  assert (Ep : pipeline max num T np0 pool
               = Raise (RuntimeError no_delivered_msg))
    by (unfold pipeline; now rewrite El).
  split; [exact El|]. split; [exact Ep|]. rewrite Ep. repeat split.
Qed.

Lemma load_delivered max T L :
  (0 < max)%nat -> load max T = Ok L ->
  delivered_orders L <> [] /\ incl (delivered_orders L) (qualifying_orders T).
Proof.
  intros Hmax El. pose proof (load_Ok_keys max T L El) as Hk.
  revert El. rewrite (load_run max T Hk).
  destruct (qualifying_orders T) as [|o q] eqn:Eq; [discriminate|].
  destruct (Nat.ltb_spec max (length (o :: q))) as [Hlt | Hge].
  - assert (Hle : (max <= length (o :: q))%nat) by lia.
    destruct (sample_with_spec max (o :: q) (RandomState 42) Hle)
      as (rs & r' & Es & Hlen & Hincl).
    rewrite Es. intros E. injection E as <-. cbn [delivered_orders].
    split; [|exact Hincl]. destruct rs; [simpl in Hlen; lia | discriminate].
  - intros E. injection E as <-. cbn [delivered_orders].
    split; [discriminate | apply incl_refl].
Qed.

(** C10. With a positive cap on purchase sessions (it is 10000), a run
    that gets past loading has a non-empty frame of delivered orders, all
    with status [delivered] and a timestamp; so the browsing loop samples
    its reference orders from that frame, never from the frame of all
    orders, and the base time of every browsing session, at which its first
    event is stamped, is the timestamp of a delivered order minus 1 to 60
    days and 0 to 1440 minutes: never [NaT]. *)
Theorem browsing_base_time_from_delivered max T L :
  (0 < max)%nat ->
  load max T = Ok L ->
  delivered_orders L <> [] /\
  base_orders_source L = delivered_orders L /\
  Forall (fun o : OrdersJoined.row Clock.Timestamp =>
            OrdersJoined.order_status o = PyStr "delivered" /\
            exists t, OrdersJoined.order_purchase_timestamp o = Some t)
         (delivered_orders L) /\
  forall w w' : World,
    browsing_session L (base_orders_source L) w = Ok (tt, w') ->
    exists (o : OrdersJoined.row Clock.Timestamp) (t d m : Z)
           (first : event) (others : list event),
      In o (delivered_orders L) /\
      OrdersJoined.order_purchase_timestamp o = Some t /\
      1 <= d <= 60 /\ 0 <= m <= 1440 /\
      events w' = events w ++ first :: others /\
      event_ts first = Clock.isoformat_secs (t - (86400 * d + 60 * m)).
Proof.
  intros Hmax El. destruct (load_delivered max T L Hmax El) as [Hne Hincl].
  assert (Hsrc : base_orders_source L = delivered_orders L).
  { unfold base_orders_source. destruct (delivered_orders L); congruence. }
  assert (Hall : Forall
            (fun o : OrdersJoined.row Clock.Timestamp =>
               OrdersJoined.order_status o = PyStr "delivered" /\
               exists t, OrdersJoined.order_purchase_timestamp o = Some t)
            (delivered_orders L)).
  { apply Forall_forall. intros o Ho. apply Hincl in Ho.
    unfold qualifying_orders in Ho.
    apply filter_In in Ho as [Ho Hts]. apply filter_In in Ho as [_ Hst].
    unfold is_delivered, cell_eq in Hst. unfold has_timestamp in Hts.
    destruct o as [oid cid st ts cu ci cs].
    cbn [OrdersJoined.order_status OrdersJoined.order_purchase_timestamp] in *.
    split.
    - destruct st as [| |s]; try discriminate.
      apply String.eqb_eq in Hst. now subst.
    - destruct ts as [t|]; [now exists t | discriminate]. }
  repeat split; try assumption.
  intros w w' E. rewrite Hsrc in E.
  apply browsing_session_effect in E
    as (_ & o & d & m & cust & city & state & auth & source & device & first
        & others & Ho & Hd & Hm & _ & _ & Hev & _ & _ & _ & Hts).
  rewrite Forall_forall in Hall. destruct (Hall o Ho) as [_ [t Ht]].
  exists o, t, d, m, first, others.
  repeat split; try assumption; try lia.
  rewrite Hts, Ht. cbn [Clock.ts_sub Clock.isoformat]. f_equal.
  unfold Clock.timedelta. lia.
Qed.

End Script.

Section WrittenTable.

Context {G R : Type} `{PyRandom G} `{NumpyRandom R} `{ToDatetime}.

Local Abbreviation World := (@World G R).

(** C5, as the code has it. The table that is written holds every event
    of both generators, the funnel events and then the browsing events,
    rearranged by numpy's quicksort so that the [event_ts] strings never
    decrease; and the order of these strings is the order of the timestamps
    they render, for timestamps that a [datetime] can be (the years 1 to
    9999).  What the sort does not do is keep events with equal timestamps
    in the order in which they were generated. *)
Theorem output_sorted_by_event_ts max num T (np0 : R) pool table :
  @pipeline G R _ _ _ numpy_argsort max num T np0 pool = Ok table ->
  (exists (L : Loaded) (w1 w2 : World) (browsing : list event),
     load max T = Ok L /\
     funnel_loop L (delivered_orders L) (mkWorld (seed 42) np0 pool 0 [])
       = Ok (tt, w1) /\
     events w1 =
       concat (session_blocks L (delivered_orders L)
                 (mkWorld (seed 42) np0 pool 0 [])) /\
     browsing_loop L num (base_orders_source L) w1 = Ok (tt, w2) /\
     events w2 = events w1 ++ browsing /\
     table = @sort_values numpy_argsort (events w1 ++ browsing) /\
     Permutation (events w1 ++ browsing) table) /\
  Sorted str_le (map event_ts table) /\
  (forall t1 t2 : Z,
     Clock.in_range t1 -> Clock.in_range t2 ->
     (str_le (Clock.isoformat_secs t1) (Clock.isoformat_secs t2) <-> t1 <= t2)).
Proof.
  intros E.
  apply (@pipeline_inv G R _ _ _ numpy_argsort) in E
    as (L & w1 & w2 & El & E1 & E2 & ->).
  split; [|split].
  - destruct (funnel_loop_run L (delivered_orders L)
                (mkWorld (seed 42) np0 pool 0 [])) as (w1' & E1' & Hev1 & _).
    rewrite E1 in E1'. injection E1' as <-.
    destruct (browsing_loop_effect L num _ w1 w2 E2) as (_ & _ & new & Hev2 & _).
    exists L, w1, w2, new. repeat split; try assumption.
    + now rewrite <- Hev2.
    + rewrite <- Hev2. apply (@sort_values_perm numpy_argsort).
  - apply (@sort_values_sorted numpy_argsort).
  - intros t1 t2. apply ClockFacts.isoformat_le.
Qed.

End WrittenTable.

Section BrowsingTheorem.

Context {G R : Type} `{PyRandom G} `{NumpyRandom R}.

Local Abbreviation World := (@World G R).

(** C6. Every event that the browsing loop appends to [events] is a
    [page_view], a [view_product] or an [add_to_cart]: none is a [checkout]
    or a [purchase]. *)
Theorem browsing_never_checkout_or_purchase (L : Loaded) (n : nat)
    (src : list (OrdersJoined.row Clock.Timestamp)) (w w' : World) :
  browsing_loop L n src w = Ok (tt, w') ->
  exists new : list event,
    events w' = events w ++ new /\
    Forall (fun e => In (event_type e)
                        ["page_view"; "view_product"; "add_to_cart"] /\
                     event_type e <> "checkout" /\
                     event_type e <> "purchase") new.
Proof.
  intros E. apply browsing_loop_effect in E as (_ & _ & new & Hev & Hall).
  exists new. split; [exact Hev|].
  eapply Forall_impl; [|exact Hall].
  unfold browsing_types. intros e He. split; [exact He|].
  simpl in He. destruct He as [<- | [<- | [<- | []]]]; split; discriminate.
Qed.

End BrowsingTheorem.

(** ** The statements on concrete runs *)

Lemma counter_pool_inj (i j : nat) :
  Demo.counter_pool i = Demo.counter_pool j -> i = j.
Proof.
  unfold Demo.counter_pool. cbn [String.append]. intros E.
  injection E as E.
  apply (f_equal NilEmpty.uint_of_string) in E.
  rewrite !NilEmpty.usu in E. injection E as E.
  apply (f_equal Nat.of_uint) in E.
  now rewrite !DecimalNat.Unsigned.of_to in E.
Qed.

(** The session of [o1] in the reference run: its clocks are 11:50:00,
    11:50:15, 11:50:40, 11:51:15 and 11:51:24, before the purchase at
    12:00:00. *)
Lemma funnel_timestamps_witness :
  OrdersJoined.order_purchase_timestamp Demo.row_o1 = Some 1577880000 /\
  items_of Demo.loaded (OrdersJoined.order_id Demo.row_o1) <> [] /\
  exists (w' : @World (list Z) bool) (block : list event) (ts : list Z),
    @funnel_session (list Z) bool Demo.rng Demo.flag_numpy Demo.loaded
      Demo.row_o1 (Demo.world0 false) = Ok (tt, w') /\
    events w' = events (Demo.world0 false) ++ block /\
    map event_ts block =
      map Clock.isoformat_secs ts ++ [Clock.isoformat_secs 1577880000] /\
    chain 5 40 ts /\
    Sorted Z.le ts.
Proof.
  split; [reflexivity|]. split; [vm_compute; discriminate|].
  destruct (@funnel_timestamps (list Z) bool Demo.rng Demo.flag_numpy
              Demo.loaded Demo.row_o1 (Demo.world0 false) 1577880000
              eq_refl ltac:(vm_compute; discriminate))
    as (w' & block & ts & E & Ev & _ & Hts & _ & Hc & Hs & _).
  exists w', block, ts. repeat split; assumption.
Defined.

Lemma purchase_after_checkout_witness :
  OrdersJoined.order_purchase_timestamp Demo.row_o1 = Some 1577880000 /\
  items_of Demo.loaded (OrdersJoined.order_id Demo.row_o1) <> [] /\
  exists (w' : @World (list Z) bool) (pre : list event) (co pu : event) (c : Z),
    @funnel_session (list Z) bool Demo.rng Demo.flag_numpy Demo.loaded
      Demo.row_o1 (Demo.world0 false) = Ok (tt, w') /\
    events w' = events (Demo.world0 false) ++ pre ++ [co; pu] /\
    event_type co = "checkout" /\
    event_type pu = "purchase" /\
    event_ts co = Clock.isoformat_secs c /\
    event_ts pu = Clock.isoformat_secs 1577880000 /\
    c + 100 <= 1577880000 <= c + 2385.
Proof.
  split; [reflexivity|]. split; [vm_compute; discriminate|].
  destruct (@purchase_after_checkout (list Z) bool Demo.rng Demo.flag_numpy
              Demo.loaded Demo.row_o1 (Demo.world0 false) 1577880000
              eq_refl ltac:(vm_compute; discriminate))
    as (w' & pre & co & pu & c & E & Ev & Hco & Hpu & Htc & Htp & Hb & _).
  exists w', pre, co, pu, c. repeat split; try assumption; apply Hb.
Defined.

Lemma output_sorted_by_event_ts_witness :
  @pipeline (list Z) bool Demo.rng Demo.flag_numpy Demo.iso_parser
    numpy_argsort 10 1 Demo.tables false Demo.counter_pool
  = Ok Demo.table /\
  Sorted str_le (map event_ts Demo.table).
Proof.
  assert (E : @pipeline (list Z) bool Demo.rng Demo.flag_numpy Demo.iso_parser
    numpy_argsort 10 1 Demo.tables false Demo.counter_pool
              = Ok Demo.table) by (vm_compute; reflexivity).
  split; [exact E|].
  exact (proj1 (proj2 (@output_sorted_by_event_ts (list Z) bool Demo.rng
                         Demo.flag_numpy Demo.iso_parser
                         10%nat 1%nat Demo.tables false Demo.counter_pool
                         Demo.table E))).
Defined.

Lemma browsing_never_checkout_or_purchase_witness :
  @browsing_loop (list Z) bool Demo.rng Demo.flag_numpy Demo.loaded 2
    (base_orders_source Demo.loaded) (Demo.world0 false)
  = Ok (tt, Demo.after_browsing) /\
  exists new : list event,
    events Demo.after_browsing = events (Demo.world0 false) ++ new /\
    Forall (fun e => In (event_type e)
                        ["page_view"; "view_product"; "add_to_cart"] /\
                     event_type e <> "checkout" /\
                     event_type e <> "purchase") new.
Proof.
  assert (E : @browsing_loop (list Z) bool Demo.rng Demo.flag_numpy Demo.loaded
                2 (base_orders_source Demo.loaded) (Demo.world0 false)
              = Ok (tt, Demo.after_browsing)) by (vm_compute; reflexivity).
  split; [exact E|].
  exact (@browsing_never_checkout_or_purchase (list Z) bool Demo.rng
           Demo.flag_numpy Demo.loaded 2%nat (base_orders_source Demo.loaded)
           (Demo.world0 false) Demo.after_browsing E).
Defined.

Lemma session_attributes_constant_witness :
  @pipeline (list Z) bool Demo.rng Demo.flag_numpy Demo.iso_parser
    Demo.stable_argsort 10 1 Demo.tables false Demo.counter_pool
  = Ok Demo.table /\
  (forall i j : nat, Demo.counter_pool i = Demo.counter_pool j -> i = j) /\
  Forall (fun e => In (device_type e) device_types /\
                   In (traffic_source e) traffic_sources) Demo.table.
Proof.
  assert (E : @pipeline (list Z) bool Demo.rng Demo.flag_numpy Demo.iso_parser
    Demo.stable_argsort 10 1 Demo.tables false Demo.counter_pool
              = Ok Demo.table) by (vm_compute; reflexivity).
  split; [exact E|]. split; [exact counter_pool_inj|].
  exact (proj2 (@session_attributes_constant (list Z) bool Demo.rng
                  Demo.flag_numpy Demo.iso_parser Demo.stable_argsort
                  10%nat 1%nat Demo.tables false Demo.counter_pool Demo.table
                  E counter_pool_inj)).
Defined.

Lemma funnel_skips_order_without_items_witness :
  items_of Demo.loaded (OrdersJoined.order_id Demo.row_o3) = [] /\
  @funnel_session (list Z) bool Demo.rng Demo.flag_numpy Demo.loaded
    Demo.row_o3 (Demo.world0 false) = Ok (tt, Demo.world0 false).
Proof.
  split; [reflexivity|].
  exact (proj1 (@funnel_skips_order_without_items (list Z) bool Demo.rng
                  Demo.flag_numpy Demo.loaded Demo.row_o3 [] (Demo.world0 false)
                  eq_refl)).
Defined.

Lemma no_delivered_orders_aborts_witness :
  keys_clash Demo.tables_none = false /\
  @qualifying_orders Demo.iso_parser Demo.tables_none = [] /\
  @pipeline (list Z) bool Demo.rng Demo.flag_numpy Demo.iso_parser
    numpy_argsort 10 1 Demo.tables_none false Demo.counter_pool
  = Raise (RuntimeError "No delivered orders found. Check your CSV content.").
Proof.
  split; [reflexivity|]. split; [reflexivity|].
  exact (proj1 (proj2 (@no_delivered_orders_aborts (list Z) bool Demo.rng
                         Demo.flag_numpy Demo.iso_parser numpy_argsort
                         10%nat 1%nat Demo.tables_none false Demo.counter_pool
                         eq_refl eq_refl))).
Defined.

(** C9, as the claim has it.  With the tables [Demo.tables_none], whose
    only delivered order has an unreadable timestamp, the exception of line
    65 leaves the script: what the run writes on stderr starts with the
    header of a stack trace, and not with the message.  And with the same
    orders and customers that all lack a customer id, no delivered order
    with a timestamp is there either, but the run ends at the merge of line
    52, in a [ValueError] that says nothing of delivered orders. *)
Theorem no_delivered_orders_prints_traceback :
  (keys_clash Demo.tables_none = false /\
   @qualifying_orders Demo.iso_parser Demo.tables_none = [] /\
   ending (Demo.run numpy_argsort 10 1 Demo.tables_none false)
     = Traceback (RuntimeError no_delivered_msg) /\
   stderr_first (ending (Demo.run numpy_argsort 10 1 Demo.tables_none false))
     = Some "Traceback (most recent call last):" /\
   stderr_first (ending (Demo.run numpy_argsort 10 1 Demo.tables_none false))
     <> Some "RuntimeError: No delivered orders found. Check your CSV content.")
  /\
  (keys_clash Demo.tables_none_without_customer_id = true /\
   @qualifying_orders Demo.iso_parser Demo.tables_none_without_customer_id
     = [] /\
   ending (Demo.run numpy_argsort 10 1 Demo.tables_none_without_customer_id
             false)
     = Traceback ValueError /\
   stderr_first (ending (Demo.run numpy_argsort 10 1
                           Demo.tables_none_without_customer_id false))
     = Some "Traceback (most recent call last):").
Proof.
  split.
  - split; [reflexivity|]. split; [reflexivity|].
    assert (E : Demo.run numpy_argsort 10 1 Demo.tables_none false
                = Raise (RuntimeError no_delivered_msg))
      by (vm_compute; reflexivity).
    rewrite E. cbn [ending stderr_first].
    split; [reflexivity|]. split; [reflexivity | discriminate].
  - split; [reflexivity|]. split; [reflexivity|].
    assert (E : Demo.run numpy_argsort 10 1
                  Demo.tables_none_without_customer_id false
                = Raise ValueError)
      by (vm_compute; reflexivity).
    rewrite E. cbn [ending stderr_first].
    split; reflexivity.
Qed.

Lemma browsing_base_time_from_delivered_witness :
  (0 < MAX_PURCHASE_SESSIONS)%nat /\
  @load bool Demo.flag_numpy Demo.iso_parser MAX_PURCHASE_SESSIONS Demo.tables
  = Ok Demo.loaded /\
  base_orders_source Demo.loaded = delivered_orders Demo.loaded.
Proof.
  assert (Hmax : (0 < MAX_PURCHASE_SESSIONS)%nat)
    by (unfold MAX_PURCHASE_SESSIONS; lia).
  assert (E : @load bool Demo.flag_numpy Demo.iso_parser MAX_PURCHASE_SESSIONS
                Demo.tables = Ok Demo.loaded) by (vm_compute; reflexivity).
  split; [exact Hmax|]. split; [exact E|].
  exact (proj1 (proj2 (@browsing_base_time_from_delivered (list Z) bool Demo.rng
                         Demo.flag_numpy Demo.iso_parser MAX_PURCHASE_SESSIONS
                         Demo.tables Demo.loaded Hmax E))).
Defined.

(** C5, as the claim has it. [Demo.tables_ties] has four delivered orders,
    o1 to o4, bought in the same second, each with one item, so that every
    other event of their sessions is earlier than the four [purchase]
    events, whatever is drawn.  The run replays the draws of the [random]
    module after [random.seed(42)] and has no browsing session.  The twenty
    events are more than the seventeen that quicksort leaves to insertion
    sort: the first partition takes the [purchase] of o2 as pivot, and the
    purchases are written in the order o2, o1, o3, o4.  The table is sorted,
    and events with equal timestamps are not in generation order. *)
Theorem default_sort_does_not_keep_ties :
  @pipeline (list Z) bool Demo.seed_42_rng Demo.flag_numpy Demo.iso_parser
    numpy_argsort 10 0 Demo.tables_ties false Demo.counter_pool
  = Ok (@sort_values numpy_argsort Demo.ties_events) /\
  map order_id
    (filter (fun e => String.eqb (event_ts e) "2020-01-01 12:00:00")
            Demo.ties_events)
  = [PyStr "o1"; PyStr "o2"; PyStr "o3"; PyStr "o4"] /\
  map order_id
    (filter (fun e => String.eqb (event_ts e) "2020-01-01 12:00:00")
            (@sort_values numpy_argsort Demo.ties_events))
  = [PyStr "o2"; PyStr "o1"; PyStr "o3"; PyStr "o4"] /\
  Sorted str_le
    (map event_ts (@sort_values numpy_argsort Demo.ties_events)) /\
  ~ keeps_ties Demo.ties_events
      (@sort_values numpy_argsort Demo.ties_events).
Proof.
  split; [vm_compute; reflexivity|].
  split; [vm_compute; reflexivity|].
  split; [vm_compute; reflexivity|].
  split; [apply (@sort_values_sorted numpy_argsort)|].
  intros Hk. specialize (Hk "2020-01-01 12:00:00").
  apply (f_equal (map order_id)) in Hk.
  vm_compute in Hk. discriminate Hk.
Qed.

(** ** The rendering of some timestamps *)

Example iso_epoch : Clock.isoformat (Some 0) = "1970-01-01 00:00:00".
Proof. reflexivity. Qed.
Example iso_2020 : Clock.isoformat (Some 1577880000) = "2020-01-01 12:00:00".
Proof. reflexivity. Qed.
Example iso_leap2020 : Clock.isoformat (Some 1582934400) = "2020-02-29 00:00:00".
Proof. reflexivity. Qed.
Example iso_leap2000 : Clock.isoformat (Some 951782399) = "2000-02-28 23:59:59".
Proof. reflexivity. Qed.
Example iso_1900 : Clock.isoformat (Some (-2203891200)) = "1900-03-01 00:00:00".
Proof. reflexivity. Qed.
Example iso_first : Clock.isoformat (Some Clock.ts_first) = "0001-01-01 00:00:00".
Proof. reflexivity. Qed.
Example iso_last : Clock.isoformat (Some Clock.ts_last) = "9999-12-31 23:59:59".
Proof. reflexivity. Qed.
Example iso_olist : Clock.isoformat (Some 1506941793) = "2017-10-02 10:56:33".
Proof. reflexivity. Qed.

(** ** Some runs *)

(** The session of the delivered order [o1] with its two items, bought at
    2020-01-01 12:00:00: six events, the last one at the purchase time. *)
Example run_o1_session :
  map (fun e => (event_type e, event_ts e, product_id e, order_id e))
      (hd [] (@session_blocks (list Z) bool Demo.rng Demo.flag_numpy Demo.loaded
                (delivered_orders Demo.loaded) (Demo.world0 false)))
  = [("page_view", "2020-01-01 11:50:00", PyStr "", PyStr "");
     ("view_product", "2020-01-01 11:50:15", PyStr "p1", PyStr "");
     ("view_product", "2020-01-01 11:50:40", PyStr "p2", PyStr "");
     ("add_to_cart", "2020-01-01 11:51:15", PyStr "p1", PyStr "");
     ("checkout", "2020-01-01 11:51:24", PyStr "", PyStr "");
     ("purchase", "2020-01-01 12:00:00", PyStr "", PyStr "o1")].
Proof. vm_compute. reflexivity. Qed.

(** With another state of numpy's global generator the same seed gives the
    same session but for the sampled products. *)
Example run_o1_other_sample :
  map (fun e => (event_type e, event_ts e, product_id e, order_id e))
      (hd [] (@session_blocks (list Z) bool Demo.rng Demo.flag_numpy Demo.loaded
                (delivered_orders Demo.loaded) (Demo.world0 true)))
  = [("page_view", "2020-01-01 11:50:00", PyStr "", PyStr "");
     ("view_product", "2020-01-01 11:50:15", PyStr "p2", PyStr "");
     ("view_product", "2020-01-01 11:50:40", PyStr "p1", PyStr "");
     ("add_to_cart", "2020-01-01 11:51:15", PyStr "p2", PyStr "");
     ("checkout", "2020-01-01 11:51:24", PyStr "", PyStr "");
     ("purchase", "2020-01-01 12:00:00", PyStr "", PyStr "o1")].
Proof. vm_compute. reflexivity. Qed.

(** The orders that are not delivered, without items or without a readable
    timestamp contribute no funnel event: only [o1] and [o3] are selected,
    and [o3] has no item. *)
Example run_selected_orders :
  map OrdersJoined.order_id (delivered_orders Demo.loaded)
  = [PyStr "o1"; PyStr "o3"] /\
  map (@length event)
      (@session_blocks (list Z) bool Demo.rng Demo.flag_numpy Demo.loaded
         (delivered_orders Demo.loaded) (Demo.world0 false))
  = [6%nat; 0%nat].
Proof. split; vm_compute; reflexivity. Qed.

(** A cap of zero purchase sessions is the one configuration in which the
    browsing loop falls back on the frame of all orders. *)
Example run_cap_zero :
  match @load bool Demo.flag_numpy Demo.iso_parser 0 Demo.tables with
  | Ok L => delivered_orders L = [] /\ base_orders_source L = orders_joined L
  | Raise _ => False
  end.
Proof. vm_compute. split; reflexivity. Qed.

(** Without any browsing session and without any delivered order that has
    items, [events] is empty and building the frame fails on its missing
    column. *)
Example run_nothing_to_write :
  Demo.run Demo.stable_argsort 10 0
    (mkTables (orders Demo.tables) [] (products Demo.tables)
              (customers Demo.tables)) false
  = Raise (KeyError "event_ts").
Proof. vm_compute. reflexivity. Qed.

(** * Further properties of the code *)

(** ** Loading and joining *)

Lemma key_eq_refl_str (x : string) : key_eq (PyStr x) (PyStr x) = true.
Proof. apply String.eqb_refl. Qed.

Lemma join_orders_In (os : list Orders.row) (cs : list Customers.row)
    (r : OrdersJoined.row pyval) :
  In r (join_orders os cs) <->
  exists o : Orders.row,
    In o os /\
    OrdersJoined.order_id r = Orders.order_id o /\
    OrdersJoined.customer_id r = Orders.customer_id o /\
    OrdersJoined.order_status r = Orders.order_status o /\
    OrdersJoined.order_purchase_timestamp r = Orders.order_purchase_timestamp o /\
    ((exists c : Customers.row,
        In c cs /\
        key_eq (Customers.customer_id c) (Orders.customer_id o) = true /\
        OrdersJoined.customer_unique_id r = Customers.customer_unique_id c /\
        OrdersJoined.customer_city r = Customers.customer_city c /\
        OrdersJoined.customer_state r = Customers.customer_state c) \/
     ((forall c, In c cs ->
         key_eq (Customers.customer_id c) (Orders.customer_id o) = false) /\
      OrdersJoined.customer_unique_id r = PyNaN /\
      OrdersJoined.customer_city r = PyNaN /\
      OrdersJoined.customer_state r = PyNaN)).
Proof.
  unfold join_orders. rewrite in_flat_map. split.
  - intros (o & Ho & Hr). exists o. split; [exact Ho|].
    destruct (filter _ cs) as [|c0 ms] eqn:Ef.
    + destruct Hr as [<- | []]. cbn. repeat split. right. repeat split.
      intros c Hc.
      destruct (key_eq (Customers.customer_id c) (Orders.customer_id o)) eqn:Ek;
        [|reflexivity].
      assert (Hin : In c (filter (fun c => key_eq (Customers.customer_id c)
                                              (Orders.customer_id o)) cs))
        by (apply filter_In; split; assumption).
      rewrite Ef in Hin. destruct Hin.
    + apply in_map_iff in Hr as (c & <- & Hc). rewrite <- Ef in Hc.
      apply filter_In in Hc as [Hc Hk]. cbn. repeat split. left.
      exists c. repeat split; assumption.
  - intros (o & Ho & E1 & E2 & E3 & E4 & Hcase). exists o. split; [exact Ho|].
    destruct r as [oid cid st ts cu ci cs'].
    cbn [OrdersJoined.order_id OrdersJoined.customer_id
         OrdersJoined.order_status OrdersJoined.order_purchase_timestamp
         OrdersJoined.customer_unique_id OrdersJoined.customer_city
         OrdersJoined.customer_state] in *.
    subst oid cid st ts.
    destruct Hcase as [(c & Hc & Hk & -> & -> & ->) | (Hno & -> & -> & ->)].
    + assert (Hin : In c (filter (fun c => key_eq (Customers.customer_id c)
                                              (Orders.customer_id o)) cs))
        by (apply filter_In; split; assumption).
      destruct (filter _ cs) as [|c0 ms] eqn:Ef; [destruct Hin|].
      apply in_map_iff. exists c. split; [reflexivity | exact Hin].
    + destruct (filter _ cs) as [|c0 ms] eqn:Ef; [now left|].
      assert (Hin : In c0 (filter (fun c => key_eq (Customers.customer_id c)
                                               (Orders.customer_id o)) cs))
        by (rewrite Ef; now left).
      apply filter_In in Hin as [Hc Hk]. rewrite (Hno c0 Hc) in Hk.
      discriminate.
Qed.




Section Loading.

Context {R : Type} `{NumpyRandom R} `{ToDatetime}.

Lemma convert_timestamps_In (rows : list (OrdersJoined.row pyval))
    (r' : OrdersJoined.row Clock.Timestamp) :
  In r' (convert_timestamps rows) ->
  exists r, In r rows /\
    OrdersJoined.order_id r' = OrdersJoined.order_id r /\
    OrdersJoined.customer_id r' = OrdersJoined.customer_id r /\
    OrdersJoined.order_status r' = OrdersJoined.order_status r /\
    OrdersJoined.customer_city r' = OrdersJoined.customer_city r /\
    OrdersJoined.customer_state r' = OrdersJoined.customer_state r.
Proof.
  unfold convert_timestamps. intros Hin.
  apply in_map_iff in Hin as ([r ts] & <- & Hc).
  apply in_combine_l in Hc. exists r. cbn. repeat split. exact Hc.
Qed.

Lemma convert_timestamps_length (rows : list (OrdersJoined.row pyval)) :
  length (convert_timestamps rows) = length rows.
Proof.
  unfold convert_timestamps.
  rewrite length_map, length_combine, to_datetime_length, length_map.
  apply Nat.min_id.
Qed.

(** What a successful load holds. *)
Lemma load_inv max T L :
  load max T = Ok L ->
  qualifying_orders T <> [] /\
  incl (delivered_orders L) (qualifying_orders T) /\
  length (delivered_orders L) = Nat.min max (length (qualifying_orders T)) /\
  ((length (qualifying_orders T) <= max)%nat ->
   delivered_orders L = qualifying_orders T) /\
  order_items_sample L = join_items (order_items T) (products T) /\
  orders_joined L = joined_orders T /\
  customers_table L = customers T /\
  product_ids L = unique (dropna (map Products.product_id (products T))) /\
  customers_list L = unique (dropna (map Customers.customer_id (customers T))).
Proof.
  intros El. pose proof (load_Ok_keys max T L El) as Hk.
  revert El. rewrite (load_run max T Hk).
  destruct (qualifying_orders T) as [|o q] eqn:Eq; [discriminate|].
  destruct (Nat.ltb_spec max (length (o :: q))) as [Hlt | Hge].
  - assert (Hle : (max <= length (o :: q))%nat) by lia.
    destruct (sample_with_spec max (o :: q) (RandomState 42) Hle)
      as (rs & r' & Es & Hlen & Hincl).
    rewrite Es. intros E. injection E as <-.
    cbn [delivered_orders order_items_sample orders_joined customers_table
         product_ids customers_list].
    repeat split; try reflexivity; try assumption; try discriminate;
      try (intros; lia).
  - intros E. injection E as <-.
    cbn [delivered_orders order_items_sample orders_joined customers_table
         product_ids customers_list].
    repeat split; try reflexivity; try discriminate; try apply incl_refl;
      try (intros; lia).
Qed.






Lemma qualifying_from_orders T (row : OrdersJoined.row Clock.Timestamp) :
  In row (qualifying_orders T) ->
  exists o : Orders.row,
    In o (orders T) /\
    Orders.order_id o = OrdersJoined.order_id row /\
    Orders.customer_id o = OrdersJoined.customer_id row /\
    Orders.order_status o = PyStr "delivered" /\
    exists t, OrdersJoined.order_purchase_timestamp row = Some t.
Proof.
  unfold qualifying_orders, joined_orders. intros Hin.
  apply filter_In in Hin as [Hin Hts]. apply filter_In in Hin as [Hin Hst].
  apply convert_timestamps_In in Hin as (r & Hr & E1 & E2 & E3 & _).
  apply join_orders_In in Hr as (o & Ho & F1 & F2 & F3 & _).
  exists o. split; [exact Ho|].
  split; [congruence|]. split; [congruence|].
  unfold is_delivered, cell_eq in Hst. unfold has_timestamp in Hts.
  rewrite E3, F3 in Hst.
  split.
  - destruct (Orders.order_status o) as [| |s]; try discriminate.
    apply String.eqb_eq in Hst. now subst.
  - destruct row as [oid cid st [t|] cu ci cs]; cbn in *;
      [now exists t | discriminate].
Qed.

(** X4. Every order that the funnel loop runs over is an order of the input
    table with status [delivered], and its timestamp was parsed: orders with
    another status, or with a timestamp that does not parse, are never
    selected. *)
Theorem selected_orders_are_delivered max T L :
  load max T = Ok L ->
  Forall
    (fun row : OrdersJoined.row Clock.Timestamp =>
       exists o : Orders.row,
         In o (orders T) /\
         Orders.order_id o = OrdersJoined.order_id row /\
         Orders.customer_id o = OrdersJoined.customer_id row /\
         Orders.order_status o = PyStr "delivered" /\
         exists t, OrdersJoined.order_purchase_timestamp row = Some t)
    (delivered_orders L).
Proof.
  intros E. apply load_inv in E as (_ & Hincl & _).
  apply Forall_forall. intros row Hrow.
  apply qualifying_from_orders, Hincl, Hrow.
Qed.

Lemma dropna_In (col : list pyval) (x : string) :
  In x (dropna col) <-> In (PyStr x) col.
Proof.
  induction col as [|[| |s] col IH]; cbn.
  - tauto.
  - rewrite IH. split; [now right | intros [E | Hin]; [discriminate | exact Hin]].
  - rewrite IH. split; [now right | intros [E | Hin]; [discriminate | exact Hin]].
  - rewrite IH. split.
    + intros [-> | Hin]; [now left | now right].
    + intros [E | Hin]; [left; now injection E | now right].
Qed.

Lemma unique_In (l : list string) (x : string) : In x (unique l) <-> In x l.
Proof.
  induction l as [|y l IH]; cbn; [tauto|].
  rewrite filter_In, IH.
  destruct (String.eqb_spec x y) as [-> | Hne].
  - split; [now left | now left].
  - split.
    + intros [-> | [Hin _]]; [congruence | now right].
    + intros [-> | Hin]; [congruence|]. right. split; [exact Hin | reflexivity].
Qed.

Lemma unique_NoDup (l : list string) : NoDup (unique l).
Proof.
  induction l as [|y l IH]; cbn; constructor.
  - rewrite filter_In. intros [_ Hf]. now rewrite String.eqb_refl in Hf.
  - apply NoDup_filter, IH.
Qed.

Lemma product_ids_In max T L :
  load max T = Ok L ->
  forall x, In x (product_ids L) <->
            exists p, In p (products T) /\ Products.product_id p = PyStr x.
Proof.
  intros E x. apply load_inv in E as (_ & _ & _ & _ & _ & _ & _ & -> & _).
  rewrite unique_In, dropna_In, in_map_iff.
  split; intros (p & H1 & H2); exists p; split; assumption.
Qed.

Lemma customers_list_In max T L :
  load max T = Ok L ->
  forall x, In x (customers_list L) <->
            exists c, In c (customers T) /\ Customers.customer_id c = PyStr x.
Proof.
  intros E x. apply load_inv in E as (_ & _ & _ & _ & _ & _ & _ & _ & ->).
  rewrite unique_In, dropna_In, in_map_iff.
  split; intros (c & H1 & H2); exists c; split; assumption.
Qed.

(** X5. The two lists that the browsing sessions draw from hold each known
    identifier once: a product id is in [product_ids] exactly when some
    product row carries it, a customer id is in [customers_list] exactly when
    some customer row carries it, and missing identifiers are left out. *)
Theorem id_lists_distinct_and_complete max T L :
  load max T = Ok L ->
  NoDup (product_ids L) /\
  (forall x, In x (product_ids L) <->
             exists p, In p (products T) /\ Products.product_id p = PyStr x) /\
  NoDup (customers_list L) /\
  (forall x, In x (customers_list L) <->
             exists c, In c (customers T) /\ Customers.customer_id c = PyStr x).
Proof.
  intros E.
  pose proof (product_ids_In max T L E) as Hp.
  pose proof (customers_list_In max T L E) as Hc.
  apply load_inv in E as (_ & _ & _ & _ & _ & _ & _ & Ep & Ec).
  split; [rewrite Ep; apply unique_NoDup|]. split; [exact Hp|].
  split; [rewrite Ec; apply unique_NoDup | exact Hc].
Qed.

Lemma join_items_In (items : list OrderItems.row) (prods : list Products.row)
    (oid pid : pyval) :
  (exists r, In r (join_items items prods) /\
             ItemsJoined.order_id r = oid /\ ItemsJoined.product_id r = pid) <->
  (exists it, In it items /\
              OrderItems.order_id it = oid /\ OrderItems.product_id it = pid).
Proof.
  unfold join_items. split.
  - intros (r & Hr & <- & <-). apply in_flat_map in Hr as (it & Hit & Hr).
    exists it. split; [exact Hit|].
    destruct (filter _ prods) as [|p0 ps].
    + destruct Hr as [<- | []]. split; reflexivity.
    + apply in_map_iff in Hr as (p & <- & _). split; reflexivity.
  - intros (it & Hit & <- & <-).
    destruct (filter (fun p => key_eq (Products.product_id p)
                                      (OrderItems.product_id it)) prods)
      as [|p0 ps] eqn:Ef.
    + exists (ItemsJoined.mk (OrderItems.order_id it)
                (OrderItems.product_id it) PyNaN).
      split; [|split; reflexivity].
      apply in_flat_map. exists it. split; [exact Hit|]. rewrite Ef. now left.
    + exists (ItemsJoined.mk (OrderItems.order_id it)
                (OrderItems.product_id it) (Products.product_category_name p0)).
      split; [|split; reflexivity].
      apply in_flat_map. exists it. split; [exact Hit|]. rewrite Ef.
      now left.
Qed.



Lemma items_of_source max T L (oid : pyval) :
  load max T = Ok L ->
  items_of L oid <> [] ->
  exists it, In it (order_items T) /\ OrderItems.order_id it = oid.
Proof.
  intros E Hne. apply load_inv in E as (_ & _ & _ & _ & Ei & _).
  unfold items_of in Hne. rewrite Ei in Hne.
  destruct (filter _ _) as [|r rs] eqn:Ef; [congruence|].
  assert (Hin : In r (r :: rs)) by now left.
  rewrite <- Ef in Hin. apply filter_In in Hin as [Hin Hc].
  assert (Hex : exists r', In r' (join_items (order_items T) (products T)) /\
                  ItemsJoined.order_id r' = ItemsJoined.order_id r /\
                  ItemsJoined.product_id r' = ItemsJoined.product_id r)
    by (exists r; repeat split; exact Hin).
  apply join_items_In in Hex as (it & Hit & Ho & _).
  exists it. split; [exact Hit|]. rewrite Ho.
  unfold cell_eq in Hc. destruct (ItemsJoined.order_id r); try discriminate.
  destruct oid; try discriminate. apply String.eqb_eq in Hc. now subst.
Qed.

(** X7. The items that the funnel looks up for an order are the rows of the
    input order-items table with that order id: an order has a funnel session
    exactly when the table has a row for it, the products that can be viewed
    are the products of those rows, and an order whose id is missing has none. *)
Theorem items_of_input_rows max T L :
  load max T = Ok L ->
  (forall (x : string) (pid : pyval),
     (exists r, In r (items_of L (PyStr x)) /\ ItemsJoined.product_id r = pid) <->
     (exists it, In it (order_items T) /\
                 OrderItems.order_id it = PyStr x /\
                 OrderItems.product_id it = pid)) /\
  (forall x : string,
     items_of L (PyStr x) <> [] <->
     exists it, In it (order_items T) /\ OrderItems.order_id it = PyStr x) /\
  items_of L PyNaN = [] /\ items_of L PyNone = [].
Proof.
  intros E. apply load_inv in E as (_ & _ & _ & _ & Ei & _).
  assert (Hiff : forall (x : string) (pid : pyval),
     (exists r, In r (items_of L (PyStr x)) /\ ItemsJoined.product_id r = pid) <->
     (exists it, In it (order_items T) /\
                 OrderItems.order_id it = PyStr x /\
                 OrderItems.product_id it = pid)).
  { intros x pid. rewrite <- join_items_In, <- Ei. unfold items_of. split.
    - intros (r & Hr & Hp). apply filter_In in Hr as [Hr Hc].
      exists r. split; [exact Hr|]. split; [|exact Hp].
      unfold cell_eq in Hc. destruct (ItemsJoined.order_id r); try discriminate.
      apply String.eqb_eq in Hc. now subst.
    - intros (r & Hr & Ho & Hp). exists r. split; [|exact Hp].
      apply filter_In. split; [exact Hr|]. rewrite Ho. apply String.eqb_refl. }
  split; [exact Hiff|]. split; [|split].
  - intros x. split.
    + intros Hne. destruct (items_of L (PyStr x)) as [|r rs] eqn:Er;
        [congruence|].
      destruct (proj1 (Hiff x (ItemsJoined.product_id r))) as (it & Hit & Ho & _).
      { exists r. rewrite Er. split; [now left | reflexivity]. }
      exists it. split; assumption.
    + intros (it & Hit & Ho).
      destruct (proj2 (Hiff x (OrderItems.product_id it))) as (r & Hr & _).
      { exists it. repeat split; assumption. }
      intros Hnil. rewrite Hnil in Hr. destruct Hr.
  - unfold items_of. clear.
    induction (order_items_sample L) as [|r rs IH]; [reflexivity|].
    cbn [filter]. now destruct (ItemsJoined.order_id r).
  - unfold items_of. clear.
    induction (order_items_sample L) as [|r rs IH]; [reflexivity|].
    cbn [filter]. now destruct (ItemsJoined.order_id r).
Qed.

End Loading.

(** ** What can go wrong *)

Section Failures.

Context {G R : Type} `{PyRandom G} `{NumpyRandom R}.

Local Abbreviation World := (@World G R).
Local Abbreviation M := (@M G R).









Variable L : Loaded.




End Failures.

(** ** Browsing sessions in detail *)

Section BrowsingDetail.

Context {G R : Type} `{PyRandom G} `{NumpyRandom R}.

Local Abbreviation World := (@World G R).
Local Abbreviation M := (@M G R).

Variable L : Loaded.

Lemma browse_pick_columns (r : Z) (w w1 : World) (etype : string) (pid : pyval) :
  (if r <? p_0_4 then ret ("page_view", PyNone)
   else if r <? p_0_75
   then bind (choice (product_ids L)) (fun pid => ret ("view_product", PyStr pid))
   else bind (choice (product_ids L)) (fun pid => ret ("add_to_cart", PyStr pid)))
    w = Ok ((etype, pid), w1) ->
  (etype = "page_view" /\ pid = PyNone) \/
  ((etype = "view_product" \/ etype = "add_to_cart") /\
   exists p, In p (product_ids L) /\ pid = PyStr p).
Proof.
  destruct (r <? p_0_4); [|destruct (r <? p_0_75)]; intros E.
  - injection E as <- <- _. now left.
  - apply bind_inv in E as (p & w2 & Ec & E). injection E as <- <- _.
    apply choice_inv in Ec as [Hp _]. right. split; [now left | now exists p].
  - apply bind_inv in E as (p & w2 & Ec & E). injection E as <- <- _.
    apply choice_inv in Ec as [Hp _]. right. split; [now right | now exists p].
Qed.

Lemma browse_steps_detail n sid cust city state auth src dev t (w w' : World) :
  browse_steps L n sid cust city state auth src dev t w = Ok (tt, w') ->
  exists (new : list event) (clocks : list Clock.Timestamp),
    events w' = events w ++ new /\
    length new = n /\
    map event_id new = map (uuid_pool w) (seq (uuid_count w) n) /\
    map event_ts new = map Clock.isoformat clocks /\
    match clocks with
    | c :: _ => c = t
    | [] => n = O
    end /\
    ts_chain 5 60 clocks /\
    Forall (browsing_columns L) new.
Proof.
  revert t w. induction n as [|n IH]; intros t w E.
  - injection E as <-. exists [], []. rewrite app_nil_r.
    repeat split. constructor.
  - cbn [browse_steps] in E.
    apply bind_inv in E as (r & w1 & E1 & E).
    apply lift_py_inv in E1 as [_ Hw1].
    apply bind_inv in E as ([etype pid] & w2 & E2 & E).
    pose proof (browse_pick_columns _ _ _ _ _ E2) as Hcol.
    apply browse_pick_inv in E2 as [_ Hw2].
    pose proof (only_py_trans _ _ _ Hw1 Hw2) as (Hn2 & Hp2 & Hc2 & He2).
    rewrite (bind_ok _ _ _ _ _ (make_event_run _ _ _ _ _ _ _ _ _ _ _ _)) in E.
    apply bind_inv in E as ([] & w3 & E3 & E).
    injection E3 as <-.
    apply bind_inv in E as (s & w4 & E4 & E).
    apply randint_inv in E4 as [Hs (Hn4 & Hp4 & Hc4 & He4)].
    apply IH in E as (new & clocks & Hev & Hlen & Hid & Hts & Hhd & Hch & Hall).
    cbn [np uuid_pool uuid_count events] in *.
    eexists (_ :: new), (t :: clocks). split.
    { rewrite Hev, He4, He2, <- app_assoc. reflexivity. }
    split; [simpl; congruence|].
    split.
    { cbn [map seq event_id event_of]. rewrite Hid, Hp4, Hp2, Hc4, Hc2.
      reflexivity. }
    split; [cbn [map event_ts event_of]; now rewrite Hts|].
    split; [reflexivity|]. split.
    { destruct clocks as [|c clocks]; [exact I|]. split; [|exact Hch].
      exists s. split; [exact Hs|]. rewrite Hhd.
      unfold Clock.timedelta. f_equal; lia. }
    constructor; [|exact Hall].
    unfold browsing_columns. cbn [order_id product_id event_type event_of].
    split; [reflexivity|].
    destruct Hcol as [[-> ->] | [Hty (p & Hp & ->)]]; [now left|].
    right. split; [exact Hty | now exists p].
Qed.

(** One browsing session, completely. *)
Lemma browsing_session_detail src (w w' : World) :
  browsing_session L src w = Ok (tt, w') ->
  exists (base_order : OrdersJoined.row Clock.Timestamp) (d m : Z)
         (cust city state : pyval) (auth : bool) (source device : string)
         (block : list event) (clocks : list Clock.Timestamp),
    In base_order src /\
    1 <= d <= 60 /\ 0 <= m <= 1440 /\
    In device device_types /\ In source traffic_sources /\
    visitor L cust city state auth /\
    events w' = events w ++ block /\
    (2 <= length block <= 6)%nat /\
    uuid_pool w' = uuid_pool w /\
    uuid_count w' = (uuid_count w + 1 + length block)%nat /\
    map event_id block
      = map (uuid_pool w) (seq (S (uuid_count w)) (length block)) /\
    Forall (browsing_event (uuid_pool w (uuid_count w)) cust city state auth
              source device) block /\
    Forall (browsing_columns L) block /\
    map event_ts block = map Clock.isoformat clocks /\
    hd None clocks
      = Clock.ts_sub (OrdersJoined.order_purchase_timestamp base_order)
                     (Clock.timedelta d m 0) /\
    ts_chain 5 60 clocks.
Proof.
  unfold browsing_session. intros E.
  apply bind_inv in E as (smp & w1 & E1 & E).
  apply sample_inv in E1 as (Hincl & Hy1 & Hp1 & Hc1 & He1).
  apply bind_inv in E as (base_order & w2 & E2 & E).
  destruct smp as [|r0 smp]; [discriminate|]. injection E2 as -> ->.
  apply bind_inv in E as (d & w3 & E3 & E).
  apply randint_inv in E3 as [Hd (Hn3 & Hp3 & Hc3 & He3)].
  apply bind_inv in E as (m & w4 & E4 & E).
  apply randint_inv in E4 as [Hm (Hn4 & Hp4 & Hc4 & He4)].
  rewrite (bind_ok _ _ _ _ _ (eq_refl : uuid4 w4 = Ok (_, _))) in E.
  apply bind_inv in E as (device & w5 & E5 & E).
  apply choice_inv in E5 as [Hdev (Hn5 & Hp5 & Hc5 & He5)].
  apply bind_inv in E as (source & w6 & E6 & E).
  apply choice_inv in E6 as [Hsrc (Hn6 & Hp6 & Hc6 & He6)].
  apply bind_inv in E as (r & w7 & E7 & E).
  apply lift_py_inv in E7 as [_ (Hn7 & Hp7 & Hc7 & He7)].
  apply bind_inv in E as ([[cust city] state] & w8 & E8 & E).
  assert (Hw8 : only_py w7 w8 /\ visitor L cust city state (r <? p_0_4)).
  { destruct (r <? p_0_4) eqn:Er; cbn [andb] in E8.
    - destruct (length (customers_list L) =? 0)%nat eqn:En; cbn [negb] in E8.
      + injection E8 as <- <- <- <-. split; [apply only_py_refl|].
        left. repeat split. right. apply Nat.eqb_eq in En.
        now destruct (customers_list L).
      + apply bind_inv in E8 as (cid & w9 & E9 & E8).
        apply choice_inv in E9 as [Hcid Hw9].
        split.
        * destruct (filter _ _); injection E8 as <- <- <- <-; exact Hw9.
        * right. split; [reflexivity|]. exists cid.
          destruct (filter _ _) as [|c cs]; injection E8 as <- <- <- _;
            repeat split; assumption.
    - injection E8 as <- <- <- <-. split; [apply only_py_refl|].
      left. repeat split. now left. }
  destruct Hw8 as [(Hn8 & Hp8 & Hc8 & He8) Hvis].
  apply bind_inv in E as (steps & w9 & E9 & E).
  apply randint_inv in E9 as [Hsteps (Hn9 & Hp9 & Hc9 & He9)].
  pose proof (browse_steps_effect L _ _ _ _ _ _ _ _ _ _ _ E)
    as (Hp & Hc & Hn & new0 & Hev0 & Hlen0 & Hall0 & _).
  apply browse_steps_detail in E
    as (new & clocks & Hev & Hlen & Hid & Hts & Hhd & Hch & Hcols).
  assert (new0 = new)
    by (apply (app_inv_head (events w9)); congruence).
  subst new0.
  cbn [np uuid_pool uuid_count events] in *.
  exists base_order, d, m, cust, city, state, (r <? p_0_4), source, device,
    new, clocks.
  assert (Epool : uuid_pool w4 (uuid_count w4) = uuid_pool w (uuid_count w))
    by congruence.
  rewrite Epool in Hall0.
  assert (Epool' : uuid_pool w9 = uuid_pool w) by congruence.
  assert (Ecount : uuid_count w9 = S (uuid_count w)) by congruence.
  rewrite Epool', Ecount in Hid.
  split; [apply Hincl; now left|].
  split; [exact Hd|]. split; [exact Hm|].
  split; [exact Hdev|]. split; [exact Hsrc|]. split; [exact Hvis|].
  split; [rewrite Hev; congruence|].
  split; [lia|]. split; [congruence|]. split; [lia|].
  split; [rewrite Hlen; exact Hid|].
  split; [exact Hall0|]. split; [exact Hcols|]. split; [exact Hts|].
  split; [|exact Hch].
  destruct clocks as [|c clocks]; [lia | exact Hhd].
Qed.

End BrowsingDetail.

Lemma ts_chain_some lo hi (clocks : list Clock.Timestamp) (t : Z) :
  ts_chain lo hi clocks -> hd None clocks = Some t ->
  exists zs, clocks = map Some zs /\ hd 0 zs = t /\ chain lo hi zs.
Proof.
  revert t. induction clocks as [|a clocks IH]; intros t Hch Hhd;
    [discriminate|].
  cbn [hd] in Hhd. subst a. destruct clocks as [|b clocks].
  - exists [t]. repeat split.
  - destruct Hch as [(s & Hs & ->) Hch]. cbn [Clock.ts_add] in *.
    destruct (IH (t + s) Hch eq_refl) as (zs & Ezs & Hhd & Hchz).
    exists (t :: zs). rewrite Ezs. split; [reflexivity|]. split; [reflexivity|].
    destruct zs as [|z zs]; [discriminate|]. cbn [hd] in Hhd. subst z.
    split; [lia | exact Hchz].
Qed.

Lemma ts_chain_none lo hi (clocks : list Clock.Timestamp) :
  ts_chain lo hi clocks -> hd None clocks = None ->
  Forall (fun c => c = None) clocks.
Proof.
  induction clocks as [|a clocks IH]; intros Hch Hhd; [constructor|].
  cbn [hd] in Hhd. subst a. constructor; [reflexivity|].
  destruct clocks as [|b clocks]; [constructor|].
  destruct Hch as [(s & _ & ->) Hch]. apply IH; [exact Hch | reflexivity].
Qed.

Section BrowsingBlocks.

Context {G R : Type} `{PyRandom G} `{NumpyRandom R}.

Local Abbreviation World := (@World G R).

Variable L : Loaded.

Lemma browsing_loop_blocks n src (w w' : World) :
  browsing_loop L n src w = Ok (tt, w') ->
  length (browsing_blocks L n src w) = n /\
  events w' = events w ++ concat (browsing_blocks L n src w) /\
  Forall
    (fun block =>
       exists w0 w1 : World,
         browsing_session L src w0 = Ok (tt, w1) /\
         events w1 = events w0 ++ block)
    (browsing_blocks L n src w).
Proof.
  revert w. induction n as [|n IH]; intros w E.
  - injection E as <-. cbn. rewrite app_nil_r. repeat split. constructor.
  - cbn [browsing_loop] in E. apply bind_inv in E as ([] & w1 & E1 & E).
    pose proof (browsing_session_effect L src w w1 E1)
      as (_ & o & d & m & cust & city & state & auth & source & device & first
          & others & _ & _ & _ & _ & _ & Hev1 & _).
    apply IH in E as (Hlen & Hev & Hall).
    cbn [browsing_blocks]. rewrite E1, Hev1.
    rewrite skipn_app, skipn_all, Nat.sub_diag. cbn [app skipn concat length].
    split; [now rewrite Hlen|]. split.
    + rewrite Hev, Hev1. now rewrite <- app_assoc.
    + constructor; [|exact Hall]. now exists w, w1.
Qed.

Lemma browsing_blocks_bounds n src (w w' : World) :
  browsing_loop L n src w = Ok (tt, w') ->
  Forall (fun block => (2 <= length block <= 6)%nat)
    (browsing_blocks L n src w) /\
  (2 * n <= length (concat (browsing_blocks L n src w)) <= 6 * n)%nat.
Proof.
  intros E. apply browsing_loop_blocks in E as (Hlen & _ & Hall).
  assert (Hsize : Forall (fun block => (2 <= length block <= 6)%nat)
                    (browsing_blocks L n src w)).
  { eapply Forall_impl; [|exact Hall].
    intros block (w0 & w1 & Es & Hev1).
    apply browsing_session_detail in Es
      as (o & d & m & cust & city & state & auth & source & device & block'
          & clocks & _ & _ & _ & _ & _ & _ & Hev' & Hlen' & _).
    assert (block' = block)
      by (apply (app_inv_head (events w0)); congruence).
    now subst block'. }
  split; [exact Hsize|].
  clear Hall. revert Hlen Hsize.
  generalize (browsing_blocks L n src w) as blocks. intros blocks <- Hsize.
  induction Hsize as [|b bs Hb _ IH]; cbn [concat length];
    [lia | rewrite length_app; lia].
Qed.

(** X8. The browsing loop emits one session per iteration, each under one
    session identifier and of two to six events: [n] sessions hold between [2
    n] and [6 n] events. *)
Theorem browsing_sessions_size n src (w w' : World) :
  browsing_loop L n src w = Ok (tt, w') ->
  length (browsing_blocks L n src w) = n /\
  events w' = events w ++ concat (browsing_blocks L n src w) /\
  Forall
    (fun block =>
       (2 <= length block <= 6)%nat /\
       exists sid, Forall (fun e => session_id e = sid) block)
    (browsing_blocks L n src w) /\
  (2 * n <= length (concat (browsing_blocks L n src w)) <= 6 * n)%nat.
Proof.
  intros E0. pose proof E0 as E.
  apply browsing_loop_blocks in E as (Hlen & Hev & Hall).
  assert (Hsize : Forall
    (fun block =>
       (2 <= length block <= 6)%nat /\
       exists sid, Forall (fun e => session_id e = sid) block)
    (browsing_blocks L n src w)).
  { eapply Forall_impl; [|exact Hall].
    intros block (w0 & w1 & Es & Hev1).
    apply browsing_session_detail in Es
      as (o & d & m & cust & city & state & auth & source & device & block'
          & clocks & _ & _ & _ & _ & _ & _ & Hev' & Hlen' & _ & _ & _ & Hall'
          & _).
    assert (block' = block)
      by (apply (app_inv_head (events w0)); congruence).
    subst block'. split; [exact Hlen'|].
    exists (uuid_pool w0 (uuid_count w0)).
    eapply Forall_impl; [|exact Hall']. intros e He. apply He. }
  split; [exact Hlen|]. split; [exact Hev|]. split; [exact Hsize|].
  apply (browsing_blocks_bounds n src w w' E0).
Qed.

(** X9. Inside a browsing session the clock starts at the purchase time of the
    sampled reference order minus 1 to 60 days and 0 to 1440 minutes, and
    every later event is 5 to 60 seconds after the previous one, so that the
    timestamps of a session strictly increase; a reference order without a
    timestamp stamps the whole session [NaT]. *)
Theorem browsing_session_clock n src (w w' : World) :
  browsing_loop L n src w = Ok (tt, w') ->
  Forall
    (fun block =>
       exists (o : OrdersJoined.row Clock.Timestamp) (d m : Z),
         In o src /\ 1 <= d <= 60 /\ 0 <= m <= 1440 /\
         match OrdersJoined.order_purchase_timestamp o with
         | Some t =>
             exists zs : list Z,
               map event_ts block = map Clock.isoformat_secs zs /\
               hd 0 zs = t - (86400 * d + 60 * m) /\
               chain 5 60 zs /\
               StronglySorted Z.lt zs
         | None => Forall (fun e => event_ts e = "NaT") block
         end)
    (browsing_blocks L n src w).
Proof.
  intros E. apply browsing_loop_blocks in E as (_ & _ & Hall).
  eapply Forall_impl; [|exact Hall].
  intros block (w0 & w1 & Es & Hev1).
  apply browsing_session_detail in Es
    as (o & d & m & cust & city & state & auth & source & device & block'
        & clocks & Ho & Hd & Hm & _ & _ & _ & Hev' & _ & _ & _ & _ & _ & _
        & Hts & Hhd & Hch).
  assert (block' = block) by (apply (app_inv_head (events w0)); congruence).
  subst block'. exists o, d, m. repeat split; try assumption; try lia.
  destruct (OrdersJoined.order_purchase_timestamp o) as [t|];
    cbn [Clock.ts_sub] in Hhd.
  - destruct (ts_chain_some 5 60 clocks _ Hch Hhd) as (zs & -> & Hz & Hchz).
    exists zs. rewrite Hts, map_map. split; [reflexivity|].
    split; [rewrite Hz; unfold Clock.timedelta; lia|]. split; [exact Hchz|].
    clear -Hchz. induction zs as [|a zs IH]; [constructor|].
    assert (Htl : chain 5 60 zs) by (destruct zs; [exact I | apply Hchz]).
    specialize (IH Htl). constructor; [exact IH|].
    destruct zs as [|b zs]; [constructor|].
    destruct Hchz as [Hab _]. inversion IH as [|? ? _ Hb]; subst.
    constructor; [lia|].
    eapply Forall_impl; [|exact Hb]. simpl. intros; lia.
  - pose proof (ts_chain_none 5 60 clocks Hch Hhd) as Hnone.
    clear -Hts Hnone. revert clocks Hts Hnone.
    induction block as [|e block IH]; intros [|c clocks] Hts Hnone;
      try discriminate; [constructor|].
    cbn [map] in Hts. injection Hts as He Hts.
    inversion Hnone as [|? ? Hc Hrest]; subst.
    constructor; [exact He | eapply IH; eassumption].
Qed.

(** X10. The product and order columns of the browsing events: a [page_view]
    carries no product, a [view_product] or [add_to_cart] carries one of the
    known product ids, and no browsing event carries an order id. *)
Theorem browsing_products_and_orders n src (w w' : World) :
  browsing_loop L n src w = Ok (tt, w') ->
  exists new : list event,
    events w' = events w ++ new /\
    Forall (browsing_columns L) new.
Proof.
  intros E. apply browsing_loop_blocks in E as (_ & Hev & Hall).
  exists (concat (browsing_blocks L n src w)). split; [exact Hev|].
  apply Forall_concat. eapply Forall_impl; [|exact Hall].
  intros block (w0 & w1 & Es & Hev1).
  apply browsing_session_detail in Es
    as (o & d & m & cust & city & state & auth & source & device & block'
        & clocks & _ & _ & _ & _ & _ & _ & Hev' & _ & _ & _ & _ & _ & Hcols
        & _).
  assert (block' = block) by (apply (app_inv_head (events w0)); congruence).
  now subst block'.
Qed.

End BrowsingBlocks.

Lemma filter_hd_find {A : Type} (f : A -> bool) (l : list A) :
  find f l = hd_error (filter f l).
Proof.
  induction l as [|a l IH]; [reflexivity|]. cbn [find filter].
  destruct (f a); [reflexivity | exact IH].
Qed.

Section BrowsingIdentity.

Context {G R : Type} `{PyRandom G} `{NumpyRandom R} `{ToDatetime}.

Local Abbreviation World := (@World G R).

(** X11. Who a browsing session belongs to, after a successful load. The
    session is either not authenticated, and then says nothing about a
    customer; or authenticated as one of the known customer ids, and then
    carries the city and state of the first customer row with that id; or,
    when the customer table has no id at all, authenticated and still without
    a customer. *)
Theorem browsing_visitor max T L n src (w w' : World) :
  load max T = Ok L ->
  browsing_loop L n src w = Ok (tt, w') ->
  Forall
    (fun block =>
       Forall (fun e => is_authenticated e = 0 /\ anonymous e) block \/
       (exists (cid : string) (c : Customers.row),
          find (fun c => cell_eq (Customers.customer_id c) (PyStr cid))
               (customers T) = Some c /\
          Forall (fun e => is_authenticated e = 1 /\
                           customer_id e = PyStr cid /\
                           customer_city e = or_empty (Customers.customer_city c) /\
                           customer_state e
                             = or_empty (Customers.customer_state c)) block) \/
       ((forall c, In c (customers T) ->
           forall x, Customers.customer_id c <> PyStr x) /\
        Forall (fun e => is_authenticated e = 1 /\ anonymous e) block))
    (browsing_blocks L n src w).
Proof.
  intros El E.
  pose proof (customers_list_In max T L El) as Hcl.
  apply load_inv in El as (_ & _ & _ & _ & _ & _ & Hct & _ & _).
  apply browsing_loop_blocks in E as (_ & _ & Hall).
  eapply Forall_impl; [|exact Hall].
  intros block (w0 & w1 & Es & Hev1).
  apply browsing_session_detail in Es
    as (o & d & m & cust & city & state & auth & source & device & block'
        & clocks & _ & _ & _ & _ & _ & Hvis & Hev' & _ & _ & _ & _ & Hall'
        & _).
  assert (block' = block) by (apply (app_inv_head (events w0)); congruence).
  subst block'.
  destruct Hvis as [([Ha | Hnil] & -> & -> & ->) | (-> & cid & Hcid & -> & Hrow)].
  - subst auth. left. eapply Forall_impl; [|exact Hall'].
    intros e (_ & _ & Hc & _ & _ & Hau & Hci & Hst).
    split; [exact Hau | repeat split; assumption].
  - destruct auth.
    + right. right. split.
      * intros c Hc x Hx.
        assert (Hin : In x (customers_list L)) by (apply Hcl; now exists c).
        rewrite Hnil in Hin. exact Hin.
      * eapply Forall_impl; [|exact Hall'].
        intros e (_ & _ & Hc & _ & _ & Hau & Hci & Hst).
        split; [exact Hau | repeat split; assumption].
    + left. eapply Forall_impl; [|exact Hall'].
      intros e (_ & _ & Hc & _ & _ & Hau & Hci & Hst).
      split; [exact Hau | repeat split; assumption].
  - right. left. rewrite Hct in Hrow.
    destruct (filter (fun c => cell_eq (Customers.customer_id c) (PyStr cid))
                (customers T)) as [|c rest] eqn:Ef.
    + exfalso. apply Hcl in Hcid as (c & Hc & Hid).
      assert (Hin : In c (filter (fun c => cell_eq (Customers.customer_id c)
                                                   (PyStr cid)) (customers T))).
      { apply filter_In. split; [exact Hc|]. rewrite Hid. cbn.
        apply String.eqb_refl. }
      rewrite Ef in Hin. exact Hin.
    + destruct Hrow as [-> ->]. exists cid, c. split.
      * rewrite filter_hd_find, Ef. reflexivity.
      * eapply Forall_impl; [|exact Hall'].
        intros e (_ & _ & Hc & _ & _ & Hau & Hci & Hst).
        repeat split; assumption.
Qed.

End BrowsingIdentity.

(** ** Funnel sessions in detail *)

Lemma map_nth_error_seq {A : Type} (l : list A) :
  map (nth_error l) (seq 0 (length l)) = map Some l.
Proof.
  induction l as [|a l IH]; [reflexivity|].
  cbn [length seq map nth_error]. f_equal.
  rewrite <- seq_shift, map_map. exact IH.
Qed.

Lemma positions_permutation {A : Type} (rows rs : list A) (idx : list nat) :
  NoDup idx ->
  map (nth_error rows) idx = map Some rs ->
  length rs = length rows ->
  Permutation rs rows.
Proof.
  intros Hnd Hmap Hlen.
  destruct rows as [|d rows'] eqn:Erows.
  { destruct rs; [constructor | discriminate]. }
  rewrite <- Erows in *. clear Erows rows'.
  assert (Hb : incl idx (seq 0 (length rows))).
  { intros i Hi. apply in_seq. split; [lia|]. cbn.
    apply nth_error_Some. intros Hn.
    assert (Hin : In (nth_error rows i) (map Some rs))
      by (rewrite <- Hmap; now apply in_map).
    rewrite Hn in Hin. apply in_map_iff in Hin as (x & Hx & _). discriminate. }
  assert (Hli : length idx = length rs).
  { apply (f_equal (@length _)) in Hmap. now rewrite !length_map in Hmap. }
  assert (Hperm : Permutation idx (seq 0 (length rows))).
  { apply NoDup_Permutation_bis; [exact Hnd | | exact Hb].
    rewrite length_seq. lia. }
  apply (Permutation_map (nth_error rows)) in Hperm.
  rewrite Hmap, map_nth_error_seq in Hperm.
  apply (Permutation_map (fun o => match o with Some x => x | None => d end))
    in Hperm.
  rewrite !map_map, !map_id in Hperm. exact Hperm.
Qed.

Section Sampling.

Context {R : Type} `{NumpyRandom R}.

Lemma take_rows_positions {A : Type} (rows : list A) (idx : list nat) rs :
  take_rows rows idx = Ok rs -> map (nth_error rows) idx = map Some rs.
Proof.
  revert rs. induction idx as [|i idx IH]; intros rs E.
  - injection E as <-. reflexivity.
  - cbn [take_rows] in E.
    destruct (nth_error rows i) as [r|] eqn:En; [|discriminate].
    destruct (take_rows rows idx) as [rs'|e]; [|discriminate].
    injection E as <-. cbn [map]. rewrite En. f_equal. now apply IH.
Qed.

(** [sample] draws rows at pairwise different positions. *)
Lemma sample_with_positions {A : Type} (n : nat) (rows : list A) (r r' : R) rs :
  sample_with n rows r = Ok (rs, r') ->
  exists idx : list nat,
    NoDup idx /\ map (nth_error rows) idx = map Some rs /\ length rs = n.
Proof.
  unfold sample_with.
  destruct (Nat.ltb_spec (length rows) n) as [Hlt | Hge]; [discriminate|].
  pose proof (choice_length (length rows) n r Hge) as Hlen.
  pose proof (choice_NoDup (length rows) n r Hge) as Hnd.
  destruct (choice_no_replace (length rows) n r) as [idx r1]. cbn [fst] in *.
  destruct (take_rows rows idx) as [rs'|e] eqn:Et; [|discriminate].
  intros E. injection E as <- <-.
  apply take_rows_positions in Et.
  exists idx. split; [exact Hnd|]. split; [exact Et|].
  apply (f_equal (@length _)) in Et. rewrite !length_map in Et. congruence.
Qed.

End Sampling.

Section FunnelDetail.

Context {G R : Type} `{PyRandom G} `{NumpyRandom R}.

Local Abbreviation World := (@World G R).

Variable L : Loaded.

(** One iteration of the funnel loop, completely. *)
Lemma funnel_session_cases row (w w' : World) :
  funnel_session L row w = Ok (tt, w') ->
  let oi := items_of L (OrdersJoined.order_id row) in
  let k := Nat.min 3 (length oi) in
  (oi = [] /\ w' = w) \/
  (oi <> [] /\
   exists first rest r' idx,
     NoDup idx /\ map (nth_error oi) idx = map Some (first :: rest) /\
     length (first :: rest) = k /\ incl (first :: rest) oi /\
     w' = mkWorld (snd (funnel_draws k (py w))) r' (uuid_pool w)
            (uuid_count w + 5 + k)
            (events w ++ funnel_block (uuid_pool w) (uuid_count w) row
               (fst (funnel_draws k (py w))) first rest)).
Proof.
  intros E. cbv zeta.
  assert (Hcase : items_of L (OrdersJoined.order_id row) = [] \/
                  items_of L (OrdersJoined.order_id row) <> [])
    by (destruct (items_of L (OrdersJoined.order_id row));
        [now left | right; discriminate]).
  destruct Hcase as [Hnil | Hne].
  - left. split; [exact Hnil|].
    rewrite (funnel_session_skip L row w Hnil) in E. now injection E as <-.
  - right. split; [exact Hne|].
    destruct (funnel_session_run L row w Hne)
      as (first & rest & r' & Es & Hlen & Hincl & Erun).
    rewrite Erun in E. injection E as <-.
    destruct (sample_with_positions _ _ _ _ _ Es) as (idx & Hnd & Hmap & _).
    exists first, rest, r', idx. repeat split; assumption.
Qed.

Lemma session_blocks_runs rows (w : World) :
  Forall2
    (fun row block =>
       exists w0 w1 : World,
         funnel_session L row w0 = Ok (tt, w1) /\
         events w1 = events w0 ++ block)
    rows (session_blocks L rows w).
Proof.
  revert w. induction rows as [|row rows IH]; intros w; [constructor|].
  destruct (funnel_session_effect L row w) as (block & w1 & E & Ev & _).
  rewrite (session_blocks_cons L _ _ _ _ _ E Ev).
  constructor; [now exists w, w1 | apply IH].
Qed.

(** The block that a session appends, read off its [events]. *)
Lemma funnel_session_block row (w0 w1 : World) block :
  funnel_session L row w0 = Ok (tt, w1) ->
  events w1 = events w0 ++ block ->
  let oi := items_of L (OrdersJoined.order_id row) in
  let k := Nat.min 3 (length oi) in
  (oi = [] /\ block = []) \/
  (oi <> [] /\
   exists first rest idx,
     NoDup idx /\ map (nth_error oi) idx = map Some (first :: rest) /\
     length (first :: rest) = k /\ incl (first :: rest) oi /\
     block = funnel_block (uuid_pool w0) (uuid_count w0) row
               (fst (funnel_draws k (py w0))) first rest).
Proof.
  intros E Hev oi k.
  destruct (funnel_session_cases row w0 w1 E)
    as [[Hnil ->] | (Hne & first & rest & r' & idx & Hnd & Hmap & Hlen & Hincl
                     & ->)].
  - left. split; [exact Hnil|].
    apply (app_inv_head (events w0)). now rewrite app_nil_r.
  - right. split; [exact Hne|]. exists first, rest, idx.
    repeat split; try assumption.
    cbn [events] in Hev. symmetry. apply (app_inv_head (events w0)), Hev.
Qed.

Lemma view_block_Forall_In
    (mk : nat -> string -> Clock.Timestamp -> pyval -> pyval -> event)
    (P : event -> Prop) c smp t incs :
  (forall r i t, In r smp ->
     P (mk i "view_product" t (ItemsJoined.product_id r) PyNone)) ->
  Forall P (view_block mk c smp t incs).
Proof.
  revert c t incs. induction smp as [|r smp IH]; intros c t [|s incs] HP;
    cbn [view_block]; try constructor.
  - apply HP. now left.
  - apply IH. intros r' i t' Hr'. apply HP. now right.
Qed.

Lemma funnel_block_events pool c (row : OrdersJoined.row Clock.Timestamp) d
    first rest :
  items_of L (OrdersJoined.order_id row) <> [] ->
  incl (first :: rest) (items_of L (OrdersJoined.order_id row)) ->
  Forall (funnel_event L row) (funnel_block pool c row d first rest).
Proof.
  intros Hne Hincl. pose proof (items_of_order_id L row Hne) as Hoid.
  unfold funnel_block.
  constructor.
  { unfold funnel_event. cbn. repeat split. right. left.
    repeat split. now left. }
  apply Forall_app. split.
  - apply view_block_Forall_In. intros r i t Hr.
    unfold funnel_event. cbn. repeat split. right. right.
    split; [now left|]. split; [reflexivity|].
    exists r. split; [apply Hincl, Hr | reflexivity].
  - constructor; [|constructor; [|constructor; [|constructor]]].
    + unfold funnel_event. cbn. repeat split. right. right.
      split; [now right|]. split; [reflexivity|].
      exists first. split; [apply Hincl; now left | reflexivity].
    + unfold funnel_event. cbn. repeat split. right. left.
      repeat split. now right.
    + unfold funnel_event. cbn [is_authenticated customer_id customer_city
        customer_state event_type order_id product_id event_ts event_of].
      repeat split. left. repeat split. exact Hoid.
Qed.

(** X12. Every event of a funnel session is authenticated and carries the
    customer id, city and state of the order it leads to; only the [purchase]
    event names the order, at the purchase time of the order; and only the
    [view_product] and [add_to_cart] events name a product, which is the
    product of one of the items of that order. *)
Theorem funnel_events_of_order rows (w : World) :
  Forall2 (fun row block => Forall (funnel_event L row) block)
    rows (session_blocks L rows w).
Proof.
  eapply Forall2_impl; [|apply session_blocks_runs].
  intros row block (w0 & w1 & E & Hev).
  destruct (funnel_session_block row w0 w1 block E Hev)
    as [[_ ->] | (Hne & first & rest & idx & _ & _ & _ & Hincl & ->)];
    [constructor|].
  apply funnel_block_events; assumption.
Qed.

(** X13. The products that a funnel session views are those of [min 3 n] items
    of the order taken at pairwise different positions among its [n] items,
    and the product added to the cart is that of the first one viewed; when
    the order has at most three items, every item is viewed exactly once. *)
Theorem funnel_views_distinct_items rows (w : World) :
  Forall2
    (fun row block =>
       let oi := items_of L (OrdersJoined.order_id row) in
       oi <> [] ->
       exists (smp : list ItemsJoined.row) (idx : list nat),
         NoDup idx /\
         map (nth_error oi) idx = map Some smp /\
         length smp = Nat.min 3 (length oi) /\
         ((length oi <= 3)%nat -> Permutation smp oi) /\
         map (fun e => (event_type e, product_id e)) block =
           ("page_view", PyStr "")
           :: map (fun r => ("view_product",
                             if_not_none (ItemsJoined.product_id r))) smp
           ++ [("add_to_cart",
                match smp with
                | r :: _ => if_not_none (ItemsJoined.product_id r)
                | [] => PyStr ""
                end);
               ("checkout", PyStr ""); ("purchase", PyStr "")])
    rows (session_blocks L rows w).
Proof.
  eapply Forall2_impl; [|apply session_blocks_runs].
  intros row block (w0 & w1 & E & Hev) oi Hne.
  destruct (funnel_session_block row w0 w1 block E Hev)
    as [[Hnil _] | (_ & first & rest & idx & Hnd & Hmap & Hlen & Hincl & ->)];
    [contradiction|].
  fold oi in Hmap, Hlen, Hincl.
  exists (first :: rest), idx.
  split; [exact Hnd|]. split; [exact Hmap|]. split; [exact Hlen|]. split.
  { intros Hle. apply (positions_permutation oi _ idx Hnd Hmap). lia. }
  set (k := Nat.min 3 (length oi)) in *.
  pose proof (funnel_draws_spec k (py w0)) as (_ & _ & _ & _ & Hv & _).
  rewrite <- Hlen in Hv at 2.
  unfold funnel_block. cbn [map]. rewrite map_app.
  rewrite (view_block_map _ (fun e => (event_type e, product_id e))
             (fun pid => ("view_product", if_not_none pid)))
    by (auto; symmetry; exact Hv).
  reflexivity.
Qed.

End FunnelDetail.

(** ** The selected orders and their sessions *)

Lemma key_eq_eq (a b : pyval) : key_eq a b = true -> a = b.
Proof.
  destruct a, b; cbn; try discriminate; try reflexivity.
  intros E. apply String.eqb_eq in E. now subst.
Qed.

(** A key that occurs once in a column matches at most one row. *)
Lemma filter_key_unique {A : Type} (f : A -> pyval) (l : list A) (k : pyval) :
  NoDup (map f l) ->
  (length (filter (fun x => key_eq (f x) k) l) <= 1)%nat.
Proof.
  induction l as [|a l IH]; intros Hnd; [cbn; lia|].
  cbn [map] in Hnd. inversion Hnd as [|? ? Hnin Hnd']; subst.
  specialize (IH Hnd'). cbn [filter].
  destruct (key_eq (f a) k) eqn:Ea; [|exact IH].
  destruct (filter (fun x => key_eq (f x) k) l) as [|b bs] eqn:Ef;
    [cbn; lia|].
  exfalso. assert (Hb : In b (filter (fun x => key_eq (f x) k) l))
    by (rewrite Ef; now left).
  apply filter_In in Hb as [Hb Hk]. apply Hnin.
  apply key_eq_eq in Ea, Hk. rewrite Ea, <- Hk. now apply in_map.
Qed.

Lemma selection_refl {A : Type} (l : list A) : selection l l.
Proof. exists []. now rewrite app_nil_r. Qed.

Lemma selection_trans {A : Type} (l m s : list A) :
  selection l m -> selection m s -> selection l s.
Proof.
  intros [r1 H1] [r2 H2]. exists (r2 ++ r1).
  rewrite app_assoc. etransitivity; [|exact H1].
  now apply Permutation_app_tail.
Qed.

Lemma selection_filter {A : Type} (p : A -> bool) (l : list A) :
  selection l (filter p l).
Proof.
  exists (filter (fun x => negb (p x)) l).
  induction l as [|a l IH]; [constructor|].
  cbn [filter]. destruct (p a); cbn [negb app].
  - now constructor.
  - etransitivity; [apply Permutation_sym, Permutation_middle|].
    now constructor.
Qed.

(** Rows taken at pairwise different positions. *)
Lemma selection_positions {A : Type} (rows rs : list A) (idx : list nat) :
  NoDup idx ->
  map (nth_error rows) idx = map Some rs ->
  selection rows rs.
Proof.
  intros Hnd Hmap.
  assert (Hb : forall i, In i idx -> (i < length rows)%nat).
  { intros i Hi. apply nth_error_Some. intros Hn.
    assert (Hin : In (nth_error rows i) (map Some rs))
      by (rewrite <- Hmap; now apply in_map).
    rewrite Hn in Hin. apply in_map_iff in Hin as (x & Hx & _). discriminate. }
  destruct rows as [|d rows'] eqn:Erows.
  { destruct idx as [|i idx']; [|exfalso; specialize (Hb i (or_introl eq_refl));
                                  cbn in Hb; lia].
    destruct rs; [apply selection_refl | discriminate]. }
  rewrite <- Erows in *. clear Erows rows'.
  set (others := filter (fun i => negb (existsb (Nat.eqb i) idx))
                        (seq 0 (length rows))).
  assert (Hperm : Permutation (idx ++ others) (seq 0 (length rows))).
  { apply NoDup_Permutation.
    - apply NoDup_app; [exact Hnd | apply NoDup_filter, seq_NoDup |].
      intros i Hi Ho. apply filter_In in Ho as [_ Ho].
      apply negb_true_iff in Ho.
      assert (Hex : existsb (Nat.eqb i) idx = true)
        by (apply existsb_exists; exists i; split;
            [exact Hi | apply Nat.eqb_refl]).
      congruence.
    - apply seq_NoDup.
    - intros i. rewrite in_app_iff, in_seq. split.
      + intros [Hi | Ho]; [specialize (Hb i Hi); lia|].
        apply filter_In in Ho as [Ho _]. now apply in_seq in Ho.
      + intros Hi.
        destruct (existsb (Nat.eqb i) idx) eqn:Ex.
        * left. apply existsb_exists in Ex as (j & Hj & Ej).
          apply Nat.eqb_eq in Ej. now subst.
        * right. apply filter_In. split; [now apply in_seq|].
          now rewrite Ex. }
  exists (map (fun i => nth i rows d) others).
  apply (Permutation_map (nth_error rows)) in Hperm.
  rewrite map_app, Hmap, map_nth_error_seq in Hperm.
  apply (Permutation_map (fun o => match o with Some x => x | None => d end))
    in Hperm.
  rewrite map_app, !map_map, !map_id in Hperm.
  etransitivity; [|exact Hperm]. apply Permutation_app_head.
  apply Permutation_refl'. apply map_ext_in.
  intros i Hi. apply filter_In in Hi as [Hi _]. apply in_seq in Hi.
  destruct (nth_error rows i) as [x|] eqn:En.
  - now apply nth_error_nth.
  - apply nth_error_None in En. lia.
Qed.

(** A selection, seen through a row-by-row correspondence. *)
Lemma selection_Forall2 {A B : Type} (P : A -> B -> Prop) (l1 s1 : list A)
    (l2 : list B) :
  Forall2 P l1 l2 -> selection l1 s1 ->
  exists s2, selection l2 s2 /\ Forall2 P s1 s2.
Proof.
  intros HF [r1 Hperm].
  destruct (Permutation_Forall2 (Permutation_sym Hperm) HF)
    as (l2' & Hp2 & HF').
  apply Forall2_app_inv_l in HF' as (s2 & r2 & Hs & _ & ->).
  exists s2. split; [|exact Hs]. exists r2. now apply Permutation_sym.
Qed.

Lemma Forall2_filter {A B : Type} (P : A -> B -> Prop) (p : A -> bool)
    (q : B -> bool) (l1 : list A) (l2 : list B) :
  (forall a b, P a b -> p a = q b) ->
  Forall2 P l1 l2 -> Forall2 P (filter p l1) (filter q l2).
Proof.
  intros Hpq. induction 1 as [|a b l1 l2 Hab _ IH]; [constructor|].
  cbn [filter]. rewrite (Hpq a b Hab). destruct (q b); [constructor|];
    assumption.
Qed.

Lemma Forall2_chain {A B C : Type} (P : A -> B -> Prop) (Q : A -> C -> Prop)
    (la : list A) (lb : list B) (lc : list C) :
  Forall2 P la lb -> Forall2 Q la lc ->
  Forall2 (fun b c => exists a, P a b /\ Q a c) lb lc.
Proof.
  intros HP. revert lc. induction HP as [|a b la lb Hab _ IH]; intros lc HQ;
    inversion HQ; subst; constructor.
  - now exists a.
  - now apply IH.
Qed.

(** The rows of a list that correspond to given rows of another one. *)
Lemma Forall2_pick {A B : Type} (P : A -> B -> Prop) (l1 : list A)
    (l2 s2 : list B) :
  Forall2 P l1 l2 -> incl s2 l2 ->
  exists s1, incl s1 l1 /\ Forall2 P s1 s2.
Proof.
  intros HF. induction s2 as [|b s2 IH]; intros Hincl.
  - exists []. split; [intros x [] | constructor].
  - destruct IH as (s1 & Hs1 & HF1); [intros x Hx; apply Hincl; now right|].
    assert (Hb : In b l2) by (apply Hincl; now left).
    assert (Hex : exists a, In a l1 /\ P a b).
    { clear -HF Hb. induction HF as [|a b' l1 l2 Hab _ IH]; [destruct Hb|].
      destruct Hb as [<- | Hb].
      - exists a. split; [now left | exact Hab].
      - destruct (IH Hb) as (a' & Ha' & HP). exists a'.
        split; [now right | exact HP]. }
    destruct Hex as (a & Ha & HP). exists (a :: s1). split.
    + intros x [<- | Hx]; [exact Ha | now apply Hs1].
    + now constructor.
Qed.

Section SelectedOrders.

Context {G R : Type} `{PyRandom G} `{NumpyRandom R} `{ToDatetime}.

Local Abbreviation World := (@World G R).

(** With customer ids that are pairwise different the join has one row per
    order, in the order of the orders. *)
Lemma join_orders_rows (os : list Orders.row) (cs : list Customers.row) :
  NoDup (map Customers.customer_id cs) ->
  Forall2
    (fun (r : OrdersJoined.row pyval) o =>
       OrdersJoined.order_id r = Orders.order_id o /\
       OrdersJoined.order_status r = Orders.order_status o)
    (join_orders os cs) os.
Proof.
  intros Hnd. unfold join_orders.
  induction os as [|o os IH]; [constructor|].
  cbn [flat_map].
  pose proof (filter_key_unique Customers.customer_id cs
                (Orders.customer_id o) Hnd) as Hu.
  destruct (filter (fun c => key_eq (Customers.customer_id c)
                                    (Orders.customer_id o)) cs)
    as [|c0 [|c1 ms]]; cbn [length map app] in *; try lia.
  - constructor; [split; reflexivity | exact IH].
  - constructor; [split; reflexivity | exact IH].
Qed.

Lemma convert_timestamps_rows (rows : list (OrdersJoined.row pyval)) :
  Forall2
    (fun (r' : OrdersJoined.row Clock.Timestamp) (r : OrdersJoined.row pyval) =>
       OrdersJoined.order_id r' = OrdersJoined.order_id r /\
       OrdersJoined.order_status r' = OrdersJoined.order_status r)
    (convert_timestamps rows) rows.
Proof.
  unfold convert_timestamps.
  pose proof (to_datetime_length
                (map OrdersJoined.order_purchase_timestamp rows)) as Hlen.
  rewrite length_map in Hlen.
  revert Hlen.
  generalize (to_datetime (map OrdersJoined.order_purchase_timestamp rows))
    as ts.
  induction rows as [|r rows IH]; intros [|t ts] Hlen; try discriminate;
    cbn [combine map]; constructor.
  - split; reflexivity.
  - apply IH. now injection Hlen.
Qed.

Lemma joined_orders_rows T :
  NoDup (map Customers.customer_id (customers T)) ->
  Forall2
    (fun (r : OrdersJoined.row Clock.Timestamp) o =>
       OrdersJoined.order_id r = Orders.order_id o /\
       OrdersJoined.order_status r = Orders.order_status o)
    (joined_orders T) (orders T).
Proof.
  intros Hnd. unfold joined_orders.
  pose proof (convert_timestamps_rows
                (join_orders (orders T) (customers T))) as H1'.
  pose proof (join_orders_rows (orders T) (customers T) Hnd) as H2'.
  revert H1'. generalize (convert_timestamps
                            (join_orders (orders T) (customers T))) as l1.
  revert H2'. generalize (join_orders (orders T) (customers T)) as l2.
  intros l2 H2'. induction H2' as [|r o l2 os [Hr1 Hr2] _ IH]; intros l1 H1';
    inversion H1' as [|r' ? l1' ? [Hq1 Hq2] Hrest]; subst; constructor.
  - split; congruence.
  - now apply IH.
Qed.

(** The frame the funnel runs over takes rows of the delivered orders with
    a timestamp, none of them twice. *)
Lemma load_selection max T L :
  load max T = Ok L -> selection (qualifying_orders T) (delivered_orders L).
Proof.
  intros El. pose proof (load_Ok_keys max T L El) as Hk.
  revert El. rewrite (load_run max T Hk).
  destruct (qualifying_orders T) as [|o q] eqn:Eq; [discriminate|].
  destruct (Nat.ltb_spec max (length (o :: q))) as [Hlt | Hge].
  - destruct (sample_with max (o :: q) (RandomState 42)) as [[rs r']|e] eqn:Es;
      [|discriminate].
    intros E. injection E as <-. cbn [delivered_orders].
    destruct (sample_with_positions _ _ _ _ _ Es) as (idx & Hnd & Hmap & _).
    exact (selection_positions _ _ idx Hnd Hmap).
  - intros E. injection E as <-. cbn [delivered_orders]. apply selection_refl.
Qed.

(** With product ids that are pairwise different the join has one row per
    order item, in the order of the order items. *)
Lemma join_items_rows (items : list OrderItems.row) (prods : list Products.row) :
  NoDup (map Products.product_id prods) ->
  Forall2
    (fun (r : ItemsJoined.row) it =>
       ItemsJoined.order_id r = OrderItems.order_id it /\
       ItemsJoined.product_id r = OrderItems.product_id it)
    (join_items items prods) items.
Proof.
  intros Hnd. unfold join_items.
  induction items as [|it items IH]; [constructor|].
  cbn [flat_map].
  pose proof (filter_key_unique Products.product_id prods
                (OrderItems.product_id it) Hnd) as Hu.
  destruct (filter (fun p => key_eq (Products.product_id p)
                                    (OrderItems.product_id it)) prods)
    as [|p0 [|p1 ms]]; cbn [length map app] in *; try lia.
  - constructor; [split; reflexivity | exact IH].
  - constructor; [split; reflexivity | exact IH].
Qed.

(** The lookup of line 123 and the items of the order, row by row. *)
Lemma items_of_rows max T L (row : OrdersJoined.row Clock.Timestamp)
    (o : Orders.row) :
  load max T = Ok L ->
  NoDup (map Products.product_id (products T)) ->
  OrdersJoined.order_id row = Orders.order_id o ->
  Forall2
    (fun (r : ItemsJoined.row) it =>
       ItemsJoined.order_id r = OrderItems.order_id it /\
       ItemsJoined.product_id r = OrderItems.product_id it)
    (items_of L (OrdersJoined.order_id row)) (items_of_order T o).
Proof.
  intros El Hnd Hid. apply load_inv in El as (_ & _ & _ & _ & Ei & _).
  unfold items_of, items_of_order. rewrite Ei, Hid.
  apply Forall2_filter; [|apply join_items_rows, Hnd].
  intros r it [Ho _]. now rewrite Ho.
Qed.

(** The shape of a session, told on the items of the input. *)
Lemma funnel_shape_order max T L (row : OrdersJoined.row Clock.Timestamp)
    (o : Orders.row) (block : list event) :
  load max T = Ok L ->
  NoDup (map Products.product_id (products T)) ->
  OrdersJoined.order_id row = Orders.order_id o ->
  match items_of L (OrdersJoined.order_id row) with
  | [] => block = []
  | _ :: _ => funnel_shape L row block
  end ->
  match items_of_order T o with
  | [] => block = []
  | _ :: _ => order_session T o block
  end.
Proof.
  intros El Hnd Hid Hshape.
  pose proof (items_of_rows max T L row o El Hnd Hid) as HF.
  pose proof (Forall2_length HF) as Hlen.
  destruct (items_of L (OrdersJoined.order_id row)) as [|r0 oi] eqn:Eoi.
  - destruct (items_of_order T o); [exact Hshape | discriminate].
  - destruct (items_of_order T o) as [|it0 its] eqn:Eit; [discriminate|].
    destruct Hshape as (sid & first & rest & Hk & Hincl & Hty & Hpid & Hoid
                        & Hsid).
    rewrite Eoi in Hk, Hincl, Hty, Hoid.
    destruct (Forall2_pick _ _ _ (first :: rest) (Forall2_flip HF) Hincl)
      as (smp & Hsmp & Hpick).
    inversion Hpick as [|it1 ? smp' ? [_ Hp1] Hrest]; subst.
    unfold order_session. rewrite Eit. rewrite Hlen in Hk, Hty, Hoid.
    exists sid, it1, smp'. split.
    { rewrite <- Hk. cbn [length]. f_equal.
      apply (Forall2_length Hrest). }
    split; [exact Hsmp|]. split; [exact Hty|]. split.
    { rewrite Hpid. f_equal.
      assert (Hmap : map (fun r => if_not_none (ItemsJoined.product_id r))
                       (first :: rest)
                     = map (fun it => if_not_none (OrderItems.product_id it))
                         (it1 :: smp')).
      { clear -Hpick. induction Hpick as [|it r l1 l2 [_ Hp] _ IH];
          [reflexivity|]. cbn [map]. now rewrite Hp, IH. }
      rewrite Hmap. f_equal. now rewrite Hp1. }
    split; [rewrite Hoid, Hid; reflexivity | exact Hsid].
Qed.

(** C1, as the code has it.  When the customer ids of the customers and
    the product ids of the products are pairwise different, the funnel loop
    runs over orders of the input, each taken once, all with status
    [delivered], as many as the cap and the filter leave; it never raises;
    and for each of these orders it appends one block of events: nothing
    when the order has no item in the order items, and otherwise exactly one
    session, whose events are, in generation order, one [page_view],
    [min 3 n] [view_product] for items among the [n] items of the order, one
    [add_to_cart] on the first of them, one [checkout], and one [purchase]
    carrying the identifier of the order. *)
Theorem funnel_one_session_per_order max T L (w : World) :
  load max T = Ok L ->
  NoDup (map Customers.customer_id (customers T)) ->
  NoDup (map Products.product_id (products T)) ->
  exists (selected : list Orders.row) (w' : World),
    selection (orders T) selected /\
    length selected = Nat.min max (length (qualifying_orders T)) /\
    Forall (fun o => Orders.order_status o = PyStr "delivered") selected /\
    funnel_loop L (delivered_orders L) w = Ok (tt, w') /\
    events w' = events w ++ concat (session_blocks L (delivered_orders L) w) /\
    Forall2
      (fun o block =>
         match items_of_order T o with
         | [] => block = []
         | _ :: _ => order_session T o block
         end)
      selected (session_blocks L (delivered_orders L) w).
Proof.
  intros El Hc Hp.
  pose proof (load_selection max T L El) as Hsel.
  assert (Hq : selection (joined_orders T) (qualifying_orders T)).
  { unfold qualifying_orders.
    eapply selection_trans; apply selection_filter. }
  pose proof (selection_trans _ _ _ Hq Hsel) as Hsel'.
  destruct (selection_Forall2 _ _ _ _ (joined_orders_rows T Hc) Hsel')
    as (selected & Hsel2 & Horigin).
  destruct (funnel_loop_shapes L (delivered_orders L) w)
    as (w' & Erun & Hev & Hshapes).
  pose proof (load_inv max T L El) as (_ & Hincl & Hlen & _).
  exists selected, w'. split; [exact Hsel2|].
  split; [rewrite <- (Forall2_length Horigin); exact Hlen|]. split.
  { clear -Horigin Hincl. revert Hincl.
    induction Horigin as [|row o rows os [_ Hst] _ IH]; intros Hincl;
      constructor.
    - assert (Hrow : In row (qualifying_orders T)) by (apply Hincl; now left).
      unfold qualifying_orders in Hrow.
      apply filter_In in Hrow as [Hrow _]. apply filter_In in Hrow as [_ Hd].
      unfold is_delivered, cell_eq in Hd. rewrite Hst in Hd.
      destruct (Orders.order_status o) as [| |s]; try discriminate.
      apply String.eqb_eq in Hd. now subst.
    - apply IH. intros x Hx. apply Hincl. now right. }
  split; [exact Erun|]. split; [exact Hev|].
  eapply Forall2_impl; [|exact (Forall2_chain _ _ _ _ _ Horigin Hshapes)].
  intros o block (row & [Hid _] & Hshape).
  exact (funnel_shape_order max T L row o block El Hp Hid Hshape).
Qed.

End SelectedOrders.

Lemma funnel_one_session_per_order_witness :
  @load bool Demo.flag_numpy Demo.iso_parser 10 Demo.tables = Ok Demo.loaded /\
  NoDup (map Customers.customer_id (customers Demo.tables)) /\
  NoDup (map Products.product_id (products Demo.tables)) /\
  exists (selected : list Orders.row) (w' : @World (list Z) bool),
    selection (orders Demo.tables) selected /\
    length selected
    = Nat.min 10 (length (@qualifying_orders Demo.iso_parser Demo.tables)) /\
    Forall (fun o => Orders.order_status o = PyStr "delivered") selected /\
    @funnel_loop (list Z) bool Demo.rng Demo.flag_numpy Demo.loaded
      (delivered_orders Demo.loaded) (Demo.world0 false) = Ok (tt, w') /\
    events w'
    = events (Demo.world0 false)
      ++ concat (@session_blocks (list Z) bool Demo.rng Demo.flag_numpy
                   Demo.loaded (delivered_orders Demo.loaded)
                   (Demo.world0 false)) /\
    Forall2
      (fun o block =>
         match items_of_order Demo.tables o with
         | [] => block = []
         | _ :: _ => order_session Demo.tables o block
         end)
      selected
      (@session_blocks (list Z) bool Demo.rng Demo.flag_numpy Demo.loaded
         (delivered_orders Demo.loaded) (Demo.world0 false)).
Proof.
  assert (El : @load bool Demo.flag_numpy Demo.iso_parser 10 Demo.tables
               = Ok Demo.loaded) by (vm_compute; reflexivity).
  assert (Hc : NoDup (map Customers.customer_id (customers Demo.tables))).
  { cbn. repeat constructor; cbn; intuition discriminate. }
  assert (Hp : NoDup (map Products.product_id (products Demo.tables))).
  { cbn. repeat constructor; cbn; intuition discriminate. }
  split; [exact El|]. split; [exact Hc|]. split; [exact Hp|].
  exact (@funnel_one_session_per_order (list Z) bool Demo.rng Demo.flag_numpy
           Demo.iso_parser 10%nat Demo.tables Demo.loaded (Demo.world0 false)
           El Hc Hp).
Defined.

(** C1, as the claim has it.  In [Demo.tables_dup] the one order is
    delivered and has one item, so that the claimed session has one
    [view_product]; the product id of the item is the id of three product
    rows and the customer id of the order the id of two customer rows.  The
    funnel loop then emits two sessions for the order, with different
    session identifiers, each with three [view_product] events and each
    closed by a [purchase] of the order; neither is the claimed session. *)
Theorem duplicate_ids_repeat_sessions :
  let T := Demo.tables_dup in
  let o := Orders.mk (PyStr "o1") (PyStr "c1") (PyStr "delivered")
                     (PyStr "2020-01-01 12:00:00") in
  let types := ["page_view"; "view_product"; "view_product"; "view_product";
                "add_to_cart"; "checkout"; "purchase"] in
  let ids := repeat (PyStr "") 6 ++ [PyStr "o1"] in
  orders T = [o] /\
  items_of_order T o = [OrderItems.mk (PyStr "o1") (PyStr "p1")] /\
  (forall block, order_session T o block ->
     map event_type block
     = ["page_view"; "view_product"; "add_to_cart"; "checkout"; "purchase"]) /\
  exists (L : Loaded) (w' : @World (list Z) bool) (s1 s2 : list event),
    @load bool Demo.flag_numpy Demo.iso_parser 10 T = Ok L /\
    @funnel_loop (list Z) bool Demo.rng Demo.flag_numpy L (delivered_orders L)
      (Demo.world0 false) = Ok (tt, w') /\
    events w' = s1 ++ s2 /\
    map session_id s1 = repeat "id-0" 7 /\
    map session_id s2 = repeat "id-8" 7 /\
    map event_type s1 = types /\ map event_type s2 = types /\
    map order_id s1 = ids /\ map order_id s2 = ids /\
    ~ order_session T o s1 /\ ~ order_session T o s2.
Proof.
  cbv zeta. split; [reflexivity|]. split; [reflexivity|]. split.
  { intros block (sid & first & rest & _ & _ & Hty & _). exact Hty. }
  exists Demo.loaded_dup, Demo.after_funnel_dup,
    (firstn 7 (events Demo.after_funnel_dup)),
    (skipn 7 (events Demo.after_funnel_dup)).
  split; [vm_compute; reflexivity|]. split; [vm_compute; reflexivity|].
  split; [symmetry; apply firstn_skipn|].
  do 6 (split; [vm_compute; reflexivity|]).
  split; intros (sid & first & rest & _ & _ & Hty & _);
    vm_compute in Hty; discriminate Hty.
Qed.

(** ** The table that is written *)

Lemma Forall2_concat {A B : Type} (P : A -> B -> Prop) (l : list A)
    (bs : list (list B)) :
  Forall2 (fun a block => Forall (P a) block) l bs ->
  Forall (fun b => exists a, In a l /\ P a b) (concat bs).
Proof.
  induction 1 as [|a block l bs Hab _ IH]; [constructor|].
  cbn [concat]. apply Forall_app. split.
  - eapply Forall_impl; [|exact Hab].
    intros b Hb. exists a. split; [now left | exact Hb].
  - eapply Forall_impl; [|exact IH].
    intros b (a' & Ha' & Hb). exists a'. split; [now right | exact Hb].
Qed.

Lemma Forall2_In_l {A B : Type} (P : A -> B -> Prop) (l : list A)
    (bs : list B) (a : A) :
  Forall2 P l bs -> In a l -> exists b, In b bs /\ P a b.
Proof.
  induction 1 as [|a' b l bs Hab _ IH]; intros Hin; [destruct Hin|].
  destruct Hin as [<- | Hin].
  - exists b. split; [now left | exact Hab].
  - destruct (IH Hin) as (b' & Hb' & HP). exists b'. split; [now right | exact HP].
Qed.

Section Table.

Context {G R : Type} `{PyRandom G} `{NumpyRandom R} `{ToDatetime} `{ArgSort}.

Local Abbreviation World := (@World G R).

(** The rows of the table: the blocks of the funnel loop and then the
    blocks of the browsing loop, rearranged by the sort. *)
Lemma pipeline_blocks max num T (np0 : R) pool table :
  pipeline max num T np0 pool = Ok table ->
  exists (L : Loaded) (w1 w2 : World),
    load max T = Ok L /\
    funnel_loop L (delivered_orders L) (mkWorld (seed 42) np0 pool 0 [])
      = Ok (tt, w1) /\
    browsing_loop L num (base_orders_source L) w1 = Ok (tt, w2) /\
    Permutation
      (concat (session_blocks L (delivered_orders L)
                 (mkWorld (seed 42) np0 pool 0 []))
       ++ concat (browsing_blocks L num (base_orders_source L) w1))
      table.
Proof.
  intros E. apply pipeline_inv in E as (L & w1 & w2 & El & E1 & E2 & ->).
  exists L, w1, w2. repeat split; try assumption.
  destruct (funnel_loop_run L (delivered_orders L)
              (mkWorld (seed 42) np0 pool 0 [])) as (w1' & E1' & Hev1 & _).
  rewrite E1 in E1'. injection E1' as <-.
  destruct (browsing_loop_blocks L num _ w1 w2 E2) as (_ & Hev2 & _).
  cbn [events app] in Hev1. rewrite <- Hev1, <- Hev2. apply sort_values_perm.
Qed.

Lemma funnel_rows L rows (w : World) :
  Forall (fun e => exists row, In row rows /\
                     items_of L (OrdersJoined.order_id row) <> [] /\
                     funnel_event L row e)
    (concat (session_blocks L rows w)).
Proof.
  eapply Forall_impl;
    [|apply (Forall2_concat
               (fun row e => items_of L (OrdersJoined.order_id row) <> [] /\
                             funnel_event L row e))].
  - intros e (row & Hrow & Hne & He). exists row.
    split; [exact Hrow|]. split; [exact Hne | exact He].
  - eapply Forall2_impl; [|apply session_blocks_runs].
    intros row block (w0 & w1 & E & Hev).
    destruct (funnel_session_block L row w0 w1 block E Hev)
      as [[_ ->] | (Hne & first & rest & idx & _ & _ & _ & Hincl & ->)];
      [constructor|].
    eapply Forall_impl; [|apply funnel_block_events; eassumption].
    intros e He. split; assumption.
Qed.

Lemma browsing_rows L n src (w w' : World) :
  browsing_loop L n src w = Ok (tt, w') ->
  Forall (fun e => In (event_type e) browsing_types /\
                   browsing_columns L e /\
                   (is_authenticated e = 1 \/
                    (is_authenticated e = 0 /\ anonymous e)))
    (concat (browsing_blocks L n src w)).
Proof.
  intros E. apply browsing_loop_blocks in E as (_ & _ & Hall).
  apply Forall_concat. eapply Forall_impl; [|exact Hall].
  intros block (w0 & w1 & Es & Hev1).
  apply browsing_session_detail in Es
    as (o & d & m & cust & city & state & auth & source & device & block'
        & clocks & _ & _ & _ & _ & _ & Hvis & Hev' & _ & _ & _ & _ & Hall'
        & Hcols & _).
  assert (block' = block) by (apply (app_inv_head (events w0)); congruence).
  subst block'.
  rewrite Forall_forall in Hall', Hcols. apply Forall_forall. intros e He.
  destruct (Hall' e He) as (_ & Hty & Hc & _ & _ & Hau & Hci & Hst).
  split; [exact Hty|]. split; [apply Hcols, He|].
  destruct auth; [now left|]. right. split; [exact Hau|].
  destruct Hvis as [(_ & -> & -> & ->) | (Habs & _)]; [|discriminate].
  repeat split; assumption.
Qed.

(** X14. The columns of the table. Every row has one of the five event types
    and an authentication flag of 0 or 1; only a [purchase] row names an order
    and only a [view_product] or [add_to_cart] row names a product; a
    [checkout] or [purchase] row is authenticated; and a row that is not
    authenticated names no customer, city or state. *)
Theorem table_columns max num T (np0 : R) pool table :
  pipeline max num T np0 pool = Ok table ->
  Forall
    (fun e =>
       In (event_type e)
          ["page_view"; "view_product"; "add_to_cart"; "checkout"; "purchase"] /\
       (is_authenticated e = 0 \/ is_authenticated e = 1) /\
       (order_id e <> PyStr "" -> event_type e = "purchase") /\
       (product_id e <> PyStr "" ->
        event_type e = "view_product" \/ event_type e = "add_to_cart") /\
       (event_type e = "checkout" \/ event_type e = "purchase" ->
        is_authenticated e = 1) /\
       (is_authenticated e = 0 -> anonymous e))
    table.
Proof.
  intros E.
  apply pipeline_blocks in E as (L & w1 & w2 & _ & _ & E2 & Hperm).
  eapply Permutation_Forall; [exact Hperm|].
  apply Forall_app. split.
  - eapply Forall_impl; [|apply funnel_rows].
    intros e (row & _ & _ & Hau & _ & _ & _ & Hkind).
    split.
    { destruct Hkind as [(-> & _) | [([-> | ->] & _) | ([-> | ->] & _)]];
        simpl; auto 6. }
    split; [now right|]. split.
    { intros Ho. destruct Hkind as [(Ht & _) | [(_ & Ho' & _) | (_ & Ho' & _)]];
        [exact Ht | contradiction | contradiction]. }
    split.
    { intros Hp. destruct Hkind as [(_ & _ & Hp' & _) | [(_ & _ & Hp') | (Ht & _)]];
        [contradiction | contradiction | exact Ht]. }
    split; [intros _; exact Hau|].
    intros Hz. rewrite Hau in Hz. discriminate.
  - eapply Forall_impl; [|apply (browsing_rows L num _ w1 w2 E2)].
    intros e (Hty & (Hoid & Hprod) & Hauth).
    split.
    { unfold browsing_types in Hty. simpl in Hty |- *.
      destruct Hty as [<- | [<- | [<- | []]]]; auto. }
    split; [destruct Hauth as [Ha | [Ha _]]; [now right | now left]|].
    split; [intros Ho; contradiction|].
    split.
    { intros Hp. destruct Hprod as [[_ Hp'] | [Ht _]];
        [contradiction | exact Ht]. }
    split.
    { intros Hk. exfalso. unfold browsing_types in Hty. simpl in Hty.
      destruct Hk as [Hk | Hk]; rewrite Hk in Hty;
        destruct Hty as [Hx | [Hx | [Hx | []]]]; discriminate. }
    intros Hz. destruct Hauth as [Ha | [_ Han]]; [|exact Han].
    rewrite Ha in Hz. discriminate.
Qed.

(** X15. The purchases of the table are the selected delivered orders that
    have items. A [purchase] row names an order of the input table with status
    [delivered] and at least one order item, carries the customer id of that
    order, and is stamped with the parsed purchase time of the order; and
    every selected order that has an item has a [purchase] row. *)
Theorem purchases_are_delivered_orders max num T (np0 : R) pool table :
  pipeline max num T np0 pool = Ok table ->
  exists L : Loaded,
    load max T = Ok L /\
    (forall e, In e table -> event_type e = "purchase" ->
       exists (o : Orders.row) (row : OrdersJoined.row Clock.Timestamp) (t : Z),
         In o (orders T) /\
         Orders.order_status o = PyStr "delivered" /\
         order_id e = Orders.order_id o /\
         customer_id e = if_not_none (Orders.customer_id o) /\
         (exists it, In it (order_items T) /\
                     OrderItems.order_id it = Orders.order_id o) /\
         In row (delivered_orders L) /\
         OrdersJoined.order_id row = Orders.order_id o /\
         OrdersJoined.order_purchase_timestamp row = Some t /\
         event_ts e = Clock.isoformat_secs t) /\
    (forall row : OrdersJoined.row Clock.Timestamp,
       In row (delivered_orders L) ->
       items_of L (OrdersJoined.order_id row) <> [] ->
       exists e, In e table /\ event_type e = "purchase" /\
                 order_id e = OrdersJoined.order_id row).
Proof.
  intros E.
  apply pipeline_blocks in E as (L & w1 & w2 & El & _ & E2 & Hperm).
  exists L. split; [exact El|]. split.
  - intros e He Hty.
    apply (Permutation_in _ (Permutation_sym Hperm)) in He.
    apply in_app_or in He as [He | He].
    + pose proof (funnel_rows L (delivered_orders L)
                    (mkWorld (seed 42) np0 pool 0 [])) as Hf.
      rewrite Forall_forall in Hf.
      destruct (Hf e He) as (row & Hrow & Hne & _ & Hcid & _ & _ & Hkind).
      destruct Hkind as [(_ & Ho & _ & Hts) | [([Hx | Hx] & _) | ([Hx | Hx] & _)]];
        try (rewrite Hx in Hty; discriminate).
      pose proof (load_inv max T L El) as (_ & Hincl & _).
      destruct (qualifying_from_orders T row (Hincl row Hrow))
        as (o & Hin & Hoid & Hcust & Hst & t & Ht).
      exists o, row, t.
      split; [exact Hin|]. split; [exact Hst|]. split; [congruence|].
      split; [congruence|]. split.
      { rewrite Hoid. apply (items_of_source max T L _ El Hne). }
      split; [exact Hrow|]. split; [congruence|]. split; [exact Ht|].
      rewrite Hts, Ht. reflexivity.
    + pose proof (browsing_rows L num _ w1 w2 E2) as Hb.
      rewrite Forall_forall in Hb. destruct (Hb e He) as (Hbt & _).
      rewrite Hty in Hbt. unfold browsing_types in Hbt. simpl in Hbt.
      destruct Hbt as [Hx | [Hx | [Hx | []]]]; discriminate.
  - intros row Hrow Hne.
    destruct (Forall2_In_l _ _ _ row
                (session_blocks_runs L (delivered_orders L)
                   (mkWorld (seed 42) np0 pool 0 [])) Hrow)
      as (block & Hblock & w0 & w1' & Es & Hev).
    destruct (funnel_session_block L row w0 w1' block Es Hev)
      as [[Hnil _] | (_ & first & rest & idx & _ & _ & _ & _ & Eb)];
      [contradiction|].
    pose proof (items_of_order_id L row Hne) as Hoid.
    eexists. split; [|split].
    + eapply Permutation_in; [exact Hperm|]. apply in_or_app. left.
      apply in_concat. exists block. split; [exact Hblock|].
      rewrite Eb. unfold funnel_block. right. apply in_or_app. right.
      right. right. left. reflexivity.
    + reflexivity.
    + cbn [order_id event_of]. exact Hoid.
Qed.

End Table.


Section TableRuns.

Context {G R : Type} `{PyRandom G} `{NumpyRandom R} `{ToDatetime} `{ArgSort}.

Local Abbreviation World := (@World G R).







End TableRuns.

(** ** Identifiers and timestamps of the table *)

Lemma numbered_nil pool lo hi : numbered pool lo hi [].
Proof.
  exists [], []. repeat split; try constructor. intros i [].
Qed.

Lemma numbered_app pool lo mid hi new1 new2 :
  (lo <= mid <= hi)%nat ->
  numbered pool lo mid new1 -> numbered pool mid hi new2 ->
  numbered pool lo hi (new1 ++ new2).
Proof.
  intros Hm (i1 & s1 & Hi1 & Hs1 & Hn1 & Hb1 & Hc1 & Hd1)
            (i2 & s2 & Hi2 & Hs2 & Hn2 & Hb2 & Hc2 & Hd2).
  rewrite Forall_forall in Hb1, Hb2, Hc1, Hc2.
  exists (i1 ++ i2), (s1 ++ s2). rewrite !map_app, Hi1, Hi2, Hs1, Hs2.
  split; [reflexivity|]. split; [reflexivity|]. split.
  { apply NoDup_app; [exact Hn1 | exact Hn2 |].
    intros i Hin1 Hin2. apply Hb1 in Hin1. apply Hb2 in Hin2. lia. }
  split.
  { apply Forall_forall. intros i Hi. apply in_app_or in Hi as [Hi | Hi];
      [apply Hb1 in Hi | apply Hb2 in Hi]; lia. }
  split.
  { apply Forall_forall. intros i Hi. apply in_app_or in Hi as [Hi | Hi];
      [apply Hc1 in Hi | apply Hc2 in Hi]; lia. }
  intros i Hi Hs.
  apply in_app_or in Hi as [Hi | Hi]; apply in_app_or in Hs as [Hs | Hs].
  - exact (Hd1 i Hi Hs).
  - apply Hb1 in Hi. apply Hc2 in Hs. lia.
  - apply Hb2 in Hi. apply Hc1 in Hs. lia.
  - exact (Hd2 i Hi Hs).
Qed.

(** A session whose identifier is call number [c] and whose [n] events
    take the next [n] calls. *)
Lemma numbered_session pool c n block :
  map event_id block = map pool (seq (S c) n) ->
  Forall (fun e => session_id e = pool c) block ->
  numbered pool c (S c + n) block.
Proof.
  intros Hid Hsid.
  exists (seq (S c) n), (repeat c (length block)).
  split; [exact Hid|]. split.
  { clear Hid. induction Hsid as [|e block He _ IH]; [reflexivity|].
    cbn [map length repeat]. now rewrite He, IH. }
  split; [apply seq_NoDup|]. split.
  { apply Forall_forall. intros i Hi. apply in_seq in Hi. lia. }
  split.
  { apply Forall_forall. intros i Hi. apply repeat_spec in Hi. lia. }
  intros i Hi Hs. apply in_seq in Hi. apply repeat_spec in Hs. lia.
Qed.

Lemma view_block_ids
    (mk : nat -> string -> Clock.Timestamp -> pyval -> pyval -> event)
    (pool : nat -> string) c smp t incs :
  (forall i ty t pid oid, event_id (mk i ty t pid oid) = pool i) ->
  length smp = length incs ->
  map event_id (view_block mk c smp t incs) = map pool (seq c (length smp)).
Proof.
  intros Hid. revert c t incs.
  induction smp as [|r smp IH]; intros c t [|s incs] Hl; try discriminate;
    [reflexivity|].
  cbn [view_block map length seq]. rewrite Hid. f_equal.
  apply IH. now injection Hl.
Qed.

Lemma funnel_block_ids pool c (row : OrdersJoined.row Clock.Timestamp) d
    first rest :
  length (fd_views d) = length (first :: rest) ->
  map event_id (funnel_block pool c row d first rest)
    = map pool (seq (S c) (4 + length (first :: rest))).
Proof.
  intros Hv. unfold funnel_block.
  remember (first :: rest) as smp eqn:Esmp.
  set (k := length smp) in *.
  assert (Eseq : seq (S c) (4 + k) =
                 (c + 1)%nat :: seq (c + 2) k
                   ++ [(c + 2 + k)%nat; (c + 3 + k)%nat; (c + 4 + k)%nat]).
  { replace (4 + k)%nat with (1 + (k + 3))%nat by lia.
    rewrite (seq_app 1), (seq_app k). cbn [seq app].
    f_equal; [lia|]. f_equal; [f_equal; lia|].
    f_equal; [lia|]. f_equal; [lia|]. f_equal. lia. }
  rewrite Eseq. cbn [map]. rewrite !map_app.
  rewrite (view_block_ids _ pool) by (auto; symmetry; exact Hv).
  reflexivity.
Qed.

Lemma map_eq_ex {A B C : Type} (f : A -> C) (g : B -> C) (l : list A)
    (l' : list B) :
  map f l = map g l' -> Forall (fun x => exists y, f x = g y) l.
Proof.
  revert l'. induction l as [|a l IH]; intros [|b l'] E; try discriminate;
    constructor.
  - exists b. now injection E.
  - apply (IH l'). now injection E.
Qed.

Lemma isoformat_secs_not_NaT z : Clock.isoformat_secs z <> "NaT".
Proof.
  unfold Clock.isoformat_secs.
  destruct (Clock.civil_from_days (z / 86400)) as [[y m] d].
  unfold Clock.pad4, Clock.pad2. cbn [append]. intros E.
  apply (f_equal String.length) in E. cbn [String.length append] in E.
  discriminate.
Qed.

Lemma Forall2_concat_In {A B : Type} (Q : A -> list B -> Prop)
    (P : B -> Prop) (l : list A) (bs : list (list B)) :
  Forall2 Q l bs ->
  (forall a block, In a l -> Q a block -> Forall P block) ->
  Forall P (concat bs).
Proof.
  induction 1 as [|a block l bs Hab _ IH]; intros HP; [constructor|].
  cbn [concat]. apply Forall_app. split.
  - apply (HP a); [now left | exact Hab].
  - apply IH. intros a' block' Ha'. apply HP. now right.
Qed.

Section Identifiers.

Context {G R : Type} `{PyRandom G} `{NumpyRandom R} `{ToDatetime} `{ArgSort}.

Local Abbreviation World := (@World G R).

Lemma funnel_loop_numbered L rows (w w' : World) :
  funnel_loop L rows w = Ok (tt, w') ->
  uuid_pool w' = uuid_pool w /\
  (uuid_count w <= uuid_count w')%nat /\
  exists new : list event,
    events w' = events w ++ new /\
    numbered (uuid_pool w) (uuid_count w) (uuid_count w') new.
Proof.
  revert w. induction rows as [|row rows IH]; intros w E.
  - injection E as <-. repeat split; [lia|].
    exists []. rewrite app_nil_r. split; [reflexivity | apply numbered_nil].
  - cbn [funnel_loop] in E. apply bind_inv in E as ([] & w1 & E1 & E).
    apply IH in E as (Hp & Hc & new & Hev & Hnum).
    destruct (funnel_session_cases L row w w1 E1)
      as [[_ ->] | (_ & first & rest & r' & idx & _ & _ & Hlen & _ & ->)].
    + split; [exact Hp|]. split; [exact Hc|]. now exists new.
    + cbn [uuid_pool uuid_count events] in *.
      set (k := Nat.min 3 _) in *.
      pose proof (funnel_draws_spec k (py w)) as (_ & _ & _ & _ & Hv & _).
      rewrite <- Hlen in Hv at 2.
      split; [exact Hp|]. split; [lia|].
      eexists. split; [rewrite Hev, <- app_assoc; reflexivity|].
      eapply numbered_app; [| |exact Hnum]; [lia|].
      replace (uuid_count w + 5 + k)%nat
        with (S (uuid_count w) + (4 + length (first :: rest)))%nat by lia.
      apply numbered_session.
      * apply funnel_block_ids, Hv.
      * apply (funnel_block_columns _ _ _ _ _ _ Hv).
Qed.

Lemma browsing_loop_numbered L n src (w w' : World) :
  browsing_loop L n src w = Ok (tt, w') ->
  uuid_pool w' = uuid_pool w /\
  (uuid_count w <= uuid_count w')%nat /\
  exists new : list event,
    events w' = events w ++ new /\
    numbered (uuid_pool w) (uuid_count w) (uuid_count w') new.
Proof.
  revert w. induction n as [|n IH]; intros w E.
  - injection E as <-. repeat split; [lia|].
    exists []. rewrite app_nil_r. split; [reflexivity | apply numbered_nil].
  - cbn [browsing_loop] in E. apply bind_inv in E as ([] & w1 & E1 & E).
    apply IH in E as (Hp & Hc & new & Hev & Hnum).
    apply browsing_session_detail in E1
      as (o & d & m & cust & city & state & auth & source & device & block
          & clocks & _ & _ & _ & _ & _ & _ & Hev1 & _ & Hp1 & Hc1 & Hid & Hall
          & _).
    split; [congruence|]. split; [lia|].
    exists (block ++ new). split; [rewrite Hev, Hev1; now rewrite app_assoc|].
    rewrite Hp1 in Hnum.
    eapply numbered_app; [| |exact Hnum]; [lia|].
    replace (uuid_count w1) with (S (uuid_count w) + length block)%nat by lia.
    apply numbered_session; [exact Hid|].
    eapply Forall_impl; [|exact Hall]. intros e He. apply He.
Qed.

(** X19. With identifiers that never repeat, no two rows of the table have the
    same [event_id], and no [event_id] is the [session_id] of any row. *)
Theorem event_ids_distinct max num T (np0 : R) pool table :
  pipeline max num T np0 pool = Ok table ->
  (forall i j : nat, pool i = pool j -> i = j) ->
  NoDup (map event_id table) /\
  forall e1 e2, In e1 table -> In e2 table -> event_id e1 <> session_id e2.
Proof.
  intros E Hinj. apply pipeline_inv in E as (L & w1 & w2 & _ & E1 & E2 & ->).
  apply funnel_loop_numbered in E1 as (Hp1 & Hc1 & new1 & Hev1 & Hn1).
  apply browsing_loop_numbered in E2 as (Hp2 & Hc2 & new2 & Hev2 & Hn2).
  cbn [uuid_pool uuid_count events app] in *. rewrite Hp1 in Hn2.
  assert (Hn : numbered pool 0 (uuid_count w2) (new1 ++ new2))
    by (eapply numbered_app; [|exact Hn1|exact Hn2]; lia).
  rewrite Hev2, Hev1.
  destruct Hn as (ids & sids & Hid & Hsid & Hnd & _ & _ & Hdis).
  pose proof (sort_values_perm (new1 ++ new2)) as Hperm.
  split.
  - eapply Permutation_NoDup; [apply Permutation_map, Hperm|].
    rewrite Hid. clear -Hnd Hinj.
    induction Hnd as [|i ids Hi _ IH]; cbn [map]; constructor; [|exact IH].
    intros Hin. apply in_map_iff in Hin as (j & Hj & Hin).
    apply Hinj in Hj. now subst j.
  - intros e1 e2 Hin1 Hin2 Heq.
    apply (Permutation_in _ (Permutation_sym Hperm)) in Hin1, Hin2.
    apply (in_map event_id) in Hin1. apply (in_map session_id) in Hin2.
    rewrite Hid in Hin1. rewrite Hsid in Hin2.
    apply in_map_iff in Hin1 as (i & Hi & Hin1).
    apply in_map_iff in Hin2 as (j & Hj & Hin2).
    assert (i = j) by (apply Hinj; congruence). subst j.
    exact (Hdis i Hin1 Hin2).
Qed.

(** X20. With a positive cap on purchase sessions, every row of the table is
    stamped with the rendering of a timestamp: no row has [NaT] in [event_ts]. *)
Theorem table_timestamps_rendered max num T (np0 : R) pool table :
  (0 < max)%nat ->
  pipeline max num T np0 pool = Ok table ->
  Forall (fun e => (exists z, event_ts e = Clock.isoformat_secs z) /\
                   event_ts e <> "NaT") table.
Proof.
  intros Hmax E.
  apply pipeline_blocks in E as (L & w1 & w2 & El & _ & E2 & Hperm).
  destruct (load_delivered max T L Hmax El) as [Hne Hincl].
  assert (Hts : forall row : OrdersJoined.row Clock.Timestamp,
            In row (delivered_orders L) ->
            exists t, OrdersJoined.order_purchase_timestamp row = Some t).
  { intros row Hrow.
    destruct (qualifying_from_orders T row (Hincl row Hrow))
      as (_ & _ & _ & _ & _ & Ht). exact Ht. }
  assert (Hsrc : base_orders_source L = delivered_orders L).
  { unfold base_orders_source. destruct (delivered_orders L); congruence. }
  assert (Hz : Forall (fun e => exists z, event_ts e = Clock.isoformat_secs z)
                 table).
  { eapply Permutation_Forall; [exact Hperm|]. apply Forall_app. split.
    - eapply Forall2_concat_In; [apply session_blocks_runs|].
      intros row block Hrow (w0 & w1' & Es & Hev).
      destruct (funnel_session_block L row w0 w1' block Es Hev)
        as [[_ ->] | (_ & first & rest & idx & _ & _ & Hlen & _ & ->)];
        [constructor|].
      destruct (Hts row Hrow) as [t Ht].
      set (k := Nat.min 3 _) in *.
      pose proof (funnel_draws_spec k (py w0)) as (_ & _ & _ & _ & Hv & _).
      rewrite <- Hlen in Hv at 2.
      eapply map_eq_ex. apply (funnel_block_clock _ _ _ _ _ _ t Ht Hv).
    - apply Forall_concat.
      pose proof (browsing_loop_blocks L num _ w1 w2 E2) as (_ & _ & Hall).
      eapply Forall_impl; [|exact Hall].
      intros block (w0 & w1' & Es & Hev1).
      apply browsing_session_detail in Es
        as (o & d & m & cust & city & state & auth & source & device & block'
            & clocks & Ho & _ & _ & _ & _ & _ & Hev' & _ & _ & _ & _ & _ & _
            & Hmap & Hhd & Hch).
      assert (block' = block)
        by (apply (app_inv_head (events w0)); congruence).
      subst block'. rewrite Hsrc in Ho. destruct (Hts o Ho) as [t Ht].
      rewrite Ht in Hhd. cbn [Clock.ts_sub] in Hhd.
      destruct (ts_chain_some 5 60 clocks _ Hch Hhd) as (zs & -> & _).
      rewrite map_map in Hmap. eapply map_eq_ex. exact Hmap. }
  eapply Forall_impl; [|exact Hz].
  intros e [z Hz']. split; [now exists z|].
  rewrite Hz'. apply isoformat_secs_not_NaT.
Qed.

End Identifiers.

Lemma map_eq_Forall {A B C : Type} (f : A -> C) (g : B -> C) (P : B -> Prop)
    (l : list A) (l' : list B) :
  map f l = map g l' -> Forall P l' ->
  Forall (fun x => exists y, f x = g y /\ P y) l.
Proof.
  revert l'. induction l as [|a l IH]; intros [|b l'] E HP; try discriminate;
    constructor; inversion HP as [|? ? Hb Hl']; subst.
  - exists b. split; [now injection E | exact Hb].
  - apply (IH l'); [now injection E | exact Hl'].
Qed.

Lemma chain_window zs :
  chain 5 60 zs ->
  Forall (fun z => hd 0 zs <= z <= hd 0 zs + 60 * (Z.of_nat (length zs) - 1)) zs.
Proof.
  induction zs as [|a zs IH]; intros Hch; [constructor|].
  constructor; [cbn [hd length]; lia|].
  destruct zs as [|b zs']; [constructor|].
  destruct Hch as [Hab Hch]. specialize (IH Hch).
  eapply Forall_impl; [|exact IH].
  cbn [hd length]. intros z Hz. lia.
Qed.

Section BrowsingWindow.

Context {G R : Type} `{PyRandom G} `{NumpyRandom R}.

Local Abbreviation World := (@World G R).

Variable L : Loaded.

(** X21. Every event of a browsing session is stamped before the purchase time
    of the reference order of the session: at most 61 days before it (60 days
    and 1440 minutes) and at least 86100 seconds before it (one day less the
    five steps of at most a minute that follow the first event). *)
Theorem browsing_session_window n src (w w' : World) :
  browsing_loop L n src w = Ok (tt, w') ->
  Forall
    (fun block =>
       exists o : OrdersJoined.row Clock.Timestamp,
         In o src /\
         forall t, OrdersJoined.order_purchase_timestamp o = Some t ->
           Forall (fun e => exists z, event_ts e = Clock.isoformat_secs z /\
                                      t - 5270400 <= z <= t - 86100) block)
    (browsing_blocks L n src w).
Proof.
  intros E. apply browsing_loop_blocks in E as (_ & _ & Hall).
  eapply Forall_impl; [|exact Hall].
  intros block (w0 & w1 & Es & Hev1).
  apply browsing_session_detail in Es
    as (o & d & m & cust & city & state & auth & source & device & block'
        & clocks & Ho & Hd & Hm & _ & _ & _ & Hev' & Hlen & _ & _ & _ & _ & _
        & Hts & Hhd & Hch).
  assert (block' = block) by (apply (app_inv_head (events w0)); congruence).
  subst block'. exists o. split; [exact Ho|]. intros t Ht.
  rewrite Ht in Hhd. cbn [Clock.ts_sub] in Hhd.
  destruct (ts_chain_some 5 60 clocks _ Hch Hhd) as (zs & -> & Hz & Hchz).
  rewrite map_map in Hts.
  assert (Hl : length zs = length block).
  { apply (f_equal (@length _)) in Hts. now rewrite !length_map in Hts. }
  apply (map_eq_Forall _ _ _ _ _ Hts).
  eapply Forall_impl; [|apply chain_window, Hchz].
  intros z Hzw. cbv beta in Hzw. rewrite Hz in Hzw.
  unfold Clock.timedelta in Hzw. lia.
Qed.

End BrowsingWindow.

(** ** The script as it is configured *)


Section MainScript.

Context {G R : Type} `{PyRandom G} `{NumpyRandom R} `{ToDatetime} `{ArgSort}.

Local Abbreviation World := (@World G R).



End MainScript.

(** ** Sessions in the table *)

Lemma ForallOrdPairs_app {A : Type} (R : A -> A -> Prop) (l1 l2 : list A) :
  ForallOrdPairs R l1 -> ForallOrdPairs R l2 ->
  (forall a b, In a l1 -> In b l2 -> R a b) ->
  ForallOrdPairs R (l1 ++ l2).
Proof.
  induction 1 as [|a l1 Ha _ IH]; intros H2 Hx; [exact H2|].
  cbn [app]. constructor.
  - apply Forall_app. split; [exact Ha|].
    apply Forall_forall. intros b Hb. apply Hx; [now left | exact Hb].
  - apply IH; [exact H2|]. intros a' b Ha' Hb. apply Hx; [now right | exact Hb].
Qed.

Section SessionIds.

Context {G R : Type} `{PyRandom G} `{NumpyRandom R} `{ToDatetime} `{ArgSort}.

Local Abbreviation World := (@World G R).

Variable pool : nat -> string.
Hypothesis pool_inj : forall i j : nat, pool i = pool j -> i = j.

(** A block under the session id of call number [c], before blocks whose
    session ids come from later calls. *)
Lemma own_session_cons c hi (b : list event) (blocks : list (list event)) :
  Forall (fun e => session_id e = pool c) b ->
  Forall
    (Forall (fun e => exists c', (c < c' < hi)%nat /\ session_id e = pool c'))
    blocks ->
  one_session b /\ Forall (share_no_session b) blocks.
Proof.
  intros Hb Hblocks. rewrite Forall_forall in Hb. split.
  - intros e1 e2 H1' H2'. rewrite (Hb e1 H1'), (Hb e2 H2'). reflexivity.
  - eapply Forall_impl; [|exact Hblocks].
    intros b' Hb' e1 e2 H1' H2' Heq. rewrite Forall_forall in Hb'.
    destruct (Hb' e2 H2') as (c' & Hc' & Hs). rewrite (Hb e1 H1'), Hs in Heq.
    apply pool_inj in Heq. lia.
Qed.

Lemma funnel_blocks_own_ids L rows (w w' : World) :
  uuid_pool w = pool ->
  funnel_loop L rows w = Ok (tt, w') ->
  (uuid_count w <= uuid_count w')%nat /\
  Forall
    (Forall (fun e => exists c, (uuid_count w <= c < uuid_count w')%nat /\
                                session_id e = pool c))
    (session_blocks L rows w) /\
  Forall one_session (session_blocks L rows w) /\
  ForallOrdPairs share_no_session (session_blocks L rows w).
Proof.
  revert w. induction rows as [|row rows IH]; intros w Hpool E.
  - injection E as <-. split; [lia|]. repeat split; constructor.
  - cbn [funnel_loop] in E. apply bind_inv in E as ([] & w1 & E1 & E).
    destruct (funnel_session_effect L row w) as (block & w1' & E1' & Ev & _).
    rewrite E1 in E1'. injection E1' as <-.
    rewrite (session_blocks_cons L _ _ _ _ _ E1 Ev).
    destruct (funnel_session_block L row w w1 block E1 Ev)
      as [[_ ->] | (_ & first & rest & idx & _ & _ & Hlen & _ & Eb)].
    + destruct (funnel_session_cases L row w w1 E1)
        as [[_ ->] | (Hne & _)].
      * destruct (IH w Hpool E) as (Hc & Hr & Ho & Hp).
        split; [exact Hc|]. split; [constructor; [constructor | exact Hr]|].
        split.
        { constructor; [|exact Ho]. intros e1 e2 []. }
        constructor; [|exact Hp].
        apply Forall_forall. intros b _ e1 e2 [].
      * exfalso.
        destruct (funnel_session_block L row w w1 [] E1 Ev)
          as [[Hnil _] | (_ & f & r & i & _ & _ & _ & _ & Habs)];
          [contradiction | discriminate].
    + destruct (funnel_session_cases L row w w1 E1)
        as [[Hnil _] | (_ & f' & r' & rr & idx' & _ & _ & _ & _ & Ew1)].
      { exfalso. rewrite Hnil in Hlen. discriminate. }
      assert (Hp1 : uuid_pool w1 = pool) by (rewrite Ew1; exact Hpool).
      assert (Hc1 : (uuid_count w < uuid_count w1)%nat)
        by (rewrite Ew1; cbn [uuid_count]; lia).
      destruct (IH w1 Hp1 E) as (Hc & Hr & Ho & Hp).
      set (k := Nat.min 3 _) in *.
      pose proof (funnel_draws_spec k (py w)) as (_ & _ & _ & _ & Hv & _).
      rewrite <- Hlen in Hv at 2.
      pose proof (funnel_block_columns (uuid_pool w) (uuid_count w) row _
                    first rest Hv) as (_ & _ & _ & Hsid).
      rewrite <- Eb, Hpool in Hsid.
      assert (Hlater : Forall
                (Forall (fun e => exists c', (uuid_count w < c' < uuid_count w')%nat
                                             /\ session_id e = pool c'))
                (session_blocks L rows w1)).
      { eapply Forall_impl; [|exact Hr]. intros b Hb.
        eapply Forall_impl; [|exact Hb].
        intros e (c & Hcr & Hs). exists c. split; [lia | exact Hs]. }
      destruct (own_session_cons _ _ _ _ Hsid Hlater) as [Hone Hshare].
      split; [lia|]. split.
      { constructor.
        - eapply Forall_impl; [|exact Hsid].
          intros e He. exists (uuid_count w). split; [lia | exact He].
        - eapply Forall_impl; [|exact Hr]. intros b Hb.
          eapply Forall_impl; [|exact Hb].
          intros e (c & Hcr & Hs). exists c. split; [lia | exact Hs]. }
      split; [constructor; assumption|].
      constructor; assumption.
Qed.

Lemma browsing_blocks_own_ids L n src (w w' : World) :
  uuid_pool w = pool ->
  browsing_loop L n src w = Ok (tt, w') ->
  (uuid_count w <= uuid_count w')%nat /\
  Forall
    (Forall (fun e => exists c, (uuid_count w <= c < uuid_count w')%nat /\
                                session_id e = pool c))
    (browsing_blocks L n src w) /\
  Forall one_session (browsing_blocks L n src w) /\
  ForallOrdPairs share_no_session (browsing_blocks L n src w).
Proof.
  revert w. induction n as [|n IH]; intros w Hpool E.
  - injection E as <-. split; [lia|]. repeat split; constructor.
  - cbn [browsing_loop] in E. apply bind_inv in E as ([] & w1 & E1 & E).
    pose proof E1 as Es.
    apply browsing_session_detail in Es
      as (o & d & m & cust & city & state & auth & source & device & block
          & clocks & _ & _ & _ & _ & _ & _ & Hev1 & _ & Hp1 & Hc1 & _ & Hall
          & _).
    assert (Hsid : Forall (fun e => session_id e = pool (uuid_count w)) block).
    { rewrite <- Hpool. eapply Forall_impl; [|exact Hall].
      intros e He. apply He. }
    assert (Hp1' : uuid_pool w1 = pool) by congruence.
    destruct (IH w1 Hp1' E) as (Hc & Hr & Ho & Hp).
    cbn [browsing_blocks]. rewrite E1, Hev1.
    rewrite skipn_app, skipn_all, Nat.sub_diag. cbn [app skipn].
    assert (Hlater : Forall
              (Forall (fun e => exists c', (uuid_count w < c' < uuid_count w')%nat
                                           /\ session_id e = pool c'))
              (browsing_blocks L n src w1)).
    { eapply Forall_impl; [|exact Hr]. intros b Hb.
      eapply Forall_impl; [|exact Hb].
      intros e (c & Hcr & Hs). exists c. split; [lia | exact Hs]. }
    destruct (own_session_cons _ _ _ _ Hsid Hlater) as [Hone Hshare].
    split; [lia|]. split.
    { constructor.
      - eapply Forall_impl; [|exact Hsid].
        intros e He. exists (uuid_count w). split; [lia | exact He].
      - eapply Forall_impl; [|exact Hr]. intros b Hb.
        eapply Forall_impl; [|exact Hb].
        intros e (c & Hcr & Hs). exists c. split; [lia | exact Hs]. }
    split; [constructor; assumption|].
    constructor; assumption.
Qed.

(** X23. With identifiers that never repeat, the session id tells the sessions
    apart. The table is a rearrangement of the blocks that the two loops
    append, one per funnel session (empty for an order without items) and one
    per browsing session; the events of a block all have the same session id,
    and events of two different blocks never do. *)
Theorem sessions_have_own_ids max num T (np0 : R) table :
  pipeline max num T np0 pool = Ok table ->
  exists (L : Loaded) (w1 w2 : World) (blocks : list (list event)),
    load max T = Ok L /\
    funnel_loop L (delivered_orders L) (mkWorld (seed 42) np0 pool 0 [])
      = Ok (tt, w1) /\
    browsing_loop L num (base_orders_source L) w1 = Ok (tt, w2) /\
    blocks =
      session_blocks L (delivered_orders L) (mkWorld (seed 42) np0 pool 0 [])
      ++ browsing_blocks L num (base_orders_source L) w1 /\
    Permutation (concat blocks) table /\
    Forall one_session blocks /\
    ForallOrdPairs share_no_session blocks.
Proof.
  intros E.
  apply pipeline_blocks in E as (L & w1 & w2 & El & E1 & E2 & Hperm).
  exists L, w1, w2. eexists. split; [exact El|]. split; [exact E1|].
  split; [exact E2|]. split; [reflexivity|].
  split; [rewrite concat_app; exact Hperm|].
  destruct (funnel_loop_run L (delivered_orders L)
              (mkWorld (seed 42) np0 pool 0 [])) as (w1' & E1' & _ & Hp1 & _).
  rewrite E1 in E1'. injection E1' as <-. cbn [uuid_pool] in Hp1.
  destruct (funnel_blocks_own_ids L (delivered_orders L)
              (mkWorld (seed 42) np0 pool 0 []) w1 eq_refl E1)
    as (Hc1 & Hr1 & Ho1 & Hd1).
  destruct (browsing_blocks_own_ids L _ _ w1 w2 Hp1 E2)
    as (Hc2 & Hr2 & Ho2 & Hd2).
  split; [apply Forall_app; split; assumption|].
  apply ForallOrdPairs_app; [exact Hd1 | exact Hd2 |].
  intros b1 b2 Hb1 Hb2 e1 e2 He1 He2 Heq.
  rewrite Forall_forall in Hr1, Hr2.
  pose proof (Hr1 b1 Hb1) as Hx1. pose proof (Hr2 b2 Hb2) as Hx2.
  rewrite Forall_forall in Hx1, Hx2.
  destruct (Hx1 e1 He1) as (c1 & Hc1' & Hs1).
  destruct (Hx2 e2 He2) as (c2 & Hc2' & Hs2).
  rewrite Hs1, Hs2 in Heq. apply pool_inj in Heq. lia.
Qed.

End SessionIds.

(** ** Counting the rows of a type *)







Section Conversions.

Context {G R : Type} `{PyRandom G} `{NumpyRandom R} `{ToDatetime} `{ArgSort}.

Local Abbreviation World := (@World G R).



End Conversions.

(** ** The further statements on concrete runs *)



Lemma selected_orders_are_delivered_witness :
  @load bool Demo.flag_numpy Demo.iso_parser 10 Demo.tables = Ok Demo.loaded /\
  Forall
    (fun row : OrdersJoined.row Clock.Timestamp =>
       exists o : Orders.row,
         In o (orders Demo.tables) /\
         Orders.order_id o = OrdersJoined.order_id row /\
         Orders.customer_id o = OrdersJoined.customer_id row /\
         Orders.order_status o = PyStr "delivered" /\
         exists t, OrdersJoined.order_purchase_timestamp row = Some t)
    (delivered_orders Demo.loaded).
Proof.
  assert (E : @load bool Demo.flag_numpy Demo.iso_parser 10 Demo.tables
              = Ok Demo.loaded) by (vm_compute; reflexivity).
  split; [exact E|].
  exact (@selected_orders_are_delivered bool Demo.flag_numpy Demo.iso_parser
           10%nat Demo.tables Demo.loaded E).
Defined.

Lemma id_lists_distinct_and_complete_witness :
  @load bool Demo.flag_numpy Demo.iso_parser 10 Demo.tables = Ok Demo.loaded /\
  NoDup (product_ids Demo.loaded) /\ NoDup (customers_list Demo.loaded).
Proof.
  assert (E : @load bool Demo.flag_numpy Demo.iso_parser 10 Demo.tables
              = Ok Demo.loaded) by (vm_compute; reflexivity).
  split; [exact E|].
  destruct (@id_lists_distinct_and_complete bool Demo.flag_numpy
              Demo.iso_parser 10%nat Demo.tables Demo.loaded E)
    as (Hp & _ & Hc & _).
  split; [exact Hp | exact Hc].
Defined.

Lemma items_of_input_rows_witness :
  @load bool Demo.flag_numpy Demo.iso_parser 10 Demo.tables = Ok Demo.loaded /\
  items_of Demo.loaded PyNaN = [] /\ items_of Demo.loaded PyNone = [].
Proof.
  assert (E : @load bool Demo.flag_numpy Demo.iso_parser 10 Demo.tables
              = Ok Demo.loaded) by (vm_compute; reflexivity).
  split; [exact E|].
  exact (proj2 (proj2 (@items_of_input_rows bool Demo.flag_numpy
                         Demo.iso_parser 10%nat Demo.tables Demo.loaded E))).
Defined.

Lemma browsing_sessions_size_witness :
  @browsing_loop (list Z) bool Demo.rng Demo.flag_numpy Demo.loaded 2
    (base_orders_source Demo.loaded) (Demo.world0 false)
  = Ok (tt, Demo.after_browsing) /\
  length (@browsing_blocks (list Z) bool Demo.rng Demo.flag_numpy Demo.loaded 2
            (base_orders_source Demo.loaded) (Demo.world0 false)) = 2%nat.
Proof.
  assert (E : @browsing_loop (list Z) bool Demo.rng Demo.flag_numpy Demo.loaded
                2 (base_orders_source Demo.loaded) (Demo.world0 false)
              = Ok (tt, Demo.after_browsing)) by (vm_compute; reflexivity).
  split; [exact E|].
  exact (proj1 (@browsing_sessions_size (list Z) bool Demo.rng Demo.flag_numpy
                  Demo.loaded 2%nat (base_orders_source Demo.loaded)
                  (Demo.world0 false) Demo.after_browsing E)).
Defined.

Lemma browsing_session_clock_witness :
  @browsing_loop (list Z) bool Demo.rng Demo.flag_numpy Demo.loaded 2
    (base_orders_source Demo.loaded) (Demo.world0 false)
  = Ok (tt, Demo.after_browsing) /\
  Forall
    (fun block =>
       exists (o : OrdersJoined.row Clock.Timestamp) (d m : Z),
         In o (base_orders_source Demo.loaded) /\
         1 <= d <= 60 /\ 0 <= m <= 1440 /\
         match OrdersJoined.order_purchase_timestamp o with
         | Some t =>
             exists zs : list Z,
               map event_ts block = map Clock.isoformat_secs zs /\
               hd 0 zs = t - (86400 * d + 60 * m) /\
               chain 5 60 zs /\
               StronglySorted Z.lt zs
         | None => Forall (fun e => event_ts e = "NaT") block
         end)
    (@browsing_blocks (list Z) bool Demo.rng Demo.flag_numpy Demo.loaded 2
       (base_orders_source Demo.loaded) (Demo.world0 false)).
Proof.
  assert (E : @browsing_loop (list Z) bool Demo.rng Demo.flag_numpy Demo.loaded
                2 (base_orders_source Demo.loaded) (Demo.world0 false)
              = Ok (tt, Demo.after_browsing)) by (vm_compute; reflexivity).
  split; [exact E|].
  exact (@browsing_session_clock (list Z) bool Demo.rng Demo.flag_numpy
           Demo.loaded 2%nat (base_orders_source Demo.loaded)
           (Demo.world0 false) Demo.after_browsing E).
Defined.

Lemma browsing_products_and_orders_witness :
  @browsing_loop (list Z) bool Demo.rng Demo.flag_numpy Demo.loaded 2
    (base_orders_source Demo.loaded) (Demo.world0 false)
  = Ok (tt, Demo.after_browsing) /\
  exists new : list event,
    events Demo.after_browsing = events (Demo.world0 false) ++ new /\
    Forall (browsing_columns Demo.loaded) new.
Proof.
  assert (E : @browsing_loop (list Z) bool Demo.rng Demo.flag_numpy Demo.loaded
                2 (base_orders_source Demo.loaded) (Demo.world0 false)
              = Ok (tt, Demo.after_browsing)) by (vm_compute; reflexivity).
  split; [exact E|].
  exact (@browsing_products_and_orders (list Z) bool Demo.rng Demo.flag_numpy
           Demo.loaded 2%nat (base_orders_source Demo.loaded)
           (Demo.world0 false) Demo.after_browsing E).
Defined.

Lemma browsing_session_window_witness :
  @browsing_loop (list Z) bool Demo.rng Demo.flag_numpy Demo.loaded 2
    (base_orders_source Demo.loaded) (Demo.world0 false)
  = Ok (tt, Demo.after_browsing) /\
  Forall
    (fun block =>
       exists o : OrdersJoined.row Clock.Timestamp,
         In o (base_orders_source Demo.loaded) /\
         forall t, OrdersJoined.order_purchase_timestamp o = Some t ->
           Forall (fun e => exists z, event_ts e = Clock.isoformat_secs z /\
                                      t - 5270400 <= z <= t - 86100) block)
    (@browsing_blocks (list Z) bool Demo.rng Demo.flag_numpy Demo.loaded 2
       (base_orders_source Demo.loaded) (Demo.world0 false)).
Proof.
  assert (E : @browsing_loop (list Z) bool Demo.rng Demo.flag_numpy Demo.loaded
                2 (base_orders_source Demo.loaded) (Demo.world0 false)
              = Ok (tt, Demo.after_browsing)) by (vm_compute; reflexivity).
  split; [exact E|].
  exact (@browsing_session_window (list Z) bool Demo.rng Demo.flag_numpy
           Demo.loaded 2%nat (base_orders_source Demo.loaded)
           (Demo.world0 false) Demo.after_browsing E).
Defined.

Lemma browsing_visitor_witness :
  @load bool Demo.flag_numpy Demo.iso_parser 10 Demo.tables = Ok Demo.loaded /\
  @browsing_loop (list Z) bool Demo.rng Demo.flag_numpy Demo.loaded 2
    (base_orders_source Demo.loaded) (Demo.world0 false)
  = Ok (tt, Demo.after_browsing) /\
  Forall
    (fun block =>
       Forall (fun e => is_authenticated e = 0 /\ anonymous e) block \/
       (exists (cid : string) (c : Customers.row),
          find (fun c => cell_eq (Customers.customer_id c) (PyStr cid))
               (customers Demo.tables) = Some c /\
          Forall (fun e => is_authenticated e = 1 /\
                           customer_id e = PyStr cid /\
                           customer_city e = or_empty (Customers.customer_city c) /\
                           customer_state e
                             = or_empty (Customers.customer_state c)) block) \/
       ((forall c, In c (customers Demo.tables) ->
           forall x, Customers.customer_id c <> PyStr x) /\
        Forall (fun e => is_authenticated e = 1 /\ anonymous e) block))
    (@browsing_blocks (list Z) bool Demo.rng Demo.flag_numpy Demo.loaded 2
       (base_orders_source Demo.loaded) (Demo.world0 false)).
Proof.
  assert (El : @load bool Demo.flag_numpy Demo.iso_parser 10 Demo.tables
               = Ok Demo.loaded) by (vm_compute; reflexivity).
  assert (E : @browsing_loop (list Z) bool Demo.rng Demo.flag_numpy Demo.loaded
                2 (base_orders_source Demo.loaded) (Demo.world0 false)
              = Ok (tt, Demo.after_browsing)) by (vm_compute; reflexivity).
  split; [exact El|]. split; [exact E|].
  exact (@browsing_visitor (list Z) bool Demo.rng Demo.flag_numpy
           Demo.iso_parser 10%nat Demo.tables Demo.loaded 2%nat
           (base_orders_source Demo.loaded) (Demo.world0 false)
           Demo.after_browsing El E).
Defined.

Lemma table_columns_witness :
  @pipeline (list Z) bool Demo.rng Demo.flag_numpy Demo.iso_parser
    Demo.stable_argsort 10 1 Demo.tables false Demo.counter_pool
  = Ok Demo.table /\
  Forall
    (fun e =>
       In (event_type e)
          ["page_view"; "view_product"; "add_to_cart"; "checkout"; "purchase"] /\
       (is_authenticated e = 0 \/ is_authenticated e = 1) /\
       (order_id e <> PyStr "" -> event_type e = "purchase") /\
       (product_id e <> PyStr "" ->
        event_type e = "view_product" \/ event_type e = "add_to_cart") /\
       (event_type e = "checkout" \/ event_type e = "purchase" ->
        is_authenticated e = 1) /\
       (is_authenticated e = 0 -> anonymous e))
    Demo.table.
Proof.
  assert (E : @pipeline (list Z) bool Demo.rng Demo.flag_numpy Demo.iso_parser
    Demo.stable_argsort 10 1 Demo.tables false Demo.counter_pool
              = Ok Demo.table) by (vm_compute; reflexivity).
  split; [exact E|].
  exact (@table_columns (list Z) bool Demo.rng Demo.flag_numpy Demo.iso_parser
           Demo.stable_argsort 10%nat 1%nat Demo.tables false Demo.counter_pool
           Demo.table E).
Defined.

Lemma purchases_are_delivered_orders_witness :
  @pipeline (list Z) bool Demo.rng Demo.flag_numpy Demo.iso_parser
    Demo.stable_argsort 10 1 Demo.tables false Demo.counter_pool
  = Ok Demo.table /\
  exists L : Loaded,
    @load bool Demo.flag_numpy Demo.iso_parser 10 Demo.tables = Ok L /\
    forall row : OrdersJoined.row Clock.Timestamp,
      In row (delivered_orders L) ->
      items_of L (OrdersJoined.order_id row) <> [] ->
      exists e, In e Demo.table /\ event_type e = "purchase" /\
                order_id e = OrdersJoined.order_id row.
Proof.
  assert (E : @pipeline (list Z) bool Demo.rng Demo.flag_numpy Demo.iso_parser
    Demo.stable_argsort 10 1 Demo.tables false Demo.counter_pool
              = Ok Demo.table) by (vm_compute; reflexivity).
  split; [exact E|].
  destruct (@purchases_are_delivered_orders (list Z) bool Demo.rng
              Demo.flag_numpy Demo.iso_parser Demo.stable_argsort 10%nat 1%nat
              Demo.tables false Demo.counter_pool Demo.table E)
    as (L & El & _ & Hrows).
  exists L. split; [exact El | exact Hrows].
Defined.




Lemma event_ids_distinct_witness :
  @pipeline (list Z) bool Demo.rng Demo.flag_numpy Demo.iso_parser
    Demo.stable_argsort 10 1 Demo.tables false Demo.counter_pool
  = Ok Demo.table /\
  (forall i j : nat, Demo.counter_pool i = Demo.counter_pool j -> i = j) /\
  NoDup (map event_id Demo.table).
Proof.
  assert (E : @pipeline (list Z) bool Demo.rng Demo.flag_numpy Demo.iso_parser
    Demo.stable_argsort 10 1 Demo.tables false Demo.counter_pool
              = Ok Demo.table) by (vm_compute; reflexivity).
  split; [exact E|]. split; [exact counter_pool_inj|].
  exact (proj1 (@event_ids_distinct (list Z) bool Demo.rng Demo.flag_numpy
                  Demo.iso_parser Demo.stable_argsort 10%nat 1%nat Demo.tables
                  false Demo.counter_pool Demo.table E counter_pool_inj)).
Defined.

Lemma table_timestamps_rendered_witness :
  (0 < 10)%nat /\
  @pipeline (list Z) bool Demo.rng Demo.flag_numpy Demo.iso_parser
    Demo.stable_argsort 10 1 Demo.tables false Demo.counter_pool
  = Ok Demo.table /\
  Forall (fun e => (exists z, event_ts e = Clock.isoformat_secs z) /\
                   event_ts e <> "NaT") Demo.table.
Proof.
  assert (Hmax : (0 < 10)%nat) by lia.
  assert (E : @pipeline (list Z) bool Demo.rng Demo.flag_numpy Demo.iso_parser
    Demo.stable_argsort 10 1 Demo.tables false Demo.counter_pool
              = Ok Demo.table) by (vm_compute; reflexivity).
  split; [exact Hmax|]. split; [exact E|].
  exact (@table_timestamps_rendered (list Z) bool Demo.rng Demo.flag_numpy
           Demo.iso_parser Demo.stable_argsort 10%nat 1%nat Demo.tables false
           Demo.counter_pool Demo.table Hmax E).
Defined.

Lemma sessions_have_own_ids_witness :
  (forall i j : nat, Demo.counter_pool i = Demo.counter_pool j -> i = j) /\
  @pipeline (list Z) bool Demo.rng Demo.flag_numpy Demo.iso_parser
    Demo.stable_argsort 10 1 Demo.tables false Demo.counter_pool
  = Ok Demo.table /\
  exists blocks : list (list event),
    Permutation (concat blocks) Demo.table /\
    Forall one_session blocks /\
    ForallOrdPairs share_no_session blocks.
Proof.
  assert (E : @pipeline (list Z) bool Demo.rng Demo.flag_numpy Demo.iso_parser
    Demo.stable_argsort 10 1 Demo.tables false Demo.counter_pool
              = Ok Demo.table) by (vm_compute; reflexivity).
  split; [exact counter_pool_inj|]. split; [exact E|].
  destruct (@sessions_have_own_ids (list Z) bool Demo.rng Demo.flag_numpy
              Demo.iso_parser Demo.stable_argsort Demo.counter_pool
              counter_pool_inj 10%nat 1%nat Demo.tables false Demo.table E)
    as (L & w1 & w2 & blocks & _ & _ & _ & _ & Hperm & Hone & Hshare).
  exists blocks. split; [exact Hperm|]. split; [exact Hone | exact Hshare].
Defined.

